(** * Entity X: the orchestration core of the Electron main process

    A shallow embedding of [db.js] (the SQLite persistence module) and of the
    main-process pipeline (entity identity, enrichment gateway, reconciliation,
    cache restore, image de-duplication), followed by the properties of the
    design document that concern them.

    Conventions of the embedding.
    - A JavaScript value is a [value]; an object is a finite map from property
      names to values, so that object spread is a right-biased union.
    - A JavaScript number is an exact rational ([Q]); the code under study only
      moves, compares and clamps numbers.
    - Code that can throw returns a [completion]; stateful code is written in
      the state-and-exception monad [M] over the state of the process.
    - What the host platform decides (URL parsing, parsing of JSON text that
      arrives from the network, [parseFloat], date parsing, SQLite's rendering
      of a number into a TEXT column) is a field of the class [Platform].
    - What the outside world decides (HTTP outcomes, the clock, the random
      part of an event id, a storage fault) is an explicit argument. *)

From Stdlib Require Import ZArith QArith Qround String Ascii List DecimalString DecimalZ Lia.
From Stdlib Require Import Sorting Permutation OrderedTypeEx.
From stdpp Require Import base gmap strings list.

Set Warnings "-register-all".

Local Open Scope string_scope.
Local Open Scope Z_scope.

(** ** JavaScript values *)

Inductive value : Type :=
| VUndef
| VNull
| VBool (b : bool)
| VNum (q : Q)
| VStr (s : string)
| VArr (l : list value)
| VObj (o : gmap string value).

(** The result of evaluating code that may throw; an exception carries the
    [message] of its [Error]. *)
Inductive completion (A : Type) : Type :=
| Normal (a : A)
| Throw (message : string).

Arguments Normal {A} a.
Arguments Throw {A} message.

Definition num (z : Z) : value := VNum (inject_Z z).

(** [ToBoolean]: what [||], [!] and [if] test. *)
Definition truthy (v : value) : bool :=
  match v with
  | VUndef | VNull => false
  | VBool b => b
  | VNum q => negb (Qeq_bool q 0)
  | VStr s => negb (String.eqb s "")
  | VArr _ | VObj _ => true
  end.

(** [a || b] *)
Definition js_or (a b : value) : value := if truthy a then a else b.

(** [a ?? b] *)
Definition js_nullish (a b : value) : value :=
  match a with
  | VUndef | VNull => b
  | _ => a
  end.

Definition is_nullish (v : value) : bool :=
  match v with
  | VUndef | VNull => true
  | _ => false
  end.

(** Decimal rendering of an integer, as in a template literal. *)
Definition dec (z : Z) : string := NilZero.string_of_int (Z.to_int z).

(** [v[i]] for an array index. *)
Definition index (v : value) (i : nat) : completion value :=
  match v with
  | VUndef | VNull => Throw "TypeError: Cannot read properties of undefined"
  | VArr l => Normal (nth i l VUndef)
  | VStr s => Normal (match String.get i s with
                      | Some c => VStr (String c EmptyString)
                      | None => VUndef
                      end)
  | VObj o => Normal (default VUndef (o !! dec (Z.of_nat i)))
  | VBool _ | VNum _ => Normal VUndef
  end.

(** [v.k] for a property name that is not an array index. *)
Definition prop (v : value) (k : string) : completion value :=
  match v with
  | VUndef | VNull => Throw "TypeError: Cannot read properties of undefined"
  | VObj o => Normal (default VUndef (o !! k))
  | _ => Normal VUndef
  end.

(** [v?.k] and [v?.[i]] *)
Definition opt_prop (v : value) (k : string) : value :=
  match prop v k with
  | Normal x => x
  | Throw _ => VUndef
  end.

Definition opt_index (v : value) (i : nat) : value :=
  match index v i with
  | Normal x => x
  | Throw _ => VUndef
  end.

(** [{ ...o1, ...o2 }]: the later spread wins. *)
Definition assign (o1 o2 : gmap string value) : gmap string value := o2 ∪ o1.

Fixpoint enumerate_from (i : nat) (l : list value) : list (string * value) :=
  match l with
  | [] => []
  | x :: l' => (dec (Z.of_nat i), x) :: enumerate_from (S i) l'
  end.

Definition chars (s : string) : list value :=
  map (fun c => VStr (String c EmptyString)) (list_ascii_of_string s).

(** The own enumerable properties that [...v] copies into an object literal. *)
Definition spread (v : value) : gmap string value :=
  match v with
  | VObj o => o
  | VArr l => list_to_map (enumerate_from 0 l)
  | VStr s => list_to_map (enumerate_from 0 (chars s))
  | _ => ∅
  end.

(** An object literal [{ k1: v1, ..., kn: vn }]. *)
Definition object (fields : list (string * value)) : gmap string value :=
  fold_left (fun o kv => <[kv.1 := kv.2]> o) fields ∅.

Definition to_upper_ascii (c : ascii) : ascii :=
  let n := N_of_ascii c in
  if (97 <=? n)%N && (n <=? 122)%N then ascii_of_N (n - 32) else c.

Definition upper (s : string) : string :=
  string_of_list_ascii (map to_upper_ascii (list_ascii_of_string s)).

(** [v.toUpperCase()] *)
Definition toUpperCase (v : value) : completion string :=
  match v with
  | VStr s => Normal (upper s)
  | VUndef | VNull => Throw "TypeError: Cannot read properties of undefined"
  | _ => Throw "TypeError: toUpperCase is not a function"
  end.

(** [Array.isArray(v) ? v.slice(0, n) : []] *)
Definition array_prefix (n : nat) (v : value) : list value :=
  match v with
  | VArr l => firstn n l
  | _ => []
  end.

(** What [JSON.parse(JSON.stringify(v))] yields; [None] when
    [JSON.stringify] returns [undefined].  A property whose value is
    [undefined] is dropped and an [undefined] array element becomes [null]. *)
Fixpoint JSON_value (v : value) : option value :=
  match v with
  | VUndef => None
  | VArr l => Some (VArr (map (fun x => default VNull (JSON_value x)) l))
  | VObj o => Some (VObj (omap JSON_value o))
  | other => Some other
  end.

(** A serialised JSON text held in a database column, represented by the
    value it denotes. *)
Record json_text : Type := JsonText { json_denotes : value }.

Definition JSON_stringify (v : value) : option json_text :=
  JsonText <$> JSON_value v.

Fixpoint json_safe (v : value) : bool :=
  match v with
  | VUndef => false
  | VArr l => forallb json_safe l
  | VObj o => map_fold (fun _ x acc => json_safe x && acc) true o
  | _ => true
  end.

(** The number of constructors of a value. *)
Fixpoint value_size (v : value) : nat :=
  match v with
  | VArr l => S (fold_right (fun x n => (value_size x + n)%nat) O l)
  | VObj o => S (map_fold (fun _ x n => (value_size x + n)%nat) O o)
  | _ => 1%nat
  end.

(** ** SHA-256 ([crypto.createHash('sha256').update(s).digest('hex')])

    FIPS 180-4 over 32-bit words held in [Z], the wrap-around written out. *)

Module SHA256.

Definition w32 (x : Z) : Z := x mod 2 ^ 32.
Definition add32 (x y : Z) : Z := w32 (x + y).
Definition rotr (n x : Z) : Z := Z.lor (Z.shiftr x n) (w32 (Z.shiftl x (32 - n))).
Definition not32 (x : Z) : Z := 2 ^ 32 - 1 - x.
Definition Ch (x y z : Z) : Z := Z.lxor (Z.land x y) (Z.land (not32 x) z).
Definition Maj (x y z : Z) : Z := Z.lxor (Z.lxor (Z.land x y) (Z.land x z)) (Z.land y z).
Definition Sigma0 (x : Z) : Z := Z.lxor (Z.lxor (rotr 2 x) (rotr 13 x)) (rotr 22 x).
Definition Sigma1 (x : Z) : Z := Z.lxor (Z.lxor (rotr 6 x) (rotr 11 x)) (rotr 25 x).
Definition sigma0 (x : Z) : Z := Z.lxor (Z.lxor (rotr 7 x) (rotr 18 x)) (Z.shiftr x 3).
Definition sigma1 (x : Z) : Z := Z.lxor (Z.lxor (rotr 17 x) (rotr 19 x)) (Z.shiftr x 10).

(** The round constants are the first 32 bits of the fractional parts of the
    cube roots of the first 64 primes, the initial hash value those of the
    square roots of the first 8 primes; both are computed here. *)
Definition is_prime (n : Z) : bool :=
  forallb (fun d => negb (n mod d =? 0)) (map Z.of_nat (seq 2 (Z.to_nat n - 2))).

Definition primes : list Z := filter (fun n => is_prime n = true) (map Z.of_nat (seq 2 310)).

(** The largest [r] between [lo] and [hi] with [r ^ 3 <= n]. *)
Fixpoint cube_root_between (fuel : nat) (lo hi n : Z) : Z :=
  match fuel with
  | O => lo
  | S fuel' =>
      if hi - lo <=? 1 then lo
      else
        let mid := (lo + hi) / 2 in
        if mid ^ 3 <=? n then cube_root_between fuel' mid hi n
        else cube_root_between fuel' lo mid n
  end.

Definition fractional_cube_root (p : Z) : Z :=
  w32 (cube_root_between 40 0 (2 ^ 36) (p * 2 ^ 96)).

Definition fractional_square_root (p : Z) : Z := w32 (Z.sqrt (p * 2 ^ 64)).

Definition K : list Z := Eval vm_compute in map fractional_cube_root primes.

Record hash : Type := Hash { h0 : Z; h1 : Z; h2 : Z; h3 : Z; h4 : Z; h5 : Z; h6 : Z; h7 : Z }.

Definition H_init : hash :=
  Eval vm_compute in
    match map fractional_square_root (firstn 8 primes) with
    | [a; b; c; d; e; f; g; h] => Hash a b c d e f g h
    | _ => Hash 0 0 0 0 0 0 0 0
    end.

(** The message schedule, built with the most recent word first. *)
Fixpoint extend (n : nat) (rev_w : list Z) : list Z :=
  match n with
  | O => rev_w
  | S n' =>
      let w := add32 (add32 (sigma1 (nth 1 rev_w 0)) (nth 6 rev_w 0))
                 (add32 (sigma0 (nth 14 rev_w 0)) (nth 15 rev_w 0)) in
      extend n' (w :: rev_w)
  end.

Definition schedule (block : list Z) : list Z := rev (extend 48 (rev block)).

Definition round (s : hash) (kw : Z * Z) : hash :=
  let (k, w) := kw in
  let t1 := add32 (add32 (add32 (h7 s) (Sigma1 (h4 s))) (add32 (Ch (h4 s) (h5 s) (h6 s)) k)) w in
  let t2 := add32 (Sigma0 (h0 s)) (Maj (h0 s) (h1 s) (h2 s)) in
  Hash (add32 t1 t2) (h0 s) (h1 s) (h2 s) (add32 (h3 s) t1) (h4 s) (h5 s) (h6 s).

Definition compress (s : hash) (block : list Z) : hash :=
  let r := fold_left round (combine K (schedule block)) s in
  Hash (add32 (h0 s) (h0 r)) (add32 (h1 s) (h1 r)) (add32 (h2 s) (h2 r)) (add32 (h3 s) (h3 r))
    (add32 (h4 s) (h4 r)) (add32 (h5 s) (h5 r)) (add32 (h6 s) (h6 r)) (add32 (h7 s) (h7 r)).

Definition be_word (b : list Z) : Z := fold_left (fun acc x => acc * 256 + x) b 0.

Fixpoint words (n : nat) (bytes : list Z) : list Z :=
  match n with
  | O => []
  | S n' => be_word (firstn 4 bytes) :: words n' (skipn 4 bytes)
  end.

Fixpoint blocks (n : nat) (bytes : list Z) (s : hash) : hash :=
  match n with
  | O => s
  | S n' => blocks n' (skipn 64 bytes) (compress s (words 16 (firstn 64 bytes)))
  end.

Definition be_bytes8 (x : Z) : list Z :=
  map (fun i => (Z.shiftr x (8 * i)) mod 256) [7; 6; 5; 4; 3; 2; 1; 0].

Definition pad (msg : list Z) : list Z :=
  let len := Z.of_nat (length msg) in
  msg ++ [0x80] ++ repeat 0 (Z.to_nat ((55 - len) mod 64)) ++ be_bytes8 (8 * len).

Definition digest (msg : list Z) : hash :=
  let p := pad msg in blocks (Nat.div (length p) 64) p H_init.

Definition hex_digit (n : Z) : ascii :=
  nth (Z.to_nat (n mod 16)) (list_ascii_of_string "0123456789abcdef") "0"%char.

Definition hex32 (w : Z) : list ascii :=
  map (fun i => hex_digit (Z.shiftr w (4 * i))) [7; 6; 5; 4; 3; 2; 1; 0].

Definition hex (h : hash) : string :=
  string_of_list_ascii
    (hex32 (h0 h) ++ hex32 (h1 h) ++ hex32 (h2 h) ++ hex32 (h3 h) ++
     hex32 (h4 h) ++ hex32 (h5 h) ++ hex32 (h6 h) ++ hex32 (h7 h)).

(** The bytes a string is hashed as: one byte per character. *)
Definition bytes_of_string (s : string) : list Z :=
  map (fun c => Z.of_N (N_of_ascii c)) (list_ascii_of_string s).

Definition sha256_hex (s : string) : string := hex (digest (bytes_of_string s)).

End SHA256.

(** ** Dates ([new Date(ms).toISOString()]) *)

Module JsDate.

Definition ms_per_day : Z := 86400000.

(** The largest time value of a valid [Date]. *)
Definition max_time : Z := 8640000000000000.

(** Year, month and day of a day number counted from 1970-01-01
    (proleptic Gregorian calendar). *)
Definition civil_from_days (days : Z) : Z * Z * Z :=
  let z := days + 719468 in
  let era := z / 146097 in
  let doe := z - era * 146097 in
  let yoe := (doe - doe / 1460 + doe / 36524 - doe / 146096) / 365 in
  let doy := doe - (365 * yoe + yoe / 4 - yoe / 100) in
  let mp := (5 * doy + 2) / 153 in
  let d := doy - (153 * mp + 2) / 5 + 1 in
  let m := if mp <? 10 then mp + 3 else mp - 9 in
  let y := yoe + era * 400 + (if m <=? 2 then 1 else 0) in
  (y, m, d).

(** [n] written with at least [width] digits. *)
Definition pad_left (width : nat) (n : Z) : string :=
  let s := dec n in
  string_of_list_ascii (repeat "0"%char (width - String.length s)) +:+ s.

Definition year_text (y : Z) : string :=
  if (0 <=? y) && (y <=? 9999) then pad_left 4 y
  else (if y <? 0 then "-" else "+") +:+ pad_left 6 (Z.abs y).

Definition iso_text (ms : Z) : string :=
  let '(y, m, d) := civil_from_days (ms / ms_per_day) in
  let t := ms mod ms_per_day in
  year_text y +:+ "-" +:+ pad_left 2 m +:+ "-" +:+ pad_left 2 d +:+ "T" +:+
  pad_left 2 (t / 3600000) +:+ ":" +:+ pad_left 2 (t / 60000 mod 60) +:+ ":" +:+
  pad_left 2 (t / 1000 mod 60) +:+ "." +:+ pad_left 3 (t mod 1000) +:+ "Z".

(** [toISOString] throws on an invalid date; [None] is the invalid date. *)
Definition toISOString (time : option Z) : completion string :=
  match time with
  | Some ms =>
      if (- max_time <=? ms) && (ms <=? max_time) then Normal (iso_text ms)
      else Throw "RangeError: Invalid time value"
  | None => Throw "RangeError: Invalid time value"
  end.

(** [s.replace('T', ' ')]: the first occurrence only. *)
Fixpoint replace_T (s : string) : string :=
  match s with
  | EmptyString => EmptyString
  | String c s' => if Ascii.eqb c "T"%char then String " "%char s' else String c (replace_T s')
  end.

(** [iso.replace('T', ' ').slice(0, 19)] *)
Definition sql_seconds (iso : string) : string := substring 0 19 (replace_T iso).

End JsDate.

(** ** The host platform *)

Class Platform : Type := {
  (** [new URL(s).protocol]; [None] when the constructor throws. *)
  URL_protocol : string -> option string;
  (** [JSON.parse] on a text received from the network; [None] is a
      [SyntaxError], which the empty text always is. *)
  JSON_parse : string -> option value;
  JSON_parse_empty : JSON_parse "" = None;
  (** [parseFloat]; [None] is [NaN]. *)
  parseFloat : value -> option Q;
  (** The time value of [new Date(v)] for an argument that is not a number;
      [None] is the invalid date. *)
  Date_parse : value -> option Z;
  (** The text SQLite stores when a number is bound to a TEXT column. *)
  sqlite_text : Q -> string;
  (** [process.env.GEMINI_API_KEY] *)
  env_GEMINI_API_KEY : option string;
  (** [crypto.randomUUID()], drawn once when the process starts. *)
  randomUUID : string
}.

(** ** The database schema ([_runMigrations]) *)

(** What better-sqlite3 hands to SQLite for a bound parameter. *)
Inductive sql_value : Type :=
| SqlNull
| SqlText (s : string)
| SqlReal (q : Q).

Module Entities.
(** [entity_id TEXT PRIMARY KEY] is the key of the table. *)
Record row : Type := Row {
  entity_type : string;
  source_url : option string;
  title : option string;
  extracted_text : option string;
  risk_level : option string;
  analysis_json : option json_text;
  detected_at : option string
}.
End Entities.

Module TrustHistory.
Record row : Type := Row {
  entity_id : string;
  trust_score : sql_value;
  delta : sql_value;
  timestamp : option string
}.
End TrustHistory.

Module AuditLog.
(** [event_id TEXT PRIMARY KEY] is the key of the table. *)
Record row : Type := Row {
  event_type : string;
  entity_id : option string;
  session_id : option string;
  timestamp : option string;
  metadata : option json_text
}.
End AuditLog.

Module LegalSessions.
Record row : Type := Row {
  entity_id : option string;
  user_query : option string;
  ai_response : option string;
  session_type : option string;
  timestamp : option string
}.
End LegalSessions.

Record tables : Type := Tables {
  entities : gmap string Entities.row;
  trust_history : list TrustHistory.row;
  audit_log : gmap string AuditLog.row;
  legal_sessions : list LegalSessions.row
}.

Definition empty_tables : tables := Tables ∅ [] ∅ [].

(** ** The state of the main process *)

(** An outbound HTTP request, kept by what the properties below distinguish. *)
Inductive request : Type :=
| ImageMonitorRequest (image_url : string)
| TextMonitorRequest (body : gmap string value)
| GeminiRequest (title url text : string).

Record process : Type := Process {
  (** [db.js]: [let _db = null] *)
  _db : option tables;
  (** [const ENTITY_CACHE = new Map()] *)
  ENTITY_CACHE : gmap string value;
  (** [const _seenImageUrls = new Set()] *)
  _seenImageUrls : gset string;
  (** what was written to the console, oldest first *)
  console : list string;
  (** [webContents.send(channel, payload)], oldest first *)
  sent : list (string * value);
  (** [fetch] calls issued, oldest first *)
  requests : list request
}.

Definition set_db (d : option tables) (s : process) : process :=
  Process d (ENTITY_CACHE s) (_seenImageUrls s) (console s) (sent s) (requests s).
Definition set_cache (c : gmap string value) (s : process) : process :=
  Process (_db s) c (_seenImageUrls s) (console s) (sent s) (requests s).
Definition set_seen (x : gset string) (s : process) : process :=
  Process (_db s) (ENTITY_CACHE s) x (console s) (sent s) (requests s).
Definition add_console (line : string) (s : process) : process :=
  Process (_db s) (ENTITY_CACHE s) (_seenImageUrls s) (console s ++ [line]) (sent s) (requests s).
Definition add_sent (channel : string) (payload : value) (s : process) : process :=
  Process (_db s) (ENTITY_CACHE s) (_seenImageUrls s) (console s)
    (sent s ++ [(channel, payload)]) (requests s).
Definition add_request (r : request) (s : process) : process :=
  Process (_db s) (ENTITY_CACHE s) (_seenImageUrls s) (console s) (sent s) (requests s ++ [r]).

(** A freshly started process: nothing cached, nothing seen, no database
    handle yet. *)
Definition fresh_process : process := Process None ∅ ∅ [] [] [].

(** ** State and exceptions *)

Definition M (A : Type) : Type := process -> completion A * process.

Definition ret {A : Type} (a : A) : M A := fun s => (Normal a, s).

Definition throw {A : Type} (message : string) : M A := fun s => (Throw message, s).

Definition and_then {A B : Type} (m : M A) (k : A -> M B) : M B :=
  fun s =>
    match m s with
    | (Normal a, s') => k a s'
    | (Throw e, s') => (Throw e, s')
    end.

(** [try { body } catch (err) { handler(err.message) }] *)
Definition try_catch {A : Type} (body : M A) (handler : string -> M A) : M A :=
  fun s =>
    match body s with
    | (Normal a, s') => (Normal a, s')
    | (Throw e, s') => handler e s'
    end.

Definition lift {A : Type} (c : completion A) : M A := fun s => (c, s).

Definition modify (f : process -> process) : M unit := fun s => (Normal tt, f s).

Definition read {A : Type} (f : process -> A) : M A := fun s => (Normal (f s), s).

Notation "'let*' x := m 'in' k" := (and_then m (fun x => k))
  (at level 10, x name, m at level 100, k at level 200).
Notation "m ;; k" := (and_then m (fun _ => k))
  (at level 100, k at level 200, right associativity).

Definition log (line : string) : M unit := modify (add_console line).

(** ** [db.js] *)

(** What a write helper reads from the outside world: the clock
    ([Date.now()]), the random part of [_uuid()]
    ([Math.random().toString(36).slice(2, 9)]) and whether the storage engine
    fails the statement (disk full, I/O error, locked file). *)
Record io : Type := Io {
  now : Z;
  random : string;
  storage_fault : option string
}.

Section DbJs.
Context `{Platform}.

(** better-sqlite3 binds numbers, strings and [null]/[undefined]; anything
    else is a [TypeError]. *)
Definition sqlite_bind (v : value) : completion sql_value :=
  match v with
  | VStr s => Normal (SqlText s)
  | VNum q => Normal (SqlReal q)
  | VNull | VUndef => Normal SqlNull
  | VBool _ | VArr _ | VObj _ =>
      Throw "TypeError: SQLite3 can only bind numbers, strings, bigints, buffers, and null"
  end.

(** What a TEXT column keeps of a bound parameter. *)
Definition text_affinity (x : sql_value) : option string :=
  match x with
  | SqlNull => None
  | SqlText s => Some s
  | SqlReal q => Some (sqlite_text q)
  end.

Definition bind_text (v : value) : completion (option string) :=
  match sqlite_bind v with
  | Normal x => Normal (text_affinity x)
  | Throw e => Throw e
  end.

Definition entity_types : list string := ["IMAGE"; "NEWS"; "TEXT"; "UNKNOWN"].

Definition constraint_failed {A : Type} (what : string) : completion A :=
  Throw ("SqliteError: " +:+ what).

(** [INSERT OR REPLACE INTO entities ...]: the row with the same
    [entity_id], if any, is replaced. *)
Definition stmt_insertEntity (entity_id : option string) (r : Entities.row)
    (tb : tables) : completion tables :=
  match entity_id with
  | None => constraint_failed "NOT NULL constraint failed: entities.entity_id"
  | Some id =>
      if bool_decide (Entities.entity_type r ∈ entity_types)
      then Normal (Tables (<[id := r]> (entities tb)) (trust_history tb)
                     (audit_log tb) (legal_sessions tb))
      else constraint_failed "CHECK constraint failed: entity_type"
  end.

(** [INSERT INTO trust_history ...] *)
Definition stmt_insertTrust (entity_id : option string) (trust_score delta : sql_value)
    (timestamp : option string) (tb : tables) : completion tables :=
  match entity_id, trust_score with
  | None, _ => constraint_failed "NOT NULL constraint failed: trust_history.entity_id"
  | _, SqlNull => constraint_failed "NOT NULL constraint failed: trust_history.trust_score"
  | Some id, _ =>
      Normal (Tables (entities tb)
                (trust_history tb ++ [TrustHistory.Row id trust_score delta timestamp])
                (audit_log tb) (legal_sessions tb))
  end.

(** [INSERT OR IGNORE INTO audit_log ...]: a row that would break the
    primary key or a NOT NULL constraint is skipped. *)
Definition stmt_insertAudit (event_id : option string) (event_type : option string)
    (entity_id session_id timestamp : option string) (metadata : option json_text)
    (tb : tables) : completion tables :=
  match event_id, event_type with
  | Some id, Some ty =>
      match audit_log tb !! id with
      | Some _ => Normal tb
      | None =>
          Normal (Tables (entities tb) (trust_history tb)
                    (<[id := AuditLog.Row ty entity_id session_id timestamp metadata]>
                       (audit_log tb))
                    (legal_sessions tb))
      end
  | _, _ => Normal tb
  end.

(** [INSERT INTO legal_sessions ...] *)
Definition stmt_insertLegal (entity_id user_query ai_response session_type
    timestamp : option string) (tb : tables) : completion tables :=
  Normal (Tables (entities tb) (trust_history tb) (audit_log tb)
            (legal_sessions tb ++
               [LegalSessions.Row entity_id user_query ai_response session_type timestamp])).

(** [_stmts.x.run(params)]: the statement either takes effect or throws and
    leaves the tables as they were.  Without an open database no statement
    was ever prepared. *)
Definition run (w : io) (stmt : tables -> completion tables) : M unit :=
  fun s =>
    match _db s with
    | None => (Throw "TypeError: Cannot read properties of undefined (reading 'run')", s)
    | Some tb =>
        match storage_fault w with
        | Some e => (Throw e, s)
        | None =>
            match stmt tb with
            | Normal tb' => (Normal tt, set_db (Some tb') s)
            | Throw e => (Throw e, s)
            end
        end
    end.

(** [initDb(dbPath)]: [Some tb] when the file opens (with the rows [tb] it
    holds; the migrations are [CREATE ... IF NOT EXISTS]), [None] when
    opening, the migrations or the preparation of a statement throws. *)
Definition initDb (disk : option tables) : M unit :=
  match disk with
  | Some tb => modify (set_db (Some tb)) ;; log "[DB] Initialized SQLite database"
  | None =>
      log "[DB] FATAL - could not initialise database" ;; modify (set_db None)
  end.

Definition _ready : M bool :=
  let* db := read _db in
  match db with
  | None => log "[DB] Database not initialised - skipping write." ;; ret false
  | Some _ => ret true
  end.

(** [new Date(v)] *)
Definition new_Date (v : value) : option Z :=
  match v with
  | VNum q =>
      if Qle_bool (inject_Z (- JsDate.max_time)) q && Qle_bool q (inject_Z JsDate.max_time)
      then Some (if Qle_bool 0 q then Qfloor q else Qceiling q)
      else None
  | _ => Date_parse v
  end.

(** [d.toISOString().replace('T', ' ').slice(0, 19)] *)
Definition iso_seconds (time : option Z) : completion string :=
  match JsDate.toISOString time with
  | Normal iso => Normal (JsDate.sql_seconds iso)
  | Throw e => Throw e
  end.

(** [_nowIso()]: the current time is always a valid date, so its
    [toISOString] does not throw. *)
Definition _nowIso (w : io) : string := JsDate.sql_seconds (JsDate.iso_text (now w)).

Definition base36_digit (n : Z) : ascii :=
  nth (Z.to_nat n) (list_ascii_of_string "0123456789abcdefghijklmnopqrstuvwxyz") "0"%char.

Fixpoint base36_digits (fuel : nat) (n : Z) (acc : list ascii) : list ascii :=
  match fuel with
  | O => acc
  | S fuel' =>
      if n <? 36 then base36_digit n :: acc
      else base36_digits fuel' (n / 36) (base36_digit (n mod 36) :: acc)
  end.

(** [n.toString(36)] for an integer. *)
Definition base36 (n : Z) : string :=
  let digits := string_of_list_ascii (base36_digits (S (Z.to_nat (Z.log2 (Z.abs n)))) (Z.abs n) []) in
  if n <? 0 then "-" +:+ digits else digits.

Definition _uuid (w : io) : string := base36 (now w) +:+ "-" +:+ random w.

(** *** Write helpers *)

(** [param === undefined ? dflt : param]: a default parameter. *)
Definition default_param (dflt v : value) : value :=
  match v with
  | VUndef => dflt
  | _ => v
  end.

(** The parameters [insertEntity] binds, evaluated in source order. *)
Definition insertEntity_params (p : value) (w : io) :
    completion (option string * Entities.row) :=
  match prop p "detected_at" with
  | Throw e => Throw e
  | Normal d =>
  match (if truthy d then iso_seconds (new_Date d) else Normal (_nowIso w)) with
  | Throw e => Throw e
  | Normal detectedIso =>
  let get k := opt_prop p k in
  let entity_id := js_or (get "entity_id") (VStr "unknown") in
  match toUpperCase (js_or (get "entity_type") (VStr "UNKNOWN")) with
  | Throw e => Throw e
  | Normal entity_type =>
  let source_url := js_or (js_or (js_or (get "source_url") (get "url")) (get "image_url")) (VStr "") in
  let title := js_or (js_or (get "title") (get "content_title")) (VStr "") in
  let extracted_text := js_or (get "text") (VStr "") in
  match toUpperCase (js_or (js_or (get "risk_level") (get "misinformation_risk")) (VStr "LOW")) with
  | Throw e => Throw e
  | Normal risk_level =>
  let analysis_json := JSON_stringify (js_or (get "analysis") (VObj ∅)) in
  match bind_text entity_id, bind_text source_url, bind_text title, bind_text extracted_text with
  | Normal id, Normal src, Normal ttl, Normal txt =>
      Normal (id, Entities.Row entity_type src ttl txt (Some risk_level) analysis_json
                    (Some detectedIso))
  | Throw e, _, _, _ | _, Throw e, _, _ | _, _, Throw e, _ | _, _, _, Throw e => Throw e
  end end end end end.

Definition insertEntity (p : value) (w : io) : M unit :=
  let* ok := _ready in
  if negb ok then ret tt
  else
    try_catch
      (let* params := lift (insertEntity_params p w) in
       run w (stmt_insertEntity params.1 params.2) ;;
       log "[DB] Entity saved")
      (fun err => log ("[DB] insertEntity error: " +:+ err)).

Definition insertTrustHistory (entityId trustScore delta : value) (w : io) : M unit :=
  let* ok := _ready in
  if negb ok then ret tt
  else
    try_catch
      (let* entity_id := lift (bind_text entityId) in
       let* trust_score := lift (sqlite_bind trustScore) in
       let* delta' := lift (sqlite_bind (default_param (num 0) delta)) in
       run w (stmt_insertTrust entity_id trust_score delta' (Some (_nowIso w))))
      (fun err => log ("[DB] insertTrustHistory error: " +:+ err)).

Definition insertAuditLog (eventType entityId sessionId metadata : value) (w : io) : M unit :=
  let* ok := _ready in
  if negb ok then ret tt
  else
    try_catch
      (let event_id := _uuid w in
       let* event_type := lift (bind_text eventType) in
       let* entity_id := lift (bind_text (js_or (default_param (VStr "") entityId) (VStr ""))) in
       let* session_id := lift (bind_text (js_or (default_param (VStr "") sessionId) (VStr ""))) in
       let metadata' := JSON_stringify (default_param (VObj ∅) metadata) in
       run w (stmt_insertAudit (Some event_id) event_type entity_id session_id
                (Some (_nowIso w)) metadata'))
      (fun err => log ("[DB] insertAuditLog error: " +:+ err)).

Definition insertLegalSession (entityId userQuery aiResponse sessionType : value) (w : io) :
    M unit :=
  let* ok := _ready in
  if negb ok then ret tt
  else
    try_catch
      (let* entity_id := lift (bind_text (js_or entityId (VStr ""))) in
       let* user_query := lift (bind_text (js_or userQuery (VStr ""))) in
       let* ai_response := lift (bind_text (js_or aiResponse (VStr ""))) in
       let* session_type := lift (bind_text (default_param (VStr "LEGAL_CHAT") sessionType)) in
       run w (stmt_insertLegal entity_id user_query ai_response session_type
                (Some (_nowIso w))) ;;
       log "[DB] Legal session saved")
      (fun err => log ("[DB] insertLegalSession error: " +:+ err)).

(** *** Read helpers *)

(** A row of [SELECT * FROM entities] once [row.analysis] has been set. *)
Record entity_record : Type := EntityRecord {
  record_id : string;
  columns : Entities.row;
  analysis : value
}.

(** [JSON.parse(row.analysis_json || '{}')]; the [catch] that falls back to
    [{}] is never taken on a text that [JSON.stringify] produced. *)
Definition parse_analysis (j : option json_text) : value :=
  match j with
  | Some t => json_denotes t
  | None => VObj ∅
  end.

Definition read_row (kr : string * Entities.row) : entity_record :=
  EntityRecord kr.1 kr.2 (parse_analysis (Entities.analysis_json kr.2)).

(** The order of [detected_at] values: NULL first, then texts bytewise. *)
Definition detected_leb (a b : option string) : bool :=
  match a, b with
  | None, _ => true
  | Some _, None => false
  | Some x, Some y => String.leb x y
  end.

Fixpoint insert_desc (x : string * Entities.row) (l : list (string * Entities.row)) :
    list (string * Entities.row) :=
  match l with
  | [] => [x]
  | y :: l' =>
      if detected_leb (Entities.detected_at y.2) (Entities.detected_at x.2)
      then x :: y :: l'
      else y :: insert_desc x l'
  end.

(** [ORDER BY detected_at DESC]; rows with the same [detected_at] come in
    some order the engine chooses, here the order of the table scan. *)
Definition order_by_detected_desc (l : list (string * Entities.row)) :
    list (string * Entities.row) :=
  fold_right insert_desc [] l.

(** [(@x IS NULL OR column = @x)] *)
Definition matches (param column : option string) : bool :=
  match param with
  | None => true
  | Some x => bool_decide (column = Some x)
  end.

(** [type ? type.toUpperCase() : null] *)
Definition upper_or_null (v : value) : completion (option string) :=
  if truthy v then
    match toUpperCase v with
    | Normal s => Normal (Some s)
    | Throw e => Throw e
    end
  else Normal None.

Definition select_entities (t r : option string) (tb : tables) : list (string * Entities.row) :=
  filter (fun kr => matches t (Some (Entities.entity_type kr.2)) &&
                    matches r (Entities.risk_level kr.2))
         (map_to_list (entities tb)).

(** [queryEntities({ type, risk_level, limit })]: the records and the
    total. *)
Definition queryEntities (type risk_level : value) (limit : Z) :
    M (list entity_record * nat) :=
  let* ok := _ready in
  if negb ok then ret ([], O)
  else
    try_catch
      (let* t := lift (upper_or_null type) in
       let* r := lift (upper_or_null risk_level) in
       let lim := Z.max 1 (Z.min limit 2000) in
       let* db := read _db in
       match db with
       | None => throw "TypeError: Cannot read properties of undefined (reading 'all')"
       | Some tb =>
           let found := select_entities t r tb in
           let rows := firstn (Z.to_nat lim) (order_by_detected_desc found) in
           ret (map read_row rows, length found)
       end)
      (fun err => log ("[DB] queryEntities error: " +:+ err) ;; ret ([], O)).

(** [getEntity(entityId)] *)
Definition getEntity (entityId : value) : M (option entity_record) :=
  let* ok := _ready in
  if negb ok || negb (truthy entityId) then ret None
  else
    try_catch
      (let* key := lift (bind_text entityId) in
       let* db := read _db in
       match db, key with
       | None, _ => throw "TypeError: Cannot read properties of undefined (reading 'get')"
       | Some tb, Some id =>
           ret ((fun r => read_row (id, r)) <$> entities tb !! id)
       | Some tb, None => ret None
       end)
      (fun err => log ("[DB] getEntity error: " +:+ err) ;; ret None).

End DbJs.

(** ** The main process *)

(** An HTTP exchange as [fetch] reports it. *)
Inductive http_result : Type :=
| NetworkError (message : string)
  (** [fetch] rejects: no connection, or the [AbortSignal.timeout] fired *)
| Response (ok : bool) (status : Z) (json : option value)
  (** [res.ok], [res.status] and [await res.json()], [None] when the body is
      not JSON *).

(** [res.json()] *)
Definition res_json (body : option value) : completion value :=
  match body with
  | Some v => Normal v
  | None => Throw "SyntaxError: Unexpected token in JSON"
  end.

Module TextPayload.
(** The article payload the webview preload extracts:
    [{ title, url, text, word_count, timestamp }]. *)
Record t : Type := Make {
  title : string;
  url : string;
  text : string;
  word_count : Z;
  timestamp : Z
}.

Definition to_object (p : t) : gmap string value :=
  object [("title", VStr (title p)); ("url", VStr (url p)); ("text", VStr (text p));
          ("word_count", num (word_count p)); ("timestamp", num (timestamp p))].
End TextPayload.

Module Gemini.
(** What [callGeminiAnalysis] returns when it does not return [null]. *)
Record result : Type := Result {
  ai_generated_probability : Q;
  misinformation_risk : string;
  credibility_score : Q;
  forensic_explanation : list value;
  ai_summary : string;
  topic : value;
  key_claims : list value
}.
End Gemini.

Definition field (o : gmap string value) (k : string) : value := default VUndef (o !! k).

Definition is_space (c : ascii) : bool :=
  let n := N_of_ascii c in
  (n =? 32)%N || ((9 <=? n)%N && (n <=? 13)%N).

Definition is_letter (c : ascii) : bool :=
  let n := N_of_ascii c in
  ((65 <=? n)%N && (n <=? 90)%N) || ((97 <=? n)%N && (n <=? 122)%N).

Fixpoint drop_while (f : ascii -> bool) (l : list ascii) : list ascii :=
  match l with
  | [] => []
  | c :: l' => if f c then drop_while f l' else l
  end.

Definition trim_chars (l : list ascii) : list ascii :=
  rev (drop_while is_space (rev (drop_while is_space l))).

Definition backtick : ascii := ascii_of_N 96.
Definition newline : ascii := ascii_of_N 10.

Definition drop_newline (l : list ascii) : list ascii :=
  match l with
  | c :: l' => if Ascii.eqb c newline then l' else l
  | [] => []
  end.

(** [s.replace(/^```[a-z]*\n?/i, '')] *)
Definition strip_opening_fence (l : list ascii) : list ascii :=
  match l with
  | a :: b :: c :: l' =>
      if Ascii.eqb a backtick && Ascii.eqb b backtick && Ascii.eqb c backtick
      then drop_newline (drop_while is_letter l')
      else l
  | _ => l
  end.

(** [s.replace(/\n?```$/i, '')] *)
Definition strip_closing_fence (l : list ascii) : list ascii :=
  match rev l with
  | a :: b :: c :: l' =>
      if Ascii.eqb a backtick && Ascii.eqb b backtick && Ascii.eqb c backtick
      then rev (drop_newline l')
      else l
  | _ => l
  end.

(** [raw.replace(/^```[a-z]*\n?/i, '').replace(/\n?```$/i, '').trim()] *)
Definition strip_fences (raw : string) : string :=
  string_of_list_ascii
    (trim_chars (strip_closing_fence (strip_opening_fence (list_ascii_of_string raw)))).

(** [Math.max(0, Math.min(1, x))] *)
Definition clamp01 (x : Q) : Q :=
  if Qle_bool x 0 then 0%Q else if Qle_bool 1 x then 1%Q else x.

Section MainProcess.
Context `{Platform}.

(** [process.env.GEMINI_API_KEY || '<the key committed with the source>'];
    the committed literal is abbreviated, what matters is that it is not
    empty. *)
Definition GEMINI_API_KEY : string :=
  match env_GEMINI_API_KEY with
  | Some k => if String.eqb k "" then "AIza" else k
  | None => "AIza"
  end.

Definition IMAGE_MONITOR_SESSION_ID : string := randomUUID.

Definition isValidHttpUrl (url : string) : bool :=
  match URL_protocol url with
  | Some p => String.eqb p "http:" || String.eqb p "https:"
  | None => false
  end.

(** [parseFloat(v) || dflt] *)
Definition parseFloat_or (v : value) (dflt : Q) : Q :=
  match parseFloat v with
  | Some q => if Qeq_bool q 0 then dflt else q
  | None => dflt
  end.

(** The body of the [try] of [callGeminiAnalysis] after the response is in:
    the normalised analysis, or the exception the [catch] swallows. *)
(** [data?.candidates?.[0]?.content?.parts?.[0]?.text || ''] *)
Definition gemini_raw (data : value) : value :=
  let candidate := opt_index (opt_prop data "candidates") 0 in
  let part := opt_index (opt_prop (opt_prop candidate "content") "parts") 0 in
  js_or (opt_prop part "text") (VStr "").

Definition gemini_normalise (data : value) : completion Gemini.result :=
  match gemini_raw data with
  | VStr raw =>
      match JSON_parse (strip_fences raw) with
      | None => Throw "SyntaxError: Unexpected token in JSON"
      | Some parsed =>
          match prop parsed "summary" with
          | Throw e => Throw e
          | Normal (VStr summary) =>
              let risk :=
                match opt_prop parsed "misinformation_risk" with
                | VStr r => if bool_decide (r ∈ ["LOW"; "MEDIUM"; "HIGH"]) then r else "LOW"
                | _ => "LOW"
                end in
              let aiProb := clamp01 (parseFloat_or (opt_prop parsed "ai_generated_probability") 0) in
              let credScore := clamp01 (parseFloat_or (opt_prop parsed "credibility_score") (1 # 2)) in
              Normal (Gemini.Result aiProb risk credScore
                        (array_prefix 6 (opt_prop parsed "forensic_explanation"))
                        summary
                        (js_or (opt_prop parsed "topic") (VStr "General"))
                        (array_prefix 5 (opt_prop parsed "key_claims")))
          | Normal _ => Throw "Unexpected response shape"
          end
      end
  | _ => Throw "TypeError: raw.replace is not a function"
  end.

(** [callGeminiAnalysis(title, url, text)], given the outcome of its
    request.  The prompt embeds the title, the URL and the first 1500 words
    of the text; the request is recorded by these three inputs. *)
Definition callGeminiAnalysis (title url text : string) (r : http_result) :
    M (option Gemini.result) :=
  if String.eqb GEMINI_API_KEY "" then
    log "[GEMINI] No API key set. Skipping analysis." ;; ret None
  else
    try_catch
      (log "[GEMINI] Requesting forensic analysis" ;;
       modify (add_request (GeminiRequest title url text)) ;;
       match r with
       | NetworkError e => throw e
       | Response ok status body =>
           if negb ok then log ("[GEMINI] HTTP " +:+ dec status) ;; ret None
           else
             let* data := lift (res_json body) in
             let* g := lift (gemini_normalise data) in
             log "[GEMINI] Analysis OK" ;;
             ret (Some g)
       end)
      (fun err => log ("[GEMINI] Analysis failed (non-fatal): " +:+ err) ;; ret None).

(** What one run of a capture handler reads from the outside world. *)
Record world : Type := World {
  (** the image or text monitor service *)
  primary : http_result;
  (** the Gemini endpoint *)
  enrichment : http_result;
  (** [senderWebContents.isDestroyed()] *)
  destroyed : bool;
  (** [Date.now()] inside the entity id of a manual submission *)
  id_now : Z;
  (** [Date.now()] for [detected_at] and for [analyzed_at] *)
  detected_now : Z;
  analyzed_now : Z;
  (** one reading per database write, in source order *)
  io_entity : io;
  io_trust : io;
  io_audit : io
}.

(** [createHash('sha256').update(canonical).digest('hex').substring(0, 16)] *)
Definition entity_digest (canonical : string) : string :=
  substring 0 16 (SHA256.sha256_hex canonical).

Definition image_entity_id (imageUrl : string) : string :=
  entity_digest ("image-" +:+ imageUrl).

Definition text_entity_id (url title : string) : string :=
  entity_digest ("text-" +:+ url +:+ "-" +:+ title).

Definition manual_text_canonical (time : Z) (text : string) : string :=
  "text-manual-" +:+ dec time +:+ "-" +:+ substring 0 30 text.

Definition manual_text_entity_id (time : Z) (text : string) : string :=
  entity_digest (manual_text_canonical time text).

Definition cache_set (id : string) (entity : gmap string value) : M unit :=
  modify (fun s => set_cache (<[id := VObj entity]> (ENTITY_CACHE s)) s).

Definition analysis_failed (kind url err : string) (w : io) : M unit :=
  insertAuditLog (VStr "ANALYSIS_FAILED") (VStr "") (VStr IMAGE_MONITOR_SESSION_ID)
    (VObj (object [("type", VStr kind); ("url", VStr url);
                   ("error", VStr (substring 0 120 err))])) w.

(** The object [postImageUrlToBackend] puts in the cache. *)
Definition image_entity (entityId imageUrl : string) (analysis : value) (detected_at : Z) :
    gmap string value :=
  let a k := opt_prop analysis k in
  object [("entity_id", VStr entityId);
          ("entity_type", VStr "IMAGE");
          ("image_url", VStr imageUrl);
          ("fake_probability", a "fake_probability");
          ("risk_level", a "risk_level");
          ("forensic_explanation", js_nullish (a "forensic_explanation") (VArr []));
          ("trust_score", a "trust_score");
          ("trust_score_delta", a "trust_score_delta");
          ("session_id", a "session_id");
          ("detected_at", num detected_at)].

(** The argument of its call of [db.insertEntity]. *)
Definition image_row (entityId imageUrl : string) (analysis : value) : value :=
  let a k := opt_prop analysis k in
  VObj (object [("entity_id", VStr entityId);
                ("entity_type", VStr "IMAGE");
                ("source_url", VStr imageUrl);
                ("risk_level", a "risk_level");
                ("analysis", VObj (object
                   [("fake_probability", a "fake_probability");
                    ("trust_score", a "trust_score");
                    ("forensic_explanation",
                     js_nullish (a "forensic_explanation") (VArr []))]))]).

(** The payload it sends on [image-monitor:analysis]. *)
Definition image_message (entityId imageUrl : string) (analysis : value) (analyzed_at : Z) :
    value :=
  let a k := opt_prop analysis k in
  VObj (object [("entity_id", VStr entityId);
                ("image_url", VStr imageUrl);
                ("fake_probability", a "fake_probability");
                ("risk_level", a "risk_level");
                ("forensic_explanation", js_nullish (a "forensic_explanation") (VArr []));
                ("trust_score", a "trust_score");
                ("trust_score_delta", a "trust_score_delta");
                ("session_id", a "session_id");
                ("analyzed_at", num analyzed_at)]).

Definition postImageUrlToBackend (imageUrl : string) (w : world) : M unit :=
  if negb (isValidHttpUrl imageUrl) then log "[BACKEND] Invalid URL"
  else
    try_catch
      (log "[BACKEND] Posting to the image monitor" ;;
       modify (add_request (ImageMonitorRequest imageUrl)) ;;
       match primary w with
       | NetworkError e => throw e
       | Response ok status body =>
           if negb ok then log ("[BACKEND] HTTP error: " +:+ dec status)
           else
             let* analysis := lift (res_json body) in
             let* _ := lift (prop analysis "risk_level") in
             let a k := opt_prop analysis k in
             log "[BACKEND] Analysis result" ;;
             if destroyed w then log "[BACKEND] Sender window destroyed, cannot send result"
             else
               let entityId := image_entity_id imageUrl in
               cache_set entityId (image_entity entityId imageUrl analysis (detected_now w)) ;;
               insertEntity (image_row entityId imageUrl analysis) (io_entity w) ;;
               insertTrustHistory (VStr entityId) (js_nullish (a "trust_score") (num 0))
                 (js_nullish (a "trust_score_delta") (num 0)) (io_trust w) ;;
               insertAuditLog (VStr "ENTITY_DETECTED") (VStr entityId)
                 (VStr IMAGE_MONITOR_SESSION_ID)
                 (VObj (object [("type", VStr "IMAGE"); ("risk_level", a "risk_level");
                                ("fake_probability", a "fake_probability")]))
                 (io_audit w) ;;
               log "[IPC] Sending image-monitor:analysis to renderer" ;;
               modify (add_sent "image-monitor:analysis"
                         (image_message entityId imageUrl analysis (analyzed_now w)))
       end)
      (fun err =>
         log ("[BACKEND] Fetch error: " +:+ err) ;;
         analysis_failed "IMAGE" imageUrl err (io_audit w)).

(** The fields the reconciliation adds after [...textPayload, ...analysis]. *)
Definition enrichment_fields (gemini : option Gemini.result) : gmap string value :=
  match gemini with
  | Some g =>
      object [("ai_generated_probability", VNum (Gemini.ai_generated_probability g));
              ("misinformation_risk", VStr (Gemini.misinformation_risk g));
              ("credibility_score", VNum (Gemini.credibility_score g));
              ("explanation", VArr (Gemini.forensic_explanation g));
              ("ai_summary", VStr (Gemini.ai_summary g));
              ("topic", Gemini.topic g);
              ("key_claims", VArr (Gemini.key_claims g))]
  | None =>
      object [("ai_summary", VNull); ("topic", VNull); ("key_claims", VArr [])]
  end.

(** The [entity] object literal of [postTextToBackend]. *)
Definition text_entity (entityId : string) (textPayload : TextPayload.t) (analysis : value)
    (gemini : option Gemini.result) (detected_at : Z) : gmap string value :=
  <["detected_at" := num detected_at]>
    (assign
       (assign
          (assign (object [("entity_id", VStr entityId); ("entity_type", VStr "TEXT")])
                  (TextPayload.to_object textPayload))
          (spread analysis))
       (enrichment_fields gemini)).

(** The argument of the call of [db.insertEntity] in [postTextToBackend]. *)
Definition text_row (entityId : string) (entity : gmap string value) : value :=
  let e k := field entity k in
  VObj (object [("entity_id", VStr entityId);
                ("entity_type", VStr "TEXT");
                ("source_url", e "url");
                ("title", e "content_title");
                ("text", js_nullish (e "text") (VStr ""));
                ("risk_level", e "misinformation_risk");
                ("analysis", VObj (object
                   [("ai_generated_probability", e "ai_generated_probability");
                    ("credibility_score", e "credibility_score");
                    ("trust_score", e "trust_score")]))]).

(** The payload it sends on [text-monitor:analysis]. *)
Definition text_message (entityId : string) (textPayload : TextPayload.t)
    (entity : gmap string value) (analysis : value) (analyzed_at : Z) : value :=
  let e k := field entity k in
  VObj (object [("entity_id", VStr entityId);
                ("entity_type", VStr "TEXT");
                ("content_title", VStr (TextPayload.title textPayload));
                ("url", VStr (TextPayload.url textPayload));
                ("word_count", num (TextPayload.word_count textPayload));
                ("ai_generated_probability", e "ai_generated_probability");
                ("misinformation_risk", e "misinformation_risk");
                ("credibility_score", e "credibility_score");
                ("explanation", js_nullish (e "explanation") (VArr []));
                ("trust_score", opt_prop analysis "trust_score");
                ("trust_score_delta", opt_prop analysis "trust_score_delta");
                ("session_id", opt_prop analysis "session_id");
                ("ai_summary", e "ai_summary");
                ("topic", e "topic");
                ("key_claims", e "key_claims");
                ("analyzed_at", num analyzed_at)]).

Definition postTextToBackend (textPayload : TextPayload.t) (w : world) : M unit :=
  let url := TextPayload.url textPayload in
  let title := TextPayload.title textPayload in
  if negb (isValidHttpUrl url) then log "[BACKEND-TEXT] Invalid URL"
  else
    try_catch
      (log "[BACKEND-TEXT] Posting to the text monitor" ;;
       modify (add_request (TextMonitorRequest
         (<["session_id" := VStr IMAGE_MONITOR_SESSION_ID]> (TextPayload.to_object textPayload)))) ;;
       let* gemini := callGeminiAnalysis title url (TextPayload.text textPayload) (enrichment w) in
       match primary w with
       | NetworkError e => throw e
       | Response ok status body =>
           if negb ok then log ("[BACKEND-TEXT] HTTP error: " +:+ dec status)
           else
             let* analysis := lift (res_json body) in
             let* _ := lift (prop analysis "misinformation_risk") in
             log "[BACKEND-TEXT] Analysis result" ;;
             if destroyed w
             then log "[BACKEND-TEXT] Sender window destroyed, cannot send result"
             else
               let entityId := text_entity_id url title in
               let entity := text_entity entityId textPayload analysis gemini (detected_now w) in
               let e k := field entity k in
               cache_set entityId entity ;;
               insertEntity (text_row entityId entity) (io_entity w) ;;
               insertTrustHistory (VStr entityId) (js_nullish (e "trust_score") (num 0))
                 (js_nullish (e "trust_score_delta") (num 0)) (io_trust w) ;;
               insertAuditLog (VStr "ENTITY_DETECTED") (VStr entityId)
                 (VStr IMAGE_MONITOR_SESSION_ID)
                 (VObj (object [("type", VStr "TEXT");
                                ("risk_level", e "misinformation_risk")]))
                 (io_audit w) ;;
               log "[IPC] Sending text-monitor:analysis to renderer" ;;
               modify (add_sent "text-monitor:analysis"
                         (text_message entityId textPayload entity analysis (analyzed_now w)))
       end)
      (fun err =>
         log ("[BACKEND-TEXT] Fetch error: " +:+ err) ;;
         analysis_failed "TEXT" url err (io_audit w)).

(** [text.split(/\s+/).filter(w => w.length > 0).length] *)
Fixpoint count_words (in_word : bool) (l : list ascii) : Z :=
  match l with
  | [] => 0
  | c :: l' =>
      if is_space c then count_words false l'
      else (if in_word then 0 else 1) + count_words true l'
  end.

(** The [entity] object literal of the [analyze:manual-text] handler. *)
Definition manual_text_entity (entityId resolvedTitle : string) (analysis : value)
    (gemini : option Gemini.result) (detected_at : Z) : gmap string value :=
  assign
    (assign
       (object [("entity_id", VStr entityId); ("entity_type", VStr "TEXT");
                ("content_title", VStr resolvedTitle); ("url", VStr "manual://input");
                ("detected_at", num detected_at)])
       (spread analysis))
    (enrichment_fields gemini).

(** The argument of the call of [db.insertEntity] in the
    [analyze:manual-text] handler: the whole entity is the analysis blob. *)
Definition manual_text_row (entityId resolvedTitle text : string)
    (entity : gmap string value) : value :=
  VObj (object [("entity_id", VStr entityId);
                ("entity_type", VStr "TEXT");
                ("source_url", VStr "manual://input");
                ("title", VStr resolvedTitle);
                ("text", VStr text);
                ("risk_level", field entity "misinformation_risk");
                ("analysis", VObj entity);
                ("detected_at", field entity "detected_at")]).

Definition failure (error : string) : value :=
  VObj (object [("success", VBool false); ("error", VStr error)]).

(** [ipcMain.handle('analyze:manual-text', async (event, { text, title }) => ...)] *)
Definition analyze_manual_text (text title : string) (w : world) : M value :=
  try_catch
    (let words := count_words false (list_ascii_of_string text) in
     let resolvedTitle := if String.eqb title "" then "Manual Text Input" else title in
     modify (add_request (TextMonitorRequest
       (object [("title", VStr resolvedTitle); ("url", VStr "manual://input");
                ("text", VStr text); ("word_count", num words);
                ("timestamp", num (id_now w));
                ("session_id", VStr IMAGE_MONITOR_SESSION_ID)]))) ;;
     let* gemini := callGeminiAnalysis resolvedTitle "manual://input" text (enrichment w) in
     match primary w with
     | NetworkError e => throw e
     | Response ok status body =>
         if negb ok then ret (failure ("HTTP " +:+ dec status))
         else
           let* analysis := lift (res_json body) in
           let entityId := manual_text_entity_id (id_now w) text in
           let entity := manual_text_entity entityId resolvedTitle analysis gemini (detected_now w) in
           let e k := field entity k in
           cache_set entityId entity ;;
           insertEntity (manual_text_row entityId resolvedTitle text entity) (io_entity w) ;;
           insertTrustHistory (VStr entityId) (js_nullish (e "trust_score") (num 0))
             (js_nullish (e "trust_score_delta") (num 0)) (io_trust w) ;;
           insertAuditLog (VStr "MANUAL_ANALYSIS") (VStr entityId) (VStr "")
             (VObj (object [("type", VStr "TEXT"); ("source", VStr "manual_text")]))
             (io_audit w) ;;
           ret (VObj (object [("success", VBool true); ("entity", VObj entity)]))
     end)
    (fun err => log ("[MANUAL-TEXT] " +:+ err) ;; ret (failure err)).

(** *** The entity cache and the database *)

Definition text_value (o : option string) : value :=
  match o with
  | Some s => VStr s
  | None => VNull
  end.

(** The object both the start-up restore and the [entity:details] fallback
    build from a database row; the fields of the analysis blob are spread
    last. *)
Definition restore_entity (row : entity_record) : gmap string value :=
  let c := columns row in
  let isImage := String.eqb (upper (Entities.entity_type c)) "IMAGE" in
  assign
    (object [("entity_id", VStr (record_id row));
             ("entity_type", VStr (Entities.entity_type c));
             ("source_url", text_value (Entities.source_url c));
             ("image_url", if isImage then text_value (Entities.source_url c) else VUndef);
             ("title", text_value (Entities.title c));
             ("content_title", text_value (Entities.title c));
             ("url", text_value (Entities.source_url c));
             ("text", text_value (Entities.extracted_text c));
             ("risk_level", text_value (Entities.risk_level c));
             ("detected_at", text_value (Entities.detected_at c));
             ("_from_db", VBool true)])
    (spread (analysis row)).

(** The body of [records.forEach(row => ...)]; the result tells whether the
    row was put in the cache. *)
Definition restore_row (row : entity_record) : M bool :=
  let* cache := read ENTITY_CACHE in
  if negb (String.eqb (record_id row) "") && bool_decide (cache !! record_id row = None)
  then cache_set (record_id row) (restore_entity row) ;; ret true
  else ret false.

Fixpoint restore_rows (records : list entity_record) (restored : nat) : M nat :=
  match records with
  | [] => ret restored
  | row :: rest =>
      let* fresh := restore_row row in
      restore_rows rest (if fresh then S restored else restored)
  end.

(** The first statements of [app.whenReady().then(...)]: open the database,
    then restore the entity cache from it. *)
Definition whenReady (disk : option tables) : M unit :=
  initDb disk ;;
  try_catch
    (let* q := queryEntities VNull VNull 2000 in
     let* restored := restore_rows q.1 O in
     if (0 <? restored)%nat then log "[DB] Restored entities into memory cache" else ret tt)
    (fun err => log ("[DB] Cache restore error: " +:+ err)).

(** A restart: the memory of the process is gone, the database file is what
    the previous run left. *)
Definition restart (before : process) : completion unit * process :=
  whenReady (_db before) fresh_process.

(** [ipcMain.handle('entity:details', (event, entityId) => ...)] *)
Definition entity_details (entityId : string) (w : io) : M value :=
  if String.eqb entityId "" then ret VNull
  else
    let* cache := read ENTITY_CACHE in
    let entity := default VUndef (cache !! entityId) in
    if truthy entity then
      insertAuditLog (VStr "ENTITY_VIEWED") (VStr entityId) (VStr "")
        (VObj (object [("source", VStr "cache")])) w ;;
      ret entity
    else
      try_catch
        (let* row := getEntity (VStr entityId) in
         match row with
         | Some r =>
             let restored := restore_entity r in
             cache_set entityId restored ;;
             insertAuditLog (VStr "ENTITY_VIEWED") (VStr entityId) (VStr "")
               (VObj (object [("source", VStr "db_restore")])) w ;;
             ret (VObj restored)
         | None => ret VNull
         end)
        (fun err => log ("[ENTITY:DETAILS] DB fallback error: " +:+ err) ;; ret VNull).

(** *** Image interception and de-duplication *)

(** The [details] of a completed request, as [onCompleted] reads them. *)
Record completed : Type := Completed {
  completed_url : string;
  statusCode : Z;
  responseHeaders : gmap string (list string);
  resourceType : string
}.

Definition to_lower_ascii (c : ascii) : ascii :=
  let n := N_of_ascii c in
  if (65 <=? n)%N && (n <=? 90)%N then ascii_of_N (n + 32) else c.

Fixpoint before_semicolon (l : list ascii) : list ascii :=
  match l with
  | [] => []
  | c :: l' => if Ascii.eqb c ";"%char then [] else c :: before_semicolon l'
  end.

(** [ct.split(';')[0].trim().toLowerCase()] *)
Definition mime_of (ct : string) : string :=
  string_of_list_ascii
    (map to_lower_ascii (trim_chars (before_semicolon (list_ascii_of_string ct)))).

Definition image_subtypes : list string := ["jpeg"; "jpg"; "png"; "webp"; "gif"; "avif"; "bmp"].

Fixpoint starts_with (pre l : list ascii) : option (list ascii) :=
  match pre, l with
  | [], _ => Some l
  | p :: pre', c :: l' => if Ascii.eqb p c then starts_with pre' l' else None
  | _ :: _, [] => None
  end.

(** Does [l] begin with one of the extensions, followed by [?] or by the end
    of the text? *)
Definition extension_here (l : list ascii) : bool :=
  existsb (fun ext =>
             match starts_with (list_ascii_of_string ext) l with
             | Some [] => true
             | Some (c :: _) => Ascii.eqb c "?"%char
             | None => false
             end) image_subtypes.

(** [/\.(jpg|jpeg|png|webp|gif|avif|bmp)(\?|$)/i.test(url)], on the
    lower-cased characters of the URL. *)
Fixpoint has_image_extension (l : list ascii) : bool :=
  match l with
  | [] => false
  | c :: l' => (Ascii.eqb c "."%char && extension_here l') || has_image_extension l'
  end.

Definition isImage (details : completed) : bool :=
  let headers := responseHeaders details in
  let ct :=
    match headers !! "content-type" with
    | Some l => nth 0 l ""
    | None => match headers !! "Content-Type" with
              | Some l => nth 0 l ""
              | None => ""
              end
    end in
  bool_decide (mime_of ct ∈ map (fun sub => "image/" +:+ sub) image_subtypes)
  || has_image_extension (map to_lower_ascii (list_ascii_of_string (completed_url details)))
  || String.eqb (resourceType details) "image".

(** The callback of [webviewSession.webRequest.onCompleted];
    [window_alive] is [_mainWindow && !_mainWindow.isDestroyed()]. *)
Definition onCompleted (window_alive : bool) (details : completed) (w : world) : M unit :=
  if negb window_alive then ret tt
  else if (statusCode details <? 200) || (300 <=? statusCode details) then ret tt
  else if negb (isImage details) then ret tt
  else
    let* seen := read _seenImageUrls in
    if bool_decide (completed_url details ∈ seen) then ret tt
    else
      modify (fun s => set_seen ({[completed_url details]} ∪ _seenImageUrls s) s) ;;
      log "[INTERCEPT-IMG] Detected" ;;
      postImageUrlToBackend (completed_url details) w.

(** [ipcMain.on('webview:navigated', ...)] *)
Definition webview_navigated : M unit :=
  modify (set_seen ∅) ;;
  log "[INTERCEPT] Nav - image cache cleared.".

(** [ipcMain.on('image-monitor:url', (event, url) => ...)] *)
Definition image_monitor_url (url : string) (w : world) : M unit :=
  let* seen := read _seenImageUrls in
  if bool_decide (url ∈ seen) then ret tt
  else
    modify (fun s => set_seen ({[url]} ∪ _seenImageUrls s) s) ;;
    postImageUrlToBackend url w.

(** What reaches the main process, with the readings of the outside world
    the handler consumes. *)
Inductive event : Type :=
| WebRequestCompleted (window_alive : bool) (details : completed) (w : world)
| ImageMonitorUrl (url : string) (w : world)
| WebviewNavigated
| TextMonitorArticle (payload : TextPayload.t) (w : world).

Definition handle (e : event) : M unit :=
  match e with
  | WebRequestCompleted alive details w => onCompleted alive details w
  | ImageMonitorUrl url w => image_monitor_url url w
  | WebviewNavigated => webview_navigated
  | TextMonitorArticle payload w => postTextToBackend payload w
  end.

(** The event loop: handlers run one after the other. *)
Fixpoint handle_all (events : list event) : M unit :=
  match events with
  | [] => ret tt
  | e :: rest => handle e ;; handle_all rest
  end.

End MainProcess.

(** ** The analyzer service's trust engine *)

(** Modelled from the spec: the trust engine of the analyzer service
    ([backend/trust/trust_engine.py], not part of the sources at hand).
    "delta = -(probability x 100)", "new_score = clamp(old_score + delta, 0,
    100)", the clamp applied once, after the addition. *)
Definition engine_delta (probability : Q) : Q := - (probability * 100).

Definition engine_score (old_score delta : Q) : Q :=
  let raw := (old_score + delta)%Q in
  if Qle_bool raw 0 then 0%Q else if Qle_bool 100 raw then 100%Q else raw.

(** Modelled from the spec: the answer of the text monitor service for a
    heuristic probability [p] in a session whose score was [old_score]. *)
Definition text_monitor_answer (old_score p : Q) (risk : string) : value :=
  VObj (object [("ai_generated_probability", VNum p);
                ("misinformation_risk", VStr risk);
                ("credibility_score", VNum (1 - p));
                ("explanation", VArr []);
                ("trust_score", VNum (engine_score old_score (engine_delta p)));
                ("trust_score_delta", VNum (engine_delta p))]).

(** ** A test double for the platform, and sample inputs *)

Definition sample_enrichment_text : string :=
  "{ sample enrichment: summary, topic Politics, probability 0.9, risk HIGH, credibility 0.3 }".

Definition sample_enrichment_value : value :=
  VObj (object [("summary", VStr "A short summary.");
                ("topic", VStr "Politics");
                ("key_claims", VArr [VStr "claim one"; VStr "claim two"]);
                ("ai_generated_probability", VNum (9 # 10));
                ("misinformation_risk", VStr "HIGH");
                ("credibility_score", VNum (3 # 10));
                ("forensic_explanation", VArr [VStr "finding one"])]).

(** A platform that recognises the two URL schemes, parses the one sample
    text and reads numbers as they are. *)
#[export] Instance test_platform : Platform := {|
  URL_protocol s :=
    if String.prefix "https://" s then Some "https:"
    else if String.prefix "http://" s then Some "http:"
    else None;
  JSON_parse s :=
    if String.eqb s sample_enrichment_text then Some sample_enrichment_value else None;
  JSON_parse_empty := eq_refl;
  parseFloat v := match v with VNum q => Some q | _ => None end;
  Date_parse _ := None;
  sqlite_text q := dec (Qfloor q);
  env_GEMINI_API_KEY := None;
  randomUUID := "3f0c2a9e-5b1d-4c7a-9e2f-6d8b1a4c7e90"
|}.

Definition sample_io (t : Z) (r : string) : io := Io t r None.

(** A Gemini response whose first candidate carries [text]. *)
Definition gemini_response (text : string) : http_result :=
  Response true 200
    (Some (VObj (object [("candidates",
       VArr [VObj (object [("content",
         VObj (object [("parts", VArr [VObj (object [("text", VStr text)])])]))])])]))).

(** A world in which both services answer at time [t]. *)
Definition sample_world (primary enrichment : http_result) (t : Z) : world :=
  World primary enrichment false t t (t + 1)
    (sample_io (t + 2) "aaaaaaa") (sample_io (t + 3) "bbbbbbb") (sample_io (t + 4) "ccccccc").

Definition sample_payload : TextPayload.t :=
  TextPayload.Make "Budget vote" "https://news.example/budget" "The council voted on the budget." 6
    1700000000000.

(** A text-monitor answer for heuristic probability 0.2 in a session whose
    score was 100. *)
Definition sample_primary_analysis : value :=
  VObj (object [("ai_generated_probability", VNum (2 # 10));
                ("misinformation_risk", VStr "LOW");
                ("credibility_score", VNum (8 # 10));
                ("explanation", VArr [VStr "heuristic finding"]);
                ("trust_score", VNum 80);
                ("trust_score_delta", VNum (-20));
                ("session_id", VStr "3f0c2a9e-5b1d-4c7a-9e2f-6d8b1a4c7e90")]).

Definition ready_process : process := set_db (Some empty_tables) fresh_process.

(** The sample article when the text monitor applies the trust engine to its
    heuristic probability 0.2 in a session whose score was 100, while the
    enrichment finds probability 0.9. *)
Definition engine_world : world :=
  sample_world (Response true 200 (Some (text_monitor_answer 100 (2 # 10) "LOW")))
    (gemini_response sample_enrichment_text) 1700000000123.

(** The sample article when the enrichment request times out. *)
Definition offline_enrichment_world : world :=
  sample_world (Response true 200 (Some sample_primary_analysis))
    (NetworkError "TimeoutError: The operation was aborted due to timeout") 1700000000123.

(** An image, and two worlds in which the image monitor fails on it: with
    HTTP status 500, and with a request that cannot be made. *)
Definition sample_image_url : string := "https://cdn.example/photo.png".

Definition http_error_world : world :=
  sample_world (Response false 500 None) (NetworkError "unused") 1700000000123.

Definition unreachable_world : world :=
  sample_world (NetworkError "TypeError: fetch failed") (NetworkError "unused") 1700000000123.

(** A manual submission while the enrichment is down, and the state it leaves. *)
Definition sample_manual_text : string := "The council voted on the budget.".



(** A store holding one image row, and a reading of the clock for a later lookup. *)
Definition sample_stored_row : Entities.row :=
  Entities.Row "IMAGE" (Some sample_image_url) (Some "") (Some "") (Some "HIGH")
    (JSON_stringify (VObj (object [("fake_probability", VNum (9 # 10));
                                   ("trust_score", num 10);
                                   ("forensic_explanation", VArr [VStr "resampling traces"])])))
    (Some "2023-11-14 22:13:20").

Definition sample_store : process :=
  set_db (Some (Tables {[ "6b1f0c5e8a9b3d4c" := sample_stored_row ]} [] ∅ [])) fresh_process.

Definition viewer : io := sample_io 1700000900000 "ddddddd".

(** The sample image, analysed. *)
Definition sample_image_world : world :=
  sample_world
    (Response true 200
       (Some (VObj (object [("fake_probability", VNum (9 # 10)); ("risk_level", VStr "HIGH");
                            ("trust_score", num 10); ("trust_score_delta", num (-90))]))))
    (NetworkError "unused") 1700000000123.

(** The image is loaded by the page (a completed request with an image
    content type) and also forwarded by the renderer. *)
Definition sample_image_loaded : event :=
  WebRequestCompleted true
    (Completed sample_image_url 200 {[ "content-type" := ["image/png"] ]} "image")
    sample_image_world.

Definition sample_image_forwarded : event := ImageMonitorUrl sample_image_url sample_image_world.

(** Two manual submissions of the same text, a minute apart. *)
Definition first_submission_world : world :=
  sample_world (Response true 200 (Some sample_primary_analysis))
    (NetworkError "unused") 1700000000123.

Definition second_submission_world : world :=
  sample_world (Response true 200 (Some sample_primary_analysis))
    (NetworkError "unused") 1700000060456.


(** ** Vocabulary of the properties *)

(** A handler or helper that cannot throw past its caller. *)
Definition never_throws {A : Type} (m : M A) : Prop :=
  forall s, exists a, (m s).1 = Normal a.

(** A relation between the state before and the state after that every run
    of [m] respects. *)
Definition preserves {A : Type} (R : process -> process -> Prop) (m : M A) : Prop :=
  forall s, R s (m s).2.

Definition entities_in (db : option tables) : gmap string Entities.row :=
  match db with
  | Some tb => entities tb
  | None => ∅
  end.

Definition trust_in (db : option tables) : list TrustHistory.row :=
  match db with
  | Some tb => trust_history tb
  | None => []
  end.

Definition entities_of (s : process) : gmap string Entities.row := entities_in (_db s).

Definition audit_of (s : process) : gmap string AuditLog.row :=
  match _db s with
  | Some tb => audit_log tb
  | None => ∅
  end.

Definition trust_of (s : process) : list TrustHistory.row := trust_in (_db s).

Definition legal_of (s : process) : list LegalSessions.row :=
  match _db s with
  | Some tb => legal_sessions tb
  | None => []
  end.

(** Everything of the process that is not the database or the console. *)
Definition same_memory (s s' : process) : Prop :=
  ENTITY_CACHE s' = ENTITY_CACHE s /\ _seenImageUrls s' = _seenImageUrls s /\
  sent s' = sent s /\ requests s' = requests s.

(** The database handle is neither opened nor closed. *)
Definition same_handle (s s' : process) : Prop :=
  is_Some (_db s') <-> is_Some (_db s).

(** The value an object literal gives to a key: that of the last field
    written with this name. *)
Fixpoint binding (k : string) (fields : list (string * value)) (acc : option value) :
    option value :=
  match fields with
  | [] => acc
  | kv :: rest => binding k rest (if String.eqb kv.1 k then Some kv.2 else acc)
  end.

(** The table [entities] changes at most in the row of [id], and does not
    lose that row. *)
Definition entities_keyed (id : string) (s s' : process) : Prop :=
  (forall k, k <> id -> entities_of s' !! k = entities_of s !! k) /\
  (is_Some (entities_of s !! id) -> is_Some (entities_of s' !! id)).

(** [Q] holds of the completion and the final state of [m] run from [s]. *)
Definition wp {A : Type} (m : M A) (Q : completion A -> process -> Prop) (s : process) : Prop :=
  Q (m s).1 (m s).2.

(** Everything of the process but the console and the list of requests. *)
Definition same_store (s s' : process) : Prop :=
  _db s' = _db s /\ ENTITY_CACHE s' = ENTITY_CACHE s /\
  _seenImageUrls s' = _seenImageUrls s /\ sent s' = sent s.

(** What a write helper leaves in [_db]: the statement it prepared takes
    effect when there is a database, the storage engine does not fail and no
    parameter or constraint makes it throw. *)
Definition statement_effect (w : io) (stmt : completion (tables -> completion tables))
    (db : option tables) : option tables :=
  match db, storage_fault w, stmt with
  | Some tb, None, Normal f =>
      match f tb with
      | Normal tb' => Some tb'
      | Throw _ => Some tb
      end
  | _, _, _ => db
  end.

Definition insertEntity_statement `{Platform} (p : value) (w : io) :
    completion (tables -> completion tables) :=
  match insertEntity_params p w with
  | Normal params => Normal (stmt_insertEntity params.1 params.2)
  | Throw e => Throw e
  end.

Definition insertTrustHistory_statement `{Platform} (entityId trustScore delta : value) (w : io) :
    completion (tables -> completion tables) :=
  match bind_text entityId, sqlite_bind trustScore,
        sqlite_bind (default_param (num 0) delta) with
  | Normal id, Normal t, Normal d => Normal (stmt_insertTrust id t d (Some (_nowIso w)))
  | Throw e, _, _ | _, Throw e, _ | _, _, Throw e => Throw e
  end.

(** Without a database, or when the storage engine fails the statement, the
    tables stay as they were. *)
Definition untouched_on_failure (w : io) (s s' : process) : Prop :=
  _db s = None \/ is_Some (storage_fault w) -> _db s' = _db s.

(** Every audit row is still there, with the content it had. *)
Definition audit_kept (s s' : process) : Prop :=
  forall id r, audit_of s !! id = Some r -> audit_of s' !! id = Some r.

(** The calls of the public write interface of [db.js]. *)
Inductive db_write : Type :=
| InsertEntity (p : value)
| InsertTrustHistory (entityId trustScore delta : value)
| InsertAuditLog (eventType entityId sessionId metadata : value)
| InsertLegalSession (entityId userQuery aiResponse sessionType : value).

Definition perform `{Platform} (c : db_write) (w : io) : M unit :=
  match c with
  | InsertEntity p => insertEntity p w
  | InsertTrustHistory e t d => insertTrustHistory e t d w
  | InsertAuditLog t e s m => insertAuditLog t e s m w
  | InsertLegalSession e q a t => insertLegalSession e q a t w
  end.

(** A sequence of calls of the write interface, each with what it reads from
    the outside world. *)
Fixpoint perform_all `{Platform} (calls : list (db_write * io)) : M unit :=
  match calls with
  | [] => ret tt
  | (c, w) :: rest => perform c w ;; perform_all rest
  end.

(** A capture, as the design document has it: an image by its URL, an
    article by its payload. *)
Inductive capture : Type :=
| ImageCapture (url : string)
| TextCapture (payload : TextPayload.t).





(** The identifier the pipeline derives for a capture. *)
Definition entity_id (c : capture) : string :=
  match c with
  | ImageCapture url => image_entity_id url
  | TextCapture p => text_entity_id (TextPayload.url p) (TextPayload.title p)
  end.



(** What [callGeminiAnalysis] resolves to for an outcome of its request. *)
Definition enrichment_result `{Platform} (r : http_result) : option Gemini.result :=
  match r with
  | Response true _ (Some data) =>
      match gemini_normalise data with
      | Normal g => Some g
      | Throw _ => None
      end
  | _ => None
  end.




Definition enrichment_only_keys : list string := ["ai_summary"; "topic"; "key_claims"].

(** [{ entity_id, entity_type: 'TEXT', ...textPayload, ...analysis }]: the
    entity before the enrichment is merged in. *)
Definition primary_entity (entityId : string) (textPayload : TextPayload.t) (analysis : value) :
    gmap string value :=
  assign
    (assign (object [("entity_id", VStr entityId); ("entity_type", VStr "TEXT")])
            (TextPayload.to_object textPayload))
    (spread analysis).



(** *** Sightings of an image URL *)

(** The URL an event makes the main process sight as an image, if any: a
    completed request that passes the filters of the interceptor, or a URL
    the renderer forwards. *)
Definition sighting (e : event) : option string :=
  match e with
  | WebRequestCompleted alive details _ =>
      if alive && negb ((statusCode details <? 200) || (300 <=? statusCode details))
         && isImage details
      then Some (completed_url details) else None
  | ImageMonitorUrl url _ => Some url
  | WebviewNavigated | TextMonitorArticle _ _ => None
  end.

Definition sights (url : string) (e : event) : bool :=
  match sighting e with
  | Some u => String.eqb u url
  | None => false
  end.

Definition is_navigation (e : event) : bool :=
  match e with
  | WebviewNavigated => true
  | _ => false
  end.

(** A navigation epoch: a run of events with no navigation in it. *)
Definition epoch (events : list event) : Prop := forallb (fun e => negb (is_navigation e)) events = true.

Definition is_image_request (url : string) (r : request) : bool :=
  match r with
  | ImageMonitorRequest u => String.eqb u url
  | _ => false
  end.

(** How many times the image analyzer was called for [url]. *)
Definition image_analyzer_calls (url : string) (s : process) : nat :=
  length (filter (fun r => is_image_request url r = true) (requests s)).

(** The cache holds, under the ids of stored rows, the objects restored from
    those rows, and nothing else. *)
Definition restored_from `{Platform} (tb : tables) (s : process) : Prop :=
  _db s = Some tb /\
  forall id v, ENTITY_CACHE s !! id = Some v ->
    exists row, entities tb !! id = Some row /\ v = VObj (restore_entity (read_row (id, row))).

(** A record as [queryEntities] and [getEntity] read it from a stored row. *)
Definition read_from `{Platform} (tb : tables) (r : entity_record) : Prop :=
  exists row, entities tb !! record_id r = Some row /\ r = read_row (record_id r, row).


(** The seen-set is the same, and so is the number of calls of the image
    analyzer for [url]. *)
Definition same_sightings (url : string) (s s' : process) : Prop :=
  _seenImageUrls s' = _seenImageUrls s /\
  image_analyzer_calls url s' = image_analyzer_calls url s.

(** The answer of the text monitor to a manual submission follows its
    contract far enough for the row to be written: the risk label is a text
    and the answer carries no [detected_at] of its own. *)
Definition manual_answer (o : gmap string value) (risk : string) : Prop :=
  o !! "misinformation_risk" = Some (VStr risk) /\ o !! "detected_at" = None.

(** * Further code of [db.js] and of the main process *)

(** ** [db.js]: the other read helpers

    The statements of the read helpers are run on the tables as they are; a
    storage failure while reading is outside the model, as it is for
    [queryEntities] and [getEntity]. *)

(** The order [ORDER BY] puts TEXT values in: NULL first, then texts
    bytewise. *)
Definition sql_text_leb (a b : option string) : bool :=
  match a, b with
  | None, _ => true
  | Some _, None => false
  | Some x, Some y => String.leb x y
  end.

Fixpoint insert_asc {A : Type} (key : A -> option string) (x : A) (l : list A) : list A :=
  match l with
  | [] => [x]
  | y :: l' =>
      if sql_text_leb (key x) (key y) then x :: y :: l' else y :: insert_asc key x l'
  end.

(** [ORDER BY key ASC]; rows with the same key come in some order the engine
    chooses, here the order of the table scan. *)
Definition order_by_asc {A : Type} (key : A -> option string) (l : list A) : list A :=
  fold_right (insert_asc key) [] l.

Fixpoint insert_newest {A : Type} (key : A -> option string) (x : A) (l : list A) : list A :=
  match l with
  | [] => [x]
  | y :: l' =>
      if sql_text_leb (key y) (key x) then x :: y :: l' else y :: insert_newest key x l'
  end.

(** [ORDER BY key DESC] *)
Definition order_by_desc {A : Type} (key : A -> option string) (l : list A) : list A :=
  fold_right (insert_newest key) [] l.

(** The order of the rows of [ORDER BY key ASC] and of [ORDER BY key DESC]. *)
Definition ascending {A : Type} (key : A -> option string) (a b : A) : Prop :=
  sql_text_leb (key a) (key b) = true.

Definition descending {A : Type} (key : A -> option string) (a b : A) : Prop :=
  sql_text_leb (key b) (key a) = true.

(** [LIMIT n]: a negative [n] is no limit. *)
Definition sql_limit {A : Type} (n : Z) (l : list A) : list A :=
  if n <? 0 then l else firstn (Z.to_nat n) l.

(** [column = @param]: never true of NULL. *)
Definition sql_eq (column param : option string) : bool :=
  match column, param with
  | Some a, Some b => String.eqb a b
  | _, _ => false
  end.

(** The rows of a table with an [INTEGER PRIMARY KEY AUTOINCREMENT] and no
    deletion, each with its [id]: 1 for the first row written. *)
Fixpoint numbered_from {A : Type} (i : nat) (l : list A) : list (nat * A) :=
  match l with
  | [] => []
  | x :: l' => (i, x) :: numbered_from (S i) l'
  end.

Definition numbered {A : Type} (l : list A) : list (nat * A) := numbered_from 1 l.

Section DbJsReads.
Context `{Platform}.

(** [queryAuditLog(limit = 200)]; [None] is a [limit] left out. *)
Definition queryAuditLog (limit : option Z) : M (list (string * AuditLog.row)) :=
  let* ok := _ready in
  if negb ok then ret []
  else
    try_catch
      (let* db := read _db in
       match db with
       | None => throw "TypeError: Cannot read properties of undefined (reading 'all')"
       | Some tb =>
           ret (sql_limit (Z.min (default 200 limit) 5000)
                  (order_by_desc (fun kr => AuditLog.timestamp kr.2)
                     (map_to_list (audit_log tb))))
       end)
      (fun err => log ("[DB] queryAuditLog error: " +:+ err) ;; ret []).

(** [queryLegalSessions(limit = 100)] *)
Definition queryLegalSessions (limit : option Z) : M (list (nat * LegalSessions.row)) :=
  let* ok := _ready in
  if negb ok then ret []
  else
    try_catch
      (let* db := read _db in
       match db with
       | None => throw "TypeError: Cannot read properties of undefined (reading 'all')"
       | Some tb =>
           ret (sql_limit (Z.min (default 100 limit) 1000)
                  (order_by_desc (fun ir => LegalSessions.timestamp ir.2)
                     (numbered (legal_sessions tb))))
       end)
      (fun err => log ("[DB] queryLegalSessions error: " +:+ err) ;; ret []).

(** [getLegalChatHistory(entityId)] *)
Definition getLegalChatHistory (entityId : value) : M (list (nat * LegalSessions.row)) :=
  let* ok := _ready in
  if negb ok || negb (truthy entityId) then ret []
  else
    try_catch
      (let* key := lift (bind_text entityId) in
       let* db := read _db in
       match db with
       | None => throw "TypeError: Cannot read properties of undefined (reading 'all')"
       | Some tb =>
           ret (sql_limit 200
                  (order_by_asc (fun ir => LegalSessions.timestamp ir.2)
                     (filter (fun ir => sql_eq (LegalSessions.entity_id ir.2) key = true)
                        (numbered (legal_sessions tb)))))
       end)
      (fun err => log ("[DB] getLegalChatHistory error: " +:+ err) ;; ret []).

(** [queryTrustHistory(entityId)] *)
Definition queryTrustHistory (entityId : value) : M (list (nat * TrustHistory.row)) :=
  let* ok := _ready in
  if negb ok || negb (truthy entityId) then ret []
  else
    try_catch
      (let* key := lift (bind_text entityId) in
       let* db := read _db in
       match db with
       | None => throw "TypeError: Cannot read properties of undefined (reading 'all')"
       | Some tb =>
           ret (order_by_asc (fun ir => TrustHistory.timestamp ir.2)
                  (filter (fun ir => sql_eq (Some (TrustHistory.entity_id ir.2)) key = true)
                     (numbered (trust_history tb))))
       end)
      (fun err => log ("[DB] queryTrustHistory error: " +:+ err) ;; ret []).

End DbJsReads.

(** ** The [db:query] handler *)

(** The fields of [opts] the handler reads; [limit] is a number or left
    out. *)
Record query_opts : Type := QueryOpts {
  opts_type : value;
  opts_risk_level : value;
  opts_limit : option Z;
  opts_entity_id : value
}.

(** What the handler returns to the renderer. *)
Inductive db_answer : Type :=
| EntitiesAnswer (records : list entity_record) (total : nat)
| EntityAnswer (row : option entity_record)
| AuditLogAnswer (rows : list (string * AuditLog.row))
| LegalSessionsAnswer (rows : list (nat * LegalSessions.row))
| TrustHistoryAnswer (rows : list (nat * TrustHistory.row))
| ErrorAnswer (error : string).

Section DbQuery.
Context `{Platform}.

(** [ipcMain.handle('db:query', (event, { action = 'entities', ...opts } = {}) => ...)];
    [None] is an [action] left out. *)
Definition db_query (action : option string) (opts : query_opts) : M db_answer :=
  try_catch
    (let action := default "entities" action in
     if String.eqb action "entities" then
       let* r := queryEntities (opts_type opts) (opts_risk_level opts)
                   (default 500 (opts_limit opts)) in
       ret (EntitiesAnswer r.1 r.2)
     else if String.eqb action "entity" then
       let* r := getEntity (opts_entity_id opts) in ret (EntityAnswer r)
     else if String.eqb action "audit_log" then
       let* r := queryAuditLog (opts_limit opts) in ret (AuditLogAnswer r)
     else if String.eqb action "legal_sessions" then
       let* r := queryLegalSessions (opts_limit opts) in ret (LegalSessionsAnswer r)
     else if String.eqb action "trust_history" then
       let* r := queryTrustHistory (opts_entity_id opts) in ret (TrustHistoryAnswer r)
     else ret (ErrorAnswer ("Unknown db:query action: " +:+ action)))
    (fun err => log ("[DB:QUERY] " +:+ err) ;; ret (ErrorAnswer err)).

End DbQuery.

(** ** Vocabulary of the further properties *)

(** Nothing changed but the console. *)
Definition only_console (s s' : process) : Prop :=
  _db s' = _db s /\ same_memory s s'.

(** The answer of [db:query] when there is nothing to read. *)
Definition empty_answer (a : db_answer) : Prop :=
  match a with
  | EntitiesAnswer records total => records = [] /\ total = O
  | EntityAnswer row => row = None
  | AuditLogAnswer rows => rows = []
  | LegalSessionsAnswer rows => rows = []
  | TrustHistoryAnswer rows => rows = []
  | ErrorAnswer _ => False
  end.

Definition known_action (action : string) : bool :=
  bool_decide (action ∈ ["entities"; "entity"; "audit_log"; "legal_sessions"; "trust_history"]).



(** No column of the row is NULL. *)
Definition complete_row (row : Entities.row) : Prop :=
  is_Some (Entities.source_url row) /\ is_Some (Entities.title row) /\
  is_Some (Entities.extracted_text row) /\ is_Some (Entities.risk_level row) /\
  is_Some (Entities.analysis_json row) /\ is_Some (Entities.detected_at row).

(** Every row of [entities] has one of the four types of the CHECK
    constraint and no NULL column. *)
Definition entities_well_formed (s : process) : Prop :=
  map_Forall (fun _ row => Entities.entity_type row ∈ entity_types /\ complete_row row)
    (entities_of s).

Definition keeps_well_formed (s s' : process) : Prop :=
  entities_well_formed s -> entities_well_formed s'.

(** ** Samples for the further properties *)

(** An image entity as a caller hands it to [insertEntity], its type in
    lower case. *)
Definition sample_entity_params : value :=
  VObj (object [("entity_id", VStr "6b1f0c5e8a9b3d4c");
                ("entity_type", VStr "image");
                ("source_url", VStr sample_image_url);
                ("risk_level", VStr "high");
                ("analysis", VObj (object [("fake_probability", VNum (9 # 10));
                                           ("trust_score", num 10)]))]).


(** The exchanges stored for an entity, each with its [id]. *)
Definition legal_rows_of (id : string) (rows : list LegalSessions.row) :
    list (nat * LegalSessions.row) :=
  filter (fun ir => sql_eq (LegalSessions.entity_id ir.2) (Some id) = true) (numbered rows).

(** The exchange [y] has a timestamp strictly before that of [x]. *)
Definition strictly_earlier (x y : nat * LegalSessions.row) : Prop :=
  sql_text_leb (LegalSessions.timestamp x.2) (LegalSessions.timestamp y.2) = false.

#[export] Instance strictly_earlier_dec x y : Decision (strictly_earlier x y) :=
  decide (sql_text_leb (LegalSessions.timestamp x.2) (LegalSessions.timestamp y.2) = false).

(** A store in which an entity already has 200 exchanges, all of one earlier
    second. *)
Definition old_exchange : LegalSessions.row :=
  LegalSessions.Row (Some "6b1f0c5e8a9b3d4c") (Some "What can I do?")
    (Some "This information is for general awareness only.") (Some "LEGAL_CHAT")
    (Some "2023-11-14 22:13:20").

Definition crowded_store : process :=
  set_db (Some (Tables ∅ [] ∅ (replicate 200 old_exchange))) fresh_process.

(** A store with one audit event. *)
Definition audited_store : process :=
  set_db (Some (Tables ∅ [] {[ "lox2k7ab-aaaaaaa" :=
            AuditLog.Row "ENTITY_VIEWED" (Some "6b1f0c5e8a9b3d4c") (Some "")
              (Some "2023-11-14 22:13:20") None ]} [])) fresh_process.

(** A platform on which every text but the empty one parses to an analysis
    with credibility 0. *)
Definition zero_credibility_platform : Platform := {|
  URL_protocol s := if String.prefix "https://" s then Some "https:" else None;
  JSON_parse s :=
    if String.eqb s "" then None
    else Some (VObj (object [("summary", VStr "No source is cited.");
                             ("credibility_score", VNum 0)]));
  JSON_parse_empty := eq_refl;
  parseFloat v := match v with VNum q => Some q | _ => None end;
  Date_parse _ := None;
  sqlite_text q := dec (Qfloor q);
  env_GEMINI_API_KEY := None;
  randomUUID := "3f0c2a9e-5b1d-4c7a-9e2f-6d8b1a4c7e90"
|}.

(** The body of a Gemini answer whose first candidate carries [text]. *)
Definition gemini_answer (text : string) : value :=
  VObj (object [("candidates",
    VArr [VObj (object [("content",
      VObj (object [("parts", VArr [VObj (object [("text", VStr text)])])]))])])]).

(** No entity was cached, stored or delivered, and no trust point written. *)
Definition nothing_kept (s s' : process) : Prop :=
  ENTITY_CACHE s' = ENTITY_CACHE s /\ sent s' = sent s /\
  entities_of s' = entities_of s /\ trust_of s' = trust_of s.

(** The exception the primary analyzer's answer raises in a capture
    pipeline, if any: the rejection of the request, the [SyntaxError] of
    [res.json()], or the [TypeError] of reading [field] of a null analysis. *)
Definition primary_error (r : http_result) (field : string) : option string :=
  match r with
  | NetworkError e => Some e
  | Response false _ _ => None
  | Response true _ body =>
      match res_json body with
      | Throw e => Some e
      | Normal analysis =>
          match prop analysis field with
          | Throw e => Some e
          | Normal _ => None
          end
      end
  end.

(** The audit row of a failed analysis. *)
Definition analysis_failed_row `{Platform} (kind url err : string) (w : io) : AuditLog.row :=
  AuditLog.Row "ANALYSIS_FAILED" (Some "") (Some IMAGE_MONITOR_SESSION_ID) (Some (_nowIso w))
    (JSON_stringify (VObj (object [("type", VStr kind); ("url", VStr url);
                                   ("error", VStr (substring 0 120 err))]))).

(** The sample article and the sample image when the window that asked is
    gone by the time the analyzers have answered. *)
Definition closed_window_world : world :=
  World (Response true 200 (Some sample_primary_analysis))
    (gemini_response sample_enrichment_text) true
    1700000000123 1700000000123 1700000000124
    (sample_io 1700000000125 "aaaaaaa") (sample_io 1700000000126 "bbbbbbb")
    (sample_io 1700000000127 "ccccccc").

(** The text monitor answers 200 with the JSON text [null]. *)
Definition null_answer_world : world :=
  sample_world (Response true 200 (Some VNull)) (NetworkError "unused") 1700000000123.

(** What a capture pipeline leaves when its body threw [e]: it returns
    normally, keeps nothing, and the audit log gains the row of the
    failure. *)
Definition handled `{Platform} (kind url e : string) (w : world) (s : process)
    (c : completion unit) (s' : process) : Prop :=
  c = Normal tt /\ nothing_kept s s' /\
  (is_Some (_db s) -> storage_fault (io_audit w) = None ->
   audit_of s !! _uuid (io_audit w) = None ->
   audit_of s' = <[_uuid (io_audit w) := analysis_failed_row kind url e (io_audit w)]>
                   (audit_of s)).

(** The audit row of a lookup of [id] that found the entity in [source]. *)
Definition entity_viewed_row `{Platform} (id source : string) (w : io) : AuditLog.row :=
  AuditLog.Row "ENTITY_VIEWED" (Some id) (Some "") (Some (_nowIso w))
    (JSON_stringify (VObj (object [("source", VStr source)]))).

(** Where [entity:details] finds the entity of [id]. *)
Definition found_in (id : string) (s : process) : string :=
  if truthy (default VUndef (ENTITY_CACHE s !! id)) then "cache" else "db_restore".

Definition second_viewer : io := sample_io 1700000900500 "eeeeeee".

(** The keys of the object [restore_entity] builds before it spreads the
    analysis blob. *)
Definition restored_columns : list string :=
  ["entity_id"; "entity_type"; "source_url"; "image_url"; "title"; "content_title"; "url";
   "text"; "risk_level"; "detected_at"; "_from_db"].

(** The keys of the analysis blob [postTextToBackend] persists. *)
Definition text_blob_keys : list string :=
  ["ai_generated_probability"; "credibility_score"; "trust_score"].


(** ** The advisory chat *)

Module ChatMessage.
(** [{ role, content }] *)
Record t : Type := Make {
  role : string;
  content : string
}.
End ChatMessage.

Record chat_model : Type := ChatModel {
  model_id : string;
  noSystem : bool
}.

Definition FREE_MODELS : list chat_model :=
  [ChatModel "liquid/lfm-2.5-1.2b-instruct:free" false;
   ChatModel "google/gemma-3-4b-it:free" true;
   ChatModel "google/gemma-3-12b-it:free" true;
   ChatModel "meta-llama/llama-3.2-3b-instruct:free" false;
   ChatModel "meta-llama/llama-3.3-70b-instruct:free" false].

(** The body of a request to OpenRouter, without the constants
    [temperature: 0.3] and [max_tokens: 2048]. *)
Record chat_request : Type := ChatRequest {
  request_model : string;
  request_messages : list ChatMessage.t
}.

(** What [fetch(OPENROUTER_URL, ...)] and [res.json()] give for a request:
    the rejection of the request, or [res.ok], [res.status],
    [res.statusText] and the parsed body ([None] when it is not JSON). *)
Inductive chat_outcome : Type :=
| ChatRejected (message : string)
| ChatAnswered (ok : bool) (status : Z) (statusText : string) (json : option value).

Definition nl : string := String newline EmptyString.


(** [l.join(sep)] *)
Fixpoint join (sep : string) (l : list string) : string :=
  match l with
  | [] => ""
  | x :: l' =>
      match l' with
      | [] => x
      | _ :: _ => x +:+ sep +:+ join sep l'
      end
  end.

(** [s.trim()] *)
Definition trim (s : string) : string :=
  string_of_list_ascii (trim_chars (list_ascii_of_string s)).

Definition is_system (m : ChatMessage.t) : bool := String.eqb (ChatMessage.role m) "system".

(** The messages for a model that does not accept the system role: the
    system contents are merged into the first message when it is a user
    message, and sent as a user message of their own otherwise. *)
Definition without_system (messages : list ChatMessage.t) : list ChatMessage.t :=
  let sys := join (nl +:+ nl) (map ChatMessage.content (List.filter is_system messages)) in
  let rest := List.filter (fun m => negb (is_system m)) messages in
  match rest with
  | first :: more =>
      if negb (String.eqb sys "") && String.eqb (ChatMessage.role first) "user"
      then ChatMessage.Make "user"
             ("[Instructions: " +:+ sys +:+ "]" +:+ nl +:+ nl +:+ ChatMessage.content first)
           :: more
      else if negb (String.eqb sys "") then ChatMessage.Make "user" sys :: rest
      else rest
  | [] => if negb (String.eqb sys "") then [ChatMessage.Make "user" sys] else []
  end.

Definition request_for (model : chat_model) (messages : list ChatMessage.t) : chat_request :=
  ChatRequest (model_id model) (if noSystem model then without_system messages else messages).

(** [msg.substring(0, n)] *)
Definition js_substring (n : nat) (v : value) : completion string :=
  match v with
  | VStr s => Normal (substring 0 n s)
  | VUndef | VNull => Throw "TypeError: Cannot read properties of undefined"
  | _ => Throw "TypeError: msg.substring is not a function"
  end.

(** [content?.trim() || ''] *)
Definition opt_trim (v : value) : completion string :=
  match v with
  | VUndef | VNull => Normal ""
  | VStr s => Normal (trim s)
  | _ => Throw "TypeError: trim is not a function"
  end.

(** The body of the [try] of one round of [callOpenRouterAI] once the
    outcome of the request is known: the reply ([inl]), the error that makes
    the loop [continue] ([inr]), or the exception its [catch] takes. *)
Definition chat_reply (model : chat_model) (r : chat_outcome) : completion (string + string) :=
  match r with
  | ChatRejected e => Throw e
  | ChatAnswered ok status statusText body =>
      match res_json body with
      | Throw e => Throw e
      | Normal data =>
          match (if negb ok then Normal true
                 else match prop data "error" with
                      | Normal e => Normal (truthy e)
                      | Throw e => Throw e
                      end) with
          | Throw e => Throw e
          | Normal true =>
              let msg := js_or (opt_prop (opt_prop data "error") "message") (VStr statusText) in
              match js_substring 80 msg with
              | Normal short => Normal (inr (model_id model +:+ ": " +:+ short))
              | Throw e => Throw e
              end
          | Normal false =>
              match prop data "choices" with
              | Throw e => Throw e
              | Normal choices =>
                  match opt_trim (opt_prop (opt_prop (opt_index choices 0) "message") "content") with
                  | Throw e => Throw e
                  | Normal text =>
                      if String.eqb text ""
                      then Normal (inr (model_id model +:+ ": empty response"))
                      else Normal (inl text)
                  end
              end
          end
      end
  end.

Section Chat.
Context `{Platform}.

(** One round of the loop of [callOpenRouterAI]; the console lines keep
    their prefix and the id of the model. *)
Definition attempt (model : chat_model) (r : chat_outcome) : M (string + string) :=
  try_catch
    (log ("[AI] Trying model: " +:+ model_id model) ;;
     let* reply := lift (chat_reply model r) in
     match reply with
     | inl text => log ("[AI] Success with model: " +:+ model_id model) ;; ret reply
     | inr _ => log ("[AI] " +:+ model_id model +:+ " failed - trying next model") ;; ret reply
     end)
    (fun err =>
       log ("[AI] " +:+ model_id model +:+ " threw: " +:+ err +:+ " - trying next model") ;;
       ret (inr err)).

(** [for (const model of models) { ... }  throw lastError || new Error(...)] *)
Fixpoint try_models (models : list chat_model) (messages : list ChatMessage.t)
    (answer : chat_request -> chat_outcome) (lastError : option string) : M string :=
  match models with
  | [] => throw (default "All free models exhausted." lastError)
  | model :: rest =>
      let* reply := attempt model (answer (request_for model messages)) in
      match reply with
      | inl text => ret text
      | inr err => try_models rest messages answer (Some err)
      end
  end.

(** [process.env.OPENROUTER_API_KEY || process.env.DEEPSEEK_API_KEY ||
    '<the key committed with the source>']; the committed literal is
    abbreviated, what matters is that it is not empty. *)
Definition OPENROUTER_API_KEY (env_OPENROUTER_API_KEY env_DEEPSEEK_API_KEY : option string) :
    string :=
  let set o := match o with Some k => negb (String.eqb k "") | None => false end in
  if set env_OPENROUTER_API_KEY then default "" env_OPENROUTER_API_KEY
  else if set env_DEEPSEEK_API_KEY then default "" env_DEEPSEEK_API_KEY
  else "sk-or-v1-".

(** What a chat handler reads from the outside world. *)
Record chat_world : Type := ChatWorld {
  env_OPENROUTER_API_KEY : option string;
  env_DEEPSEEK_API_KEY : option string;
  (** the outcome of the request with a given body *)
  chat_answer : chat_request -> chat_outcome;
  (** [new Date()] for the timestamp of the answer *)
  chat_now : Z;
  (** one reading per database write, in source order *)
  io_legal : io;
  io_chat_audit : io
}.

(** [callOpenRouterAI(messages)] *)
Definition callOpenRouterAI (messages : list ChatMessage.t) (w : chat_world) : M string :=
  if String.eqb (OPENROUTER_API_KEY (env_OPENROUTER_API_KEY w) (env_DEEPSEEK_API_KEY w)) ""
  then throw "No OpenRouter API key configured."
  else try_models FREE_MODELS messages (chat_answer w) None.





End Chat.

(** What a round of the loop leaves: the reply, or the error it keeps in
    [lastError]. *)
Definition chat_result (model : chat_model) (r : chat_outcome) : string + string :=
  match chat_reply model r with
  | Normal reply => reply
  | Throw e => inr e
  end.

(** The round of [model] for [messages] in the world [w]. *)
Definition round (messages : list ChatMessage.t) (w : chat_world) (model : chat_model) :
    string + string :=
  chat_result model (chat_answer w (request_for model messages)).

Definition round_fails (messages : list ChatMessage.t) (w : chat_world) (model : chat_model) :
    Prop :=
  exists e, round messages w model = inr e.

(** A world in which every model but [good] is rate limited, and [good]
    answers with [text]. *)
Definition rate_limited : chat_outcome :=
  ChatAnswered false 429 "Too Many Requests"
    (Some (VObj (object [("error", VObj (object [("code", num 429);
                                                 ("message", VStr "Rate limit exceeded")]))]))).

Definition chat_completion (text : string) : chat_outcome :=
  ChatAnswered true 200 "OK"
    (Some (VObj (object [("choices",
       VArr [VObj (object [("message",
         VObj (object [("role", VStr "assistant"); ("content", VStr text)]))])])]))).

Definition one_model_world (good text : string) : chat_world :=
  ChatWorld None None
    (fun request => if String.eqb (request_model request) good then chat_completion text
                    else rate_limited)
    1700000950000 (sample_io 1700000950001 "fffffff") (sample_io 1700000950002 "ggggggg").

Definition busy_world : chat_world := one_model_world "" "".






(** ** The evidence report ([buildEvidenceHtml]) *)

(** [s.replace(/c/g, by)] for a character [c] and a replacement without
    [$]. *)
Fixpoint replace_all (c : ascii) (by_ : string) (s : string) : string :=
  match s with
  | EmptyString => EmptyString
  | String x s' =>
      if Ascii.eqb x c then by_ +:+ replace_all c by_ s' else String x (replace_all c by_ s')
  end.

Definition lt_sign : ascii := ascii_of_N 60.
Definition gt_sign : ascii := ascii_of_N 62.
Definition ampersand : ascii := ascii_of_N 38.
Definition double_quote : ascii := ascii_of_N 34.

(** [esc(s)], for an argument that is a string ([Some]) or [null] or
    [undefined] ([None]). *)
Definition esc (s : option string) : string :=
  replace_all double_quote "&quot;"
    (replace_all gt_sign "&gt;"
       (replace_all lt_sign "&lt;"
          (replace_all ampersand "&amp;" (default "" s)))).

(** The entity that stands for a character in escaped text. *)
Definition esc_char (c : ascii) : string :=
  if Ascii.eqb c ampersand then "&amp;"
  else if Ascii.eqb c lt_sign then "&lt;"
  else if Ascii.eqb c gt_sign then "&gt;"
  else if Ascii.eqb c double_quote then "&quot;"
  else String c EmptyString.

Fixpoint esc_each (s : string) : string :=
  match s with
  | EmptyString => EmptyString
  | String c s' => esc_char c +:+ esc_each s'
  end.

(** The characters of a text. *)
Definition occurs (c : ascii) (s : string) : Prop := c ∈ list_ascii_of_string s.

(** ** The history of detections ([history:get]) *)






Section History.
Context `{Platform}.


End History.






(** * Properties *)

(** ** Reasoning about the monad *)

Section Calculus.
Context {A B : Type}.

Lemma never_throws_ret (a : A) : never_throws (ret a).
Proof. intros s. by exists a. Qed.

Lemma never_throws_modify (f : process -> process) : never_throws (modify f).
Proof. intros s. by exists tt. Qed.

Lemma never_throws_read (f : process -> A) : never_throws (read f).
Proof. intros s. by exists (f s). Qed.

Lemma never_throws_bind (m : M A) (k : A -> M B) :
  never_throws m -> (forall a, never_throws (k a)) -> never_throws (and_then m k).
Proof.
  intros Hm Hk s. unfold and_then.
  destruct (Hm s) as [a Ha]. destruct (m s) as [c s']. simpl in Ha. subst c.
  apply Hk.
Qed.

Lemma never_throws_try (body : M A) (handler : string -> M A) :
  (forall e, never_throws (handler e)) -> never_throws (try_catch body handler).
Proof.
  intros Hh s. unfold try_catch.
  destruct (body s) as [[a | e] s']; [by exists a | apply Hh].
Qed.

Context (R : process -> process -> Prop) `{!PreOrder R}.

Lemma preserves_ret (a : A) : preserves R (ret a).
Proof. intros s. reflexivity. Qed.

Lemma preserves_throw (e : string) : preserves R (@throw A e).
Proof. intros s. reflexivity. Qed.

Lemma preserves_lift (c : completion A) : preserves R (lift c).
Proof. intros s. reflexivity. Qed.

Lemma preserves_read (f : process -> A) : preserves R (read f).
Proof. intros s. reflexivity. Qed.


Lemma preserves_bind (m : M A) (k : A -> M B) :
  preserves R m -> (forall a, preserves R (k a)) -> preserves R (and_then m k).
Proof.
  intros Hm Hk s. unfold and_then.
  specialize (Hm s). destruct (m s) as [[a | e] s']; simpl in *; [| done].
  etransitivity; [exact Hm | apply Hk].
Qed.

Lemma preserves_try (body : M A) (handler : string -> M A) :
  preserves R body -> (forall e, preserves R (handler e)) ->
  preserves R (try_catch body handler).
Proof.
  intros Hb Hh s. unfold try_catch.
  specialize (Hb s). destruct (body s) as [[a | e] s']; simpl in *; [done |].
  etransitivity; [exact Hb | apply Hh].
Qed.

End Calculus.

Lemma never_throws_log (line : string) : never_throws (log line).
Proof. apply never_throws_modify. Qed.

(** One step of a frame proof: take the code apart along its structure. *)
Ltac frame_step :=
  first
    [ apply preserves_ret; solve [typeclasses eauto]
    | apply preserves_throw; solve [typeclasses eauto]
    | apply preserves_lift; solve [typeclasses eauto]
    | apply preserves_read; solve [typeclasses eauto]
    | apply preserves_bind; [typeclasses eauto | | intros ?]
    | apply preserves_try; [typeclasses eauto | | intros ?]
    | match goal with
      | |- preserves _ (if ?b then _ else _) => destruct b
      | |- preserves _ (match ?x with _ => _ end) => destruct x
      | |- preserves _ (let (_, _) := ?x in _) => destruct x
      end ].

Ltac throws_step :=
  first
    [ apply never_throws_ret
    | apply never_throws_log
    | apply never_throws_modify
    | apply never_throws_read
    | apply never_throws_try; intros ?
    | apply never_throws_bind; [| intros ?]
    | match goal with
      | |- never_throws (if ?b then _ else _) => destruct b
      | |- never_throws (match ?x with _ => _ end) => destruct x
      end ].

(** ** The write helpers of [db.js] *)

#[export] Instance same_memory_preorder : PreOrder same_memory.
Proof.
  split.
  - by intros s.
  - intros s1 s2 s3 (? & ? & ? & ?) (? & ? & ? & ?). unfold same_memory. by repeat split; etrans.
Qed.

Section DbFacts.
Context `{Platform}.

Lemma ready_never_throws : never_throws _ready.
Proof. unfold _ready. repeat throws_step. Qed.

Lemma insertEntity_never_throws p w : never_throws (insertEntity p w).
Proof. unfold insertEntity. apply never_throws_bind; [apply ready_never_throws |]. intros ok. repeat throws_step. Qed.

Lemma insertTrustHistory_never_throws e t d w : never_throws (insertTrustHistory e t d w).
Proof. unfold insertTrustHistory. apply never_throws_bind; [apply ready_never_throws |]. intros ok. repeat throws_step. Qed.

Lemma insertAuditLog_never_throws t e i m w : never_throws (insertAuditLog t e i m w).
Proof. unfold insertAuditLog. apply never_throws_bind; [apply ready_never_throws |]. intros ok. repeat throws_step. Qed.

Lemma insertLegalSession_never_throws e q a t w : never_throws (insertLegalSession e q a t w).
Proof. unfold insertLegalSession. apply never_throws_bind; [apply ready_never_throws |]. intros ok. repeat throws_step. Qed.

Lemma perform_never_throws c w : never_throws (perform c w).
Proof.
  destruct c; simpl.
  - apply insertEntity_never_throws.
  - apply insertTrustHistory_never_throws.
  - apply insertAuditLog_never_throws.
  - apply insertLegalSession_never_throws.
Qed.

Lemma log_same_memory line : preserves same_memory (log line).
Proof. by intros s. Qed.

Lemma run_same_memory w stmt : preserves same_memory (run w stmt).
Proof.
  intros s. unfold run.
  destruct (_db s); [| done]. destruct (storage_fault w); [done |].
  by destruct (stmt t).
Qed.

Lemma ready_same_memory : preserves same_memory _ready.
Proof. intros s. unfold _ready, and_then, read. simpl. by destruct (_db s). Qed.

Local Ltac memory_frame :=
  repeat first
    [ apply log_same_memory | apply run_same_memory | apply ready_same_memory | frame_step ].

Lemma insertEntity_same_memory p w : preserves same_memory (insertEntity p w).
Proof. unfold insertEntity. memory_frame. Qed.

Lemma insertTrustHistory_same_memory e t d w :
  preserves same_memory (insertTrustHistory e t d w).
Proof. unfold insertTrustHistory. memory_frame. Qed.

Lemma insertAuditLog_same_memory t e i m w : preserves same_memory (insertAuditLog t e i m w).
Proof. unfold insertAuditLog. memory_frame. Qed.

Lemma insertLegalSession_same_memory e q a t w :
  preserves same_memory (insertLegalSession e q a t w).
Proof. unfold insertLegalSession. memory_frame. Qed.

Lemma perform_same_memory c w : preserves same_memory (perform c w).
Proof.
  destruct c; simpl.
  - apply insertEntity_same_memory.
  - apply insertTrustHistory_same_memory.
  - apply insertAuditLog_same_memory.
  - apply insertLegalSession_same_memory.
Qed.

End DbFacts.

#[export] Instance untouched_on_failure_preorder w : PreOrder (untouched_on_failure w).
Proof.
  split.
  - by intros s ?.
  - intros s1 s2 s3 H12 H23 Hc. unfold untouched_on_failure in *.
    rewrite H23, H12; [done | done |]. destruct Hc as [Hn | Hf]; [left | by right].
    by rewrite H12, Hn; [| left].
Qed.

#[export] Instance audit_kept_preorder : PreOrder audit_kept.
Proof.
  split.
  - by intros s id r.
  - intros s1 s2 s3 H12 H23 id r Hr. by apply H23, H12.
Qed.

Section DbFrames.
Context `{Platform}.

Lemma log_untouched w line : preserves (untouched_on_failure w) (log line).
Proof. by intros s ?. Qed.

Lemma run_untouched w stmt : preserves (untouched_on_failure w) (run w stmt).
Proof.
  intros s Hc. unfold run.
  destruct (_db s) as [tb |] eqn:Hdb; [| done].
  destruct Hc as [? | [e He]]; [done |]. by rewrite He.
Qed.

Lemma ready_untouched w : preserves (untouched_on_failure w) _ready.
Proof.
  intros s ?. unfold _ready, and_then, read. simpl.
  by destruct (_db s) eqn:E; simpl; rewrite E.
Qed.

Local Ltac untouched_frame :=
  repeat first
    [ apply log_untouched | apply run_untouched | apply ready_untouched | frame_step ].

Lemma perform_untouched c w : preserves (untouched_on_failure w) (perform c w).
Proof.
  destruct c; simpl.
  - unfold insertEntity. untouched_frame.
  - unfold insertTrustHistory. untouched_frame.
  - unfold insertAuditLog. untouched_frame.
  - unfold insertLegalSession. untouched_frame.
Qed.

(** *** The audit log only grows *)

Lemma log_audit_kept line : preserves audit_kept (log line).
Proof. by intros s id r. Qed.

Lemma ready_audit_kept : preserves audit_kept _ready.
Proof. intros s id r. unfold _ready, and_then, read. simpl. by destruct (_db s). Qed.

Lemma stmt_insertAudit_kept event_id ty e i t m tb tb' id r :
  stmt_insertAudit event_id ty e i t m tb = Normal tb' ->
  audit_log tb !! id = Some r -> audit_log tb' !! id = Some r.
Proof.
  unfold stmt_insertAudit. intros Hs Hr.
  destruct event_id as [k |], ty as [y |]; try by inversion Hs; subst.
  destruct (audit_log tb !! k) eqn:Hk; inversion Hs; subst; [done |]. simpl.
  rewrite lookup_insert_ne; [done |]. intros ->. by rewrite Hk in Hr.
Qed.

Lemma run_audit_kept w stmt :
  (forall tb tb' id r, stmt tb = Normal tb' ->
     audit_log tb !! id = Some r -> audit_log tb' !! id = Some r) ->
  preserves audit_kept (run w stmt).
Proof.
  intros Hs s id r. unfold run, audit_of.
  destruct (_db s) as [tb |] eqn:Hdb; simpl; [| by rewrite Hdb].
  destruct (storage_fault w); simpl; [by rewrite Hdb |].
  destruct (stmt tb) as [tb' |] eqn:E; simpl; [| by rewrite Hdb]. by apply Hs.
Qed.

Lemma stmt_insertEntity_audit id r tb tb' :
  stmt_insertEntity id r tb = Normal tb' -> audit_log tb' = audit_log tb.
Proof.
  unfold stmt_insertEntity, constraint_failed. intros Hs.
  destruct id; [| done]. by case_bool_decide; inversion Hs.
Qed.

Lemma stmt_insertTrust_audit id t d ts tb tb' :
  stmt_insertTrust id t d ts tb = Normal tb' -> audit_log tb' = audit_log tb.
Proof.
  unfold stmt_insertTrust, constraint_failed. intros Hs.
  destruct id; [| done]. by destruct t; inversion Hs.
Qed.

Lemma stmt_insertLegal_audit e q a t ts tb tb' :
  stmt_insertLegal e q a t ts tb = Normal tb' -> audit_log tb' = audit_log tb.
Proof. unfold stmt_insertLegal. intros Hs. by inversion Hs. Qed.

Local Ltac audit_frame :=
  repeat first
    [ apply log_audit_kept | apply ready_audit_kept
    | apply run_audit_kept; intros ? ? ? ? Hs ?;
      first [ by eapply stmt_insertAudit_kept
            | by rewrite (stmt_insertEntity_audit _ _ _ _ Hs)
            | by rewrite (stmt_insertTrust_audit _ _ _ _ _ _ Hs)
            | by rewrite (stmt_insertLegal_audit _ _ _ _ _ _ _ Hs) ]
    | frame_step ].

Lemma insertEntity_audit_kept p w : preserves audit_kept (insertEntity p w).
Proof. unfold insertEntity. audit_frame. Qed.

Lemma insertTrustHistory_audit_kept e t d w : preserves audit_kept (insertTrustHistory e t d w).
Proof. unfold insertTrustHistory. audit_frame. Qed.

Lemma insertAuditLog_audit_kept t e i m w : preserves audit_kept (insertAuditLog t e i m w).
Proof. unfold insertAuditLog. audit_frame. Qed.

Lemma insertLegalSession_audit_kept e q a t w :
  preserves audit_kept (insertLegalSession e q a t w).
Proof. unfold insertLegalSession. audit_frame. Qed.

Lemma perform_audit_kept c w : preserves audit_kept (perform c w).
Proof.
  destruct c; simpl.
  - apply insertEntity_audit_kept.
  - apply insertTrustHistory_audit_kept.
  - apply insertAuditLog_audit_kept.
  - apply insertLegalSession_audit_kept.
Qed.

End DbFrames.

(** C7. Every persistence write (entity upsert, trust-history append,
    audit-event insert, advisory-session append) is fault-isolated: whatever
    the arguments, whether the database is open or not, and whether or not the
    storage engine fails the statement, the helper returns normally; it
    touches nothing of the process but the database and the console, and
    without a database or on a storage fault the tables stay as they were. *)
Theorem write_helpers_fault_isolated `{Platform} (c : db_write) (w : io) (s : process) :
  (perform c w s).1 = Normal tt /\
  same_memory s (perform c w s).2 /\
  untouched_on_failure w s (perform c w s).2.
Proof.
  split; [| split].
  - destruct (perform_never_throws c w s) as [[] Ha]. exact Ha.
  - apply perform_same_memory.
  - apply perform_untouched.
Qed.

Section AuditLog.
Context `{Platform}.

Lemma perform_all_audit_kept calls : preserves audit_kept (perform_all calls).
Proof.
  induction calls as [| [c w] rest IH]; simpl.
  - apply preserves_ret. typeclasses eauto.
  - apply preserves_bind; [typeclasses eauto | apply perform_audit_kept | by intros _].
Qed.

Lemma stmt_insertAudit_duplicate event_id ty e i t m tb :
  is_Some (audit_log tb !! event_id) ->
  stmt_insertAudit (Some event_id) ty e i t m tb = Normal tb.
Proof. intros [r Hr]. unfold stmt_insertAudit. destruct ty; [| done]. by rewrite Hr. Qed.

Lemma insertAuditLog_duplicate t e i m w s :
  is_Some (audit_of s !! _uuid w) -> _db (insertAuditLog t e i m w s).2 = _db s.
Proof.
  intros Hdup. unfold audit_of in Hdup.
  unfold insertAuditLog, _ready, and_then, try_catch, read, lift, log, modify, ret, run.
  destruct (_db s) as [tb |] eqn:Hdb; simpl; [| by rewrite Hdb].
  repeat (case_match; simpl; simplify_eq; rewrite ?Hdb; try done).
  all: try (rewrite stmt_insertAudit_duplicate in *; [| done]; by simplify_eq).
Qed.

End AuditLog.

(** C8. The audit log is immutable.  No sequence of calls of the write
    interface updates or deletes an audit row: every row present before is
    present after with the same content.  The insert is an insert-if-absent
    on the primary key [event_id]: when the event id already exists the
    statement leaves the table as it is, and so does [insertAuditLog]. *)
Theorem audit_log_immutable `{Platform} :
  (forall calls s, audit_kept s (perform_all calls s).2) /\
  (forall event_id ty e i t m tb,
     is_Some (audit_log tb !! event_id) ->
     stmt_insertAudit (Some event_id) ty e i t m tb = Normal tb) /\
  (forall t e i m w s,
     is_Some (audit_of s !! _uuid w) -> _db (insertAuditLog t e i m w s).2 = _db s).
Proof.
  split; [| split].
  - intros calls s. apply perform_all_audit_kept.
  - intros. by apply stmt_insertAudit_duplicate.
  - intros. by apply insertAuditLog_duplicate.
Qed.

(** ** Objects and strings *)

Lemma lookup_object_from fields (o : gmap string value) k :
  fold_left (fun o kv => <[kv.1 := kv.2]> o) fields o !! k = binding k fields (o !! k).
Proof.
  revert o. induction fields as [| [k' v] rest IH]; intros o; simpl; [done |].
  rewrite IH. f_equal. destruct (String.eqb_spec k' k) as [-> | Hne].
  - by rewrite lookup_insert_eq.
  - by rewrite lookup_insert_ne.
Qed.

Lemma lookup_object fields k : object fields !! k = binding k fields None.
Proof. unfold object. by rewrite lookup_object_from, lookup_empty. Qed.


Lemma opt_prop_object fields k :
  opt_prop (VObj (object fields)) k = default VUndef (binding k fields None).
Proof. unfold opt_prop. simpl. by rewrite lookup_object. Qed.

Lemma lookup_assign (o1 o2 : gmap string value) k :
  assign o1 o2 !! k = match o2 !! k with Some v => Some v | None => o1 !! k end.
Proof.
  unfold assign. destruct (o2 !! k) as [v |] eqn:E.
  - by apply lookup_union_Some_l.
  - by rewrite lookup_union_r.
Qed.

Lemma length_string_of_list_ascii l :
  String.length (string_of_list_ascii l) = length l.
Proof. induction l as [| c l IH]; simpl; [done | by rewrite IH]. Qed.

Lemma length_substring_prefix n s :
  (n <= String.length s)%nat -> String.length (substring 0 n s) = n.
Proof.
  revert s. induction n as [| n IH]; intros [| c s] Hn; simpl in *; try done; try lia.
  rewrite IH; [done | lia].
Qed.

Lemma length_sha256_hex s : String.length (SHA256.sha256_hex s) = 64%nat.
Proof.
  unfold SHA256.sha256_hex, SHA256.hex. rewrite length_string_of_list_ascii.
  by rewrite !length_app.
Qed.

Lemma length_entity_digest s : String.length (entity_digest s) = 16%nat.
Proof. unfold entity_digest. apply length_substring_prefix. rewrite length_sha256_hex. lia. Qed.

Lemma entity_digest_truthy s : truthy (VStr (entity_digest s)) = true.
Proof.
  simpl. destruct (String.eqb_spec (entity_digest s) "") as [E |]; [| done].
  pose proof (length_entity_digest s) as Hl. by rewrite E in Hl.
Qed.

(** ** Entity identity and the upsert *)

Create HintDb frame.

#[export] Instance entities_keyed_preorder id : PreOrder (entities_keyed id).
Proof.
  split.
  - by intros s.
  - intros s1 s2 s3 [H12 K12] [H23 K23]. split.
    + intros k Hk. by rewrite H23, H12.
    + intros Hs. by apply K23, K12.
Qed.


Lemma preserves_modify_db {A : Type} (R : process -> process -> Prop) (f : process -> process) :
  (forall s, R s (f s)) -> preserves R (modify f).
Proof. intros Hf s. apply Hf. Qed.

Section Upsert.
Context `{Platform}.

Lemma insertEntity_params_id p w kid r :
  insertEntity_params p w = Normal (kid, r) ->
  bind_text (js_or (opt_prop p "entity_id") (VStr "unknown")) = Normal kid.
Proof.
  unfold insertEntity_params. intros Hp.
  repeat (case_match; simplify_eq; try done).
Qed.

Lemma keyed_same_db id s s' : _db s' = _db s -> entities_keyed id s s'.
Proof. intros E. unfold entities_keyed, entities_of. by rewrite E. Qed.

Lemma run_entities_keyed id w stmt :
  (forall tb tb', stmt tb = Normal tb' ->
     (forall k, k <> id -> entities tb' !! k = entities tb !! k) /\
     (is_Some (entities tb !! id) -> is_Some (entities tb' !! id))) ->
  preserves (entities_keyed id) (run w stmt).
Proof.
  intros Hs s. unfold run.
  destruct (_db s) as [tb |] eqn:Hdb; simpl; [| by apply keyed_same_db].
  destruct (storage_fault w); simpl; [by apply keyed_same_db |].
  destruct (stmt tb) as [tb' |] eqn:E; simpl; [| by apply keyed_same_db].
  unfold entities_keyed, entities_of. rewrite Hdb. simpl. by apply Hs.
Qed.


Lemma stmt_insertTrust_entities id t d ts tb tb' :
  stmt_insertTrust id t d ts tb = Normal tb' -> entities tb' = entities tb.
Proof.
  unfold stmt_insertTrust, constraint_failed. intros Hs.
  destruct id; [| done]. by destruct t; inversion Hs.
Qed.

Lemma stmt_insertAudit_entities id ty e i ts m tb tb' :
  stmt_insertAudit id ty e i ts m tb = Normal tb' -> entities tb' = entities tb.
Proof.
  unfold stmt_insertAudit. intros Hs.
  destruct id, ty; try by inversion Hs. by destruct (audit_log tb !! _); inversion Hs.
Qed.

Lemma stmt_insertLegal_entities e q a t ts tb tb' :
  stmt_insertLegal e q a t ts tb = Normal tb' -> entities tb' = entities tb.
Proof. unfold stmt_insertLegal. intros Hs. by inversion Hs. Qed.

Lemma ready_entities_keyed id : preserves (entities_keyed id) _ready.
Proof.
  intros s. apply keyed_same_db. unfold _ready, and_then, read. simpl.
  by destruct (_db s) eqn:E; simpl; rewrite E.
Qed.

Lemma log_entities_keyed id line : preserves (entities_keyed id) (log line).
Proof. intros s. by apply keyed_same_db. Qed.

Local Ltac keyed_frame :=
  repeat first
    [ apply log_entities_keyed | apply ready_entities_keyed
    | apply run_entities_keyed; intros ? ? Hs;
      first [ by rewrite (stmt_insertTrust_entities _ _ _ _ _ _ Hs)
            | by rewrite (stmt_insertAudit_entities _ _ _ _ _ _ _ _ Hs)
            | by rewrite (stmt_insertLegal_entities _ _ _ _ _ _ _ Hs) ]
    | frame_step ].


Lemma insertTrustHistory_entities_keyed id e t d w :
  preserves (entities_keyed id) (insertTrustHistory e t d w).
Proof. unfold insertTrustHistory. keyed_frame. Qed.

Lemma insertAuditLog_entities_keyed id t e i m w :
  preserves (entities_keyed id) (insertAuditLog t e i m w).
Proof. unfold insertAuditLog. keyed_frame. Qed.

End Upsert.

#[export] Hint Resolve insertTrustHistory_entities_keyed insertAuditLog_entities_keyed
  log_entities_keyed : frame.



Section UpsertPipeline.
Context `{Platform}.






End UpsertPipeline.



(** ** Running the code forward *)

Section Forward.
Context {A B : Type}.

Lemma wp_ret (a : A) Q s : Q (Normal a) s -> wp (ret a) Q s.
Proof. done. Qed.

Lemma wp_throw e (Q : completion A -> process -> Prop) s : Q (Throw e) s -> wp (throw e) Q s.
Proof. done. Qed.

Lemma wp_lift (c : completion A) Q s : Q c s -> wp (lift c) Q s.
Proof. done. Qed.

Lemma wp_read (f : process -> A) Q s : Q (Normal (f s)) s -> wp (read f) Q s.
Proof. done. Qed.

Lemma wp_bind (m : M A) (k : A -> M B) Q s :
  wp m (fun c s' => match c with
                    | Normal a => wp (k a) Q s'
                    | Throw e => Q (Throw e) s'
                    end) s ->
  wp (and_then m k) Q s.
Proof. unfold wp, and_then. by destruct (m s) as [[a | e] s']. Qed.

Lemma wp_try (body : M A) (handler : string -> M A) Q s :
  wp body (fun c s' => match c with
                       | Normal a => Q (Normal a) s'
                       | Throw e => wp (handler e) Q s'
                       end) s ->
  wp (try_catch body handler) Q s.
Proof. unfold wp, try_catch. by destruct (body s) as [[a | e] s']. Qed.

Lemma wp_mono (m : M A) (Q Q' : completion A -> process -> Prop) s :
  wp m Q s -> (forall c s', Q c s' -> Q' c s') -> wp m Q' s.
Proof. unfold wp. auto. Qed.

End Forward.

Lemma wp_modify (f : process -> process) Q s : Q (Normal tt) (f s) -> wp (modify f) Q s.
Proof. done. Qed.

Lemma wp_log line Q s : Q (Normal tt) (add_console line s) -> wp (log line) Q s.
Proof. done. Qed.

(** A helper that never throws and respects [R] can be stepped over. *)
Lemma wp_frame {A : Type} (R : process -> process -> Prop) (m : M A) Q s :
  never_throws m -> preserves R m ->
  (forall a s', R s s' -> Q (Normal a) s') -> wp m Q s.
Proof.
  intros Hn Hp HQ. unfold wp. destruct (Hn s) as [a Ha]. rewrite Ha. apply HQ, Hp.
Qed.

Section HelperEffects.
Context `{Platform}.

Lemma insertEntity_db p w s :
  _db (insertEntity p w s).2 = statement_effect w (insertEntity_statement p w) (_db s).
Proof.
  unfold insertEntity, insertEntity_statement, _ready, and_then, try_catch, read, lift, log,
    modify, ret, run, statement_effect.
  destruct s as [[tb |] c x l o r]; simpl; [| done].
  destruct (insertEntity_params p w) as [[id row] | e]; simpl; [| by destruct (storage_fault w)].
  destruct (storage_fault w); simpl; [done |].
  by destruct (stmt_insertEntity id row tb).
Qed.

Lemma insertTrustHistory_db e t d w s :
  _db (insertTrustHistory e t d w s).2 =
  statement_effect w (insertTrustHistory_statement e t d w) (_db s).
Proof.
  unfold insertTrustHistory, insertTrustHistory_statement, _ready, and_then, try_catch, read,
    lift, log, modify, ret, run, statement_effect.
  destruct s as [[tb |] c x l o r]; simpl; [| done].
  destruct (bind_text e) as [id | ?]; simpl; [| by destruct (storage_fault w)].
  destruct (sqlite_bind t) as [t' | ?]; simpl; [| by destruct (storage_fault w)].
  destruct (sqlite_bind (default_param (num 0) d)) as [d' | ?]; simpl;
    [| by destruct (storage_fault w)].
  destruct (storage_fault w); simpl; [done |].
  by destruct (stmt_insertTrust id t' d' (Some (_nowIso w)) tb).
Qed.

End HelperEffects.

Section Stepping.
Context `{Platform}.

Lemma GEMINI_API_KEY_set : String.eqb GEMINI_API_KEY "" = false.
Proof.
  unfold GEMINI_API_KEY. destruct env_GEMINI_API_KEY as [k |]; [| done].
  by destruct (String.eqb k "") eqn:E.
Qed.

Lemma callGeminiAnalysis_spec t u x r s :
  (callGeminiAnalysis t u x r s).1 = Normal (enrichment_result r) /\
  same_store s (callGeminiAnalysis t u x r s).2 /\
  requests (callGeminiAnalysis t u x r s).2 = (requests s ++ [GeminiRequest t u x])%list.
Proof.
  unfold callGeminiAnalysis. rewrite GEMINI_API_KEY_set.
  unfold try_catch, and_then, log, modify, lift, throw, ret, enrichment_result, res_json.
  destruct r as [e | [] status [data |]]; simpl; try done.
  by destruct (gemini_normalise data).
Qed.

Lemma wp_callGeminiAnalysis t u x r Q s :
  (forall s', same_store s s' -> requests s' = (requests s ++ [GeminiRequest t u x])%list ->
     Q (Normal (enrichment_result r)) s') ->
  wp (callGeminiAnalysis t u x r) Q s.
Proof.
  intros HQ. unfold wp. destruct (callGeminiAnalysis_spec t u x r s) as (-> & Hs & Hr).
  by apply HQ.
Qed.

Lemma wp_insertEntity p w Q s :
  (forall s', same_memory s s' ->
     _db s' = statement_effect w (insertEntity_statement p w) (_db s) -> Q (Normal tt) s') ->
  wp (insertEntity p w) Q s.
Proof.
  intros HQ. unfold wp. destruct (insertEntity_never_throws p w s) as [[] ->].
  apply HQ; [apply insertEntity_same_memory | apply insertEntity_db].
Qed.

Lemma wp_insertTrustHistory e t d w Q s :
  (forall s', same_memory s s' ->
     _db s' = statement_effect w (insertTrustHistory_statement e t d w) (_db s) ->
     Q (Normal tt) s') ->
  wp (insertTrustHistory e t d w) Q s.
Proof.
  intros HQ. unfold wp. destruct (insertTrustHistory_never_throws e t d w s) as [[] ->].
  apply HQ; [apply insertTrustHistory_same_memory | apply insertTrustHistory_db].
Qed.

Lemma insertAuditLog_other_tables t e i m w s :
  entities_of (insertAuditLog t e i m w s).2 = entities_of s /\
  trust_of (insertAuditLog t e i m w s).2 = trust_of s.
Proof.
  unfold insertAuditLog, _ready, and_then, try_catch, read, lift, log, modify, ret, run,
    entities_of, trust_of.
  destruct s as [[tb |] c x l o r]; simpl; [| done].
  repeat (case_match; simpl in *; simplify_eq; try done).
  all: unfold stmt_insertAudit in *; repeat (case_match; simpl in *; simplify_eq; try done).
Qed.

Lemma wp_insertAuditLog t e i m w Q s :
  (forall s', same_memory s s' -> entities_of s' = entities_of s -> trust_of s' = trust_of s ->
     Q (Normal tt) s') ->
  wp (insertAuditLog t e i m w) Q s.
Proof.
  intros HQ. unfold wp. destruct (insertAuditLog_never_throws t e i m w s) as [[] ->].
  destruct (insertAuditLog_other_tables t e i m w s) as [He Ht].
  apply HQ; [apply insertAuditLog_same_memory | done | done].
Qed.

End Stepping.

Section TextPipeline.
Context `{Platform}.

Lemma insertTrustHistory_effect_entities e t d w db :
  entities_in (statement_effect w (insertTrustHistory_statement e t d w) db) = entities_in db.
Proof.
  unfold statement_effect, insertTrustHistory_statement.
  destruct db as [tb |]; [| done]. destruct (storage_fault w); [done |].
  repeat (case_match; simplify_eq; try done).
  simpl. by erewrite stmt_insertTrust_entities.
Qed.


(** The path of [postTextToBackend] on which the primary analyzer answers:
    whatever the enrichment did, the entity is built, cached, written and
    sent. *)
Lemma postTextToBackend_success p w s status analysis :
  isValidHttpUrl (TextPayload.url p) = true ->
  primary w = Response true status (Some analysis) ->
  is_nullish analysis = false ->
  destroyed w = false ->
  let id := text_entity_id (TextPayload.url p) (TextPayload.title p) in
  let entity := text_entity id p analysis (enrichment_result (enrichment w)) (detected_now w) in
  let db1 := statement_effect (io_entity w)
               (insertEntity_statement (text_row id entity) (io_entity w)) (_db s) in
  let db2 := statement_effect (io_trust w)
               (insertTrustHistory_statement (VStr id)
                  (js_nullish (field entity "trust_score") (num 0))
                  (js_nullish (field entity "trust_score_delta") (num 0)) (io_trust w)) db1 in
  wp (postTextToBackend p w)
    (fun c s' =>
       c = Normal tt /\
       ENTITY_CACHE s' = <[id := VObj entity]> (ENTITY_CACHE s) /\
       sent s' = (sent s ++ [("text-monitor:analysis",
                              text_message id p entity analysis (analyzed_now w))])%list /\
       _seenImageUrls s' = _seenImageUrls s /\
       entities_of s' = entities_in db1 /\
       trust_of s' = trust_in db2) s.
Proof.
  intros Hv Hp Ha Hd id entity db1 db2.
  unfold postTextToBackend. rewrite Hv. cbn [negb].
  apply wp_try, wp_bind, wp_log. cbn beta iota.
  apply wp_bind, wp_modify. cbn beta iota.
  apply wp_bind, wp_callGeminiAnalysis. intros s3 Hs3 _. cbn beta iota.
  rewrite Hp. cbn [negb].
  apply wp_bind, wp_lift. cbn [res_json]. cbn beta iota.
  assert (exists v, prop analysis "misinformation_risk" = Normal v) as [v Hprop].
  { destruct analysis; try done; by eexists. }
  rewrite Hprop. apply wp_bind, wp_lift. cbn beta iota.
  apply wp_bind, wp_log. cbn beta iota. rewrite Hd.
  fold id. fold entity.
  apply wp_bind. unfold cache_set. apply wp_modify. cbn beta iota.
  apply wp_bind, wp_insertEntity. intros s5 Hm5 Hdb5. cbn beta iota.
  apply wp_bind, wp_insertTrustHistory. intros s6 Hm6 Hdb6. cbn beta iota.
  apply wp_bind, wp_insertAuditLog. intros s7 Hm7 He7 Ht7. cbn beta iota.
  apply wp_bind, wp_log. cbn beta iota. apply wp_modify.
  destruct Hs3 as (Hdb3 & Hc3 & Hx3 & Ho3).
  destruct Hm5 as (Hc5 & Hx5 & Ho5 & Hr5), Hm6 as (Hc6 & Hx6 & Ho6 & Hr6),
    Hm7 as (Hc7 & Hx7 & Ho7 & Hr7).
  simpl in *.
  split; [done |]. split; [by rewrite Hc7, Hc6, Hc5, Hc3 |].
  split; [by rewrite Ho7, Ho6, Ho5, Ho3 |].
  split; [by rewrite Hx7, Hx6, Hx5, Hx3 |].
  change (entities_of s7 = entities_in db1 /\ trust_of s7 = trust_in db2).
  rewrite He7, Ht7. unfold entities_of, trust_of. rewrite Hdb6, Hdb5, Hdb3.
  by rewrite insertTrustHistory_effect_entities.
Qed.

End TextPipeline.

(** ** Reconciliation *)

Lemma binding_absent k fields acc :
  k ∉ fields.*1 -> binding k fields acc = acc.
Proof.
  revert acc. induction fields as [| [k' v] rest IH]; intros acc Hk; simpl in *; [done |].
  apply not_elem_of_cons in Hk as [Hne Hk]. rewrite IH; [| done].
  by destruct (String.eqb_spec k' k) as [-> |].
Qed.

Lemma binding_default k fields acc :
  binding k fields acc = match binding k fields None with Some v => Some v | None => acc end.
Proof.
  revert acc. induction fields as [| [k' v] rest IH]; intros acc; simpl; [done |].
  rewrite IH. rewrite (IH (if String.eqb k' k then Some v else None)).
  destruct (binding k rest None); [done |]. by destruct (String.eqb k' k).
Qed.

Lemma binding_app k l1 l2 acc :
  binding k (l1 ++ l2) acc = binding k l2 (binding k l1 acc).
Proof. revert acc. induction l1 as [| kv l1 IH]; intros acc; simpl; [done | by rewrite IH]. Qed.

Lemma lookup_text_entity id p analysis gemini t k :
  k <> "detected_at" ->
  text_entity id p analysis gemini t !! k =
  match enrichment_fields gemini !! k with
  | Some v => Some v
  | None => primary_entity id p analysis !! k
  end.
Proof.
  intros Hk. unfold text_entity. rewrite lookup_insert_ne; [| done].
  by rewrite lookup_assign.
Qed.


Lemma enrichment_fields_missing_absent k :
  k ∉ enrichment_only_keys -> enrichment_fields None !! k = None.
Proof. intros Hk. unfold enrichment_fields. rewrite lookup_object. by apply binding_absent. Qed.

Lemma lookup_primary_entity id p analysis k :
  primary_entity id p analysis !! k =
  match spread analysis !! k with
  | Some v => Some v
  | None =>
      binding k [("entity_id", VStr id); ("entity_type", VStr "TEXT");
                 ("title", VStr (TextPayload.title p)); ("url", VStr (TextPayload.url p));
                 ("text", VStr (TextPayload.text p)); ("word_count", num (TextPayload.word_count p));
                 ("timestamp", num (TextPayload.timestamp p))] None
  end.
Proof.
  unfold primary_entity, TextPayload.to_object. rewrite !lookup_assign, !lookup_object.
  destruct (spread analysis !! k); [done |].
  rewrite <- binding_default.
  by change [("entity_id", VStr id); ("entity_type", VStr "TEXT");
             ("title", VStr (TextPayload.title p)); ("url", VStr (TextPayload.url p));
             ("text", VStr (TextPayload.text p)); ("word_count", num (TextPayload.word_count p));
             ("timestamp", num (TextPayload.timestamp p))]
    with ([("entity_id", VStr id); ("entity_type", VStr "TEXT")] ++
          [("title", VStr (TextPayload.title p)); ("url", VStr (TextPayload.url p));
           ("text", VStr (TextPayload.text p)); ("word_count", num (TextPayload.word_count p));
           ("timestamp", num (TextPayload.timestamp p))])%list; rewrite binding_app.
Qed.


(** ** The trust score stamped on a text entity *)

Section TrustStamp.
Context `{Platform}.


Lemma statement_effect_is_Some w st tb : is_Some (statement_effect w st (Some tb)).
Proof. unfold statement_effect. repeat case_match; by eexists. Qed.





End TrustStamp.





(** ** Enrichment failure *)

Section EnrichmentFailure.
Context `{Platform}.

Lemma js_or_text s : js_or (VStr s) (VStr "") = VStr s.
Proof. unfold js_or. simpl. by destruct (String.eqb_spec s "") as [-> |]. Qed.





End EnrichmentFailure.



(** ** Failure of the image analyzer *)

Section ImageFailure.
Context `{Platform}.

Lemma analysis_failed_recorded kind url err w s :
  same_memory s (analysis_failed kind url err w s).2 /\
  entities_of (analysis_failed kind url err w s).2 = entities_of s /\
  (is_Some (_db s) -> storage_fault w = None -> audit_of s !! _uuid w = None ->
   exists row, audit_of (analysis_failed kind url err w s).2 !! _uuid w = Some row /\
               AuditLog.event_type row = "ANALYSIS_FAILED" /\
               AuditLog.timestamp row = Some (_nowIso w)).
Proof.
  unfold analysis_failed. split; [apply insertAuditLog_same_memory |].
  split; [apply insertAuditLog_other_tables |].
  intros [tb Hdb] Hf Hfresh.
  unfold insertAuditLog, _ready, and_then, try_catch, read, lift, log, modify, ret, run, audit_of in *.
  destruct s as [db c x l o r]; simpl in *. subst db. simpl. rewrite Hf. simpl.
  rewrite js_or_text. simpl. rewrite Hfresh. simpl. rewrite lookup_insert_eq. by eexists.
Qed.

End ImageFailure.

(** C5: what the image pipeline does when the image monitor fails.  On a
    status that is not 2xx it logs and returns: nothing is cached, persisted
    or sent, and the audit log is left as it was, so no ANALYSIS_FAILED event
    is recorded.  On an exception of the request nothing is cached, sent or
    stored as an entity either, and the handler records an ANALYSIS_FAILED
    event. *)
Theorem image_analyzer_failure `{Platform} (imageUrl : string) (w : world) (s : process) :
  (forall status body, primary w = Response false status body ->
     (postImageUrlToBackend imageUrl w s).1 = Normal tt /\
     same_store s (postImageUrlToBackend imageUrl w s).2 /\
     audit_of (postImageUrlToBackend imageUrl w s).2 = audit_of s) /\
  (forall e, primary w = NetworkError e -> isValidHttpUrl imageUrl = true ->
     (postImageUrlToBackend imageUrl w s).1 = Normal tt /\
     ENTITY_CACHE (postImageUrlToBackend imageUrl w s).2 = ENTITY_CACHE s /\
     sent (postImageUrlToBackend imageUrl w s).2 = sent s /\
     entities_of (postImageUrlToBackend imageUrl w s).2 = entities_of s /\
     (is_Some (_db s) -> storage_fault (io_audit w) = None ->
      audit_of s !! _uuid (io_audit w) = None ->
      exists row, audit_of (postImageUrlToBackend imageUrl w s).2 !! _uuid (io_audit w) = Some row /\
                  AuditLog.event_type row = "ANALYSIS_FAILED")).
Proof.
  split.
  - intros status body Hp. unfold postImageUrlToBackend. rewrite Hp.
    destruct (isValidHttpUrl imageUrl); simpl; by destruct s.
  - intros e Hp Hv. unfold postImageUrlToBackend. rewrite Hp, Hv. simpl.
    unfold try_catch, and_then, log, modify, throw. simpl.
    set (s1 := add_console _ _).
    destruct (analysis_failed_recorded "IMAGE" imageUrl e (io_audit w) s1) as (Hm & He & Ha).
    pose proof (insertAuditLog_never_throws (VStr "ANALYSIS_FAILED") (VStr "")
                  (VStr IMAGE_MONITOR_SESSION_ID)
                  (VObj (object [("type", VStr "IMAGE"); ("url", VStr imageUrl);
                                 ("error", VStr (substring 0 120 e))])) (io_audit w) s1) as [[] Hn].
    fold (analysis_failed "IMAGE" imageUrl e (io_audit w)) in Hn.
    destruct Hm as (Hc & _ & Hs & _).
    split; [exact Hn |]. split; [by rewrite Hc |]. split; [by rewrite Hs |].
    split; [by rewrite He |].
    intros Hdb Hf Hfresh. destruct (Ha Hdb Hf Hfresh) as (row & Hrow & Hty & _).
    by exists row.
Qed.

(** C5, on the sample image: after HTTP 500 the audit log is empty, while
    after a failed request it holds an ANALYSIS_FAILED event. *)
Lemma http_error_not_audited :
  (postImageUrlToBackend sample_image_url http_error_world ready_process).1 = Normal tt /\
  ENTITY_CACHE (postImageUrlToBackend sample_image_url http_error_world ready_process).2 = ∅ /\
  entities_of (postImageUrlToBackend sample_image_url http_error_world ready_process).2 = ∅ /\
  audit_of (postImageUrlToBackend sample_image_url http_error_world ready_process).2 = ∅ /\
  exists row,
    audit_of (postImageUrlToBackend sample_image_url unreachable_world ready_process).2
      !! _uuid (io_audit unreachable_world) = Some row /\
    AuditLog.event_type row = "ANALYSIS_FAILED".
Proof.
  vm_compute. repeat split. eexists. split; reflexivity.
Qed.

(** ** Restoring the cache from the database *)

(** Induction on values, through the arrays and objects they nest. *)
Lemma value_ind_nested (P : value -> Prop) :
  P VUndef -> P VNull -> (forall b, P (VBool b)) -> (forall q, P (VNum q)) ->
  (forall s, P (VStr s)) ->
  (forall l, Forall P l -> P (VArr l)) ->
  (forall o, map_Forall (fun _ => P) o -> P (VObj o)) ->
  forall v, P v.
Proof.
  intros Hu Hn Hb Hq Hs Ha Ho v.
  remember (value_size v) as n eqn:E. revert v E.
  induction (lt_wf n) as [n _ IH]. intros v ->.
  destruct v as [| | b | q | s | l | o]; auto.
  - apply Ha. simpl in IH. induction l as [| x l IHl]; constructor.
    + apply (IH (value_size x)); [simpl; lia | done].
    + apply IHl. intros m Hm. apply IH. simpl. lia.
  - apply Ho. simpl in IH. revert IH.
    apply (map_fold_weak_ind
             (fun r (m : gmap string value) =>
                (forall y, (y < S r)%nat -> forall v, y = value_size v -> P v) ->
                map_Forall (fun _ => P) m)).
    + intros _. apply map_Forall_empty.
    + intros k x m r Hk IHm IHx. apply map_Forall_insert; [done |]. split.
      * apply (IHx (value_size x)); [lia | done].
      * apply IHm. intros y Hy. apply IHx. lia.
Qed.

Lemma json_safe_obj (o : gmap string value) :
  json_safe (VObj o) = true <-> map_Forall (fun _ x => json_safe x = true) o.
Proof.
  change (json_safe (VObj o)) with (map_fold (fun (_ : string) x acc => json_safe x && acc) true o).
  apply (map_fold_weak_ind
           (fun r (m : gmap string value) =>
              r = true <-> map_Forall (fun _ x => json_safe x = true) m)).
  - split; [intros _; apply map_Forall_empty | done].
  - intros k x m r Hk IH. rewrite map_Forall_insert by done.
    rewrite andb_true_iff. tauto.
Qed.

Lemma json_round_trip (v : value) : json_safe v = true -> JSON_value v = Some v.
Proof.
  induction v as [| | b | q | s | l IH | o IH] using value_ind_nested; try done.
  - simpl. intros Hs. do 2 f_equal.
    induction IH as [| x l Hx _ IHl]; simpl in *; [done |].
    apply andb_true_iff in Hs as [Hsx Hsl]. by rewrite (Hx Hsx), (IHl Hsl).
  - intros Hs. apply json_safe_obj in Hs. simpl. do 2 f_equal.
    apply map_eq. intros k. rewrite lookup_omap.
    destruct (o !! k) as [x |] eqn:E; simpl; [| done].
    apply (IH k x E). by apply (Hs k x).
Qed.

Section Restore.
Context `{Platform}.

Lemma restore_row_spec tb r s :
  read_from tb r -> restored_from tb s ->
  exists b, (restore_row r s).1 = Normal b /\ restored_from tb (restore_row r s).2.
Proof.
  intros (row & Hrow & Hr) [Hdb Hc]. unfold restore_row, and_then, read, cache_set, modify, ret.
  simpl. case_match; simpl.
  - eexists. split; [done |]. split; [by destruct s |].
    intros id v. destruct s as [db c x l o q]; simpl in *.
    destruct (decide (id = record_id r)) as [-> | Hne].
    + rewrite lookup_insert_eq. intros [= <-]. exists row. split; [done |]. by rewrite <- Hr.
    + rewrite lookup_insert_ne by done. apply Hc.
  - eexists. split; [done |]. by split.
Qed.

Lemma restore_rows_spec tb records n s :
  Forall (read_from tb) records -> restored_from tb s ->
  exists m, (restore_rows records n s).1 = Normal m /\
            restored_from tb (restore_rows records n s).2.
Proof.
  intros Hrs. revert n s. induction Hrs as [| r rest Hr _ IH]; intros n s Hs; simpl.
  - by exists n.
  - unfold and_then. destruct (restore_row_spec tb r s Hr Hs) as (b & Hb & Hs').
    destruct (restore_row r s) as [c s']; simpl in *. subst c.
    apply IH, Hs'.
Qed.

Lemma insert_desc_Forall (P : string * Entities.row -> Prop) x l :
  P x -> Forall P l -> Forall P (insert_desc x l).
Proof.
  intros Hx Hl. induction Hl as [| y l Hy Hl IH]; simpl.
  - by constructor.
  - case_match; repeat constructor; done.
Qed.

Lemma order_by_detected_desc_Forall (P : string * Entities.row -> Prop) l :
  Forall P l -> Forall P (order_by_detected_desc l).
Proof.
  unfold order_by_detected_desc. induction 1; simpl; [constructor |].
  by apply insert_desc_Forall.
Qed.

Lemma queried_rows_read_from tb t r n :
  Forall (read_from tb)
    (map read_row (firstn n (order_by_detected_desc (select_entities t r tb)))).
Proof.
  apply Forall_map, Forall_take, order_by_detected_desc_Forall.
  unfold select_entities. apply Forall_forall. intros [id row] Hin.
  apply list_elem_of_filter in Hin as [_ Hin]. apply elem_of_map_to_list in Hin.
  exists row. by split.
Qed.

Lemma restart_restored before tb :
  _db before = Some tb ->
  (restart before).1 = Normal tt /\ restored_from tb (restart before).2.
Proof.
  intros Hdb. unfold restart, whenReady. rewrite Hdb.
  unfold initDb, and_then, try_catch, queryEntities, _ready, read, lift, modify, log, ret.
  simpl.
  set (s0 := add_console _ _).
  assert (restored_from tb s0) as Hs0 by (split; [done | intros id v; simpl; by rewrite lookup_empty]).
  destruct (restore_rows_spec tb _ O s0
              (queried_rows_read_from tb None None (Z.to_nat (1 `max` (2000 `min` 2000)))) Hs0)
    as (m & Hm & Hs).
  destruct (restore_rows _ _ s0) as [c s']. simpl in Hm, Hs. subst c.
  destruct (0 <? m)%nat; simpl; (split; [done |]); [| done].
  destruct Hs as [Hd Hc]. split; [by destruct s' | by destruct s'].
Qed.

Lemma entity_details_restored tb id row w s :
  restored_from tb s -> entities tb !! id = Some row -> id <> "" ->
  (entity_details id w s).1 = Normal (VObj (restore_entity (read_row (id, row)))).
Proof.
  intros [Hdb Hc] Hrow Hid. unfold entity_details.
  apply String.eqb_neq in Hid. rewrite Hid.
  unfold and_then at 1. unfold read at 1. simpl.
  destruct (ENTITY_CACHE s !! id) as [v |] eqn:E; simpl.
  - destruct (Hc id v E) as (row' & Hrow' & ->). simplify_eq. simpl.
    unfold and_then, ret.
    destruct (insertAuditLog_never_throws (VStr "ENTITY_VIEWED") (VStr id) (VStr "")
                (VObj (object [("source", VStr "cache")])) w s) as [[] Hn].
    destruct (insertAuditLog _ _ _ _ w s) as [c s']. simpl in Hn. by subst c.
  - unfold getEntity, _ready, try_catch, and_then, read, lift, ret, cache_set, modify.
    simpl. rewrite Hdb. simpl. rewrite Hid. simpl. rewrite Hdb, Hrow. simpl.
    match goal with |- context [insertAuditLog ?a ?b ?c ?d ?e ?f] =>
      destruct (insertAuditLog_never_throws a b c d e f) as [[] Hn];
      destruct (insertAuditLog a b c d e f) as [c' s'] end.
    simpl in Hn. by subst c'.
Qed.
End Restore.

Section RoundTrip.
Context `{Platform}.

Lemma lookup_restore_entity r k :
  restore_entity r !! k =
  match spread (analysis r) !! k with
  | Some v => Some v
  | None =>
      let c := columns r in
      binding k
        [("entity_id", VStr (record_id r));
         ("entity_type", VStr (Entities.entity_type c));
         ("source_url", text_value (Entities.source_url c));
         ("image_url", if String.eqb (upper (Entities.entity_type c)) "IMAGE"
                       then text_value (Entities.source_url c) else VUndef);
         ("title", text_value (Entities.title c));
         ("content_title", text_value (Entities.title c));
         ("url", text_value (Entities.source_url c));
         ("text", text_value (Entities.extracted_text c));
         ("risk_level", text_value (Entities.risk_level c));
         ("detected_at", text_value (Entities.detected_at c));
         ("_from_db", VBool true)] None
  end.
Proof. unfold restore_entity. by rewrite lookup_assign, lookup_object. Qed.


End RoundTrip.




(** ** De-duplication of image sightings *)

#[export] Instance same_sightings_preorder url : PreOrder (same_sightings url).
Proof.
  split.
  - by intros s.
  - intros s1 s2 s3 [? ?] [? ?]. split; by etrans.
Qed.

Section Dedup.
Context `{Platform} (url : string).

Lemma same_memory_sightings s s' : same_memory s s' -> same_sightings url s s'.
Proof. intros (_ & Hs & _ & Hr). split; [done |]. unfold image_analyzer_calls. by rewrite Hr. Qed.

Lemma preserves_sightings {A : Type} (m : M A) :
  preserves same_memory m -> preserves (same_sightings url) m.
Proof. intros Hm s. apply same_memory_sightings, Hm. Qed.

Lemma log_sightings line : preserves (same_sightings url) (log line).
Proof. by intros s. Qed.

Lemma calls_add_request r s :
  image_analyzer_calls url (add_request r s) =
  (image_analyzer_calls url s + (if is_image_request url r then 1 else 0))%nat.
Proof.
  unfold image_analyzer_calls. destruct s as [db c x l o q]. simpl.
  rewrite filter_app, length_app. f_equal.
  rewrite filter_cons. by destruct (is_image_request url r).
Qed.

Lemma modify_sightings (f : process -> process) :
  (forall s, _seenImageUrls (f s) = _seenImageUrls s) ->
  (forall s, requests (f s) = requests s) ->
  preserves (same_sightings url) (modify f).
Proof.
  intros Hs Hr s. split; [apply Hs |]. unfold modify, image_analyzer_calls. simpl. by rewrite Hr.
Qed.

Lemma add_request_sightings r :
  is_image_request url r = false -> preserves (same_sightings url) (modify (add_request r)).
Proof.
  intros Hr s. split; [by destruct s |]. unfold modify. simpl.
  rewrite calls_add_request, Hr. lia.
Qed.

Ltac sightings_pipeline :=
  repeat first
    [ progress cbv zeta
    | apply log_sightings
    | apply preserves_sightings;
        first [ apply insertEntity_same_memory | apply insertTrustHistory_same_memory
              | apply insertAuditLog_same_memory ]
    | apply add_request_sightings; reflexivity
    | apply modify_sightings; intros []; reflexivity
    | frame_step ].

Lemma callGeminiAnalysis_sightings t u x r :
  preserves (same_sightings url) (callGeminiAnalysis t u x r).
Proof. unfold callGeminiAnalysis. sightings_pipeline. Qed.

Lemma postTextToBackend_sightings p w :
  preserves (same_sightings url) (postTextToBackend p w).
Proof.
  unfold postTextToBackend, analysis_failed, cache_set.
  pose proof callGeminiAnalysis_sightings.
  repeat first [ progress cbv zeta | done | sightings_pipeline ].
Qed.

Lemma postImageUrlToBackend_sightings u w s :
  _seenImageUrls (postImageUrlToBackend u w s).2 = _seenImageUrls s /\
  image_analyzer_calls url (postImageUrlToBackend u w s).2 =
  (image_analyzer_calls url s +
   (if isValidHttpUrl u && String.eqb u url then 1 else 0))%nat.
Proof.
  unfold postImageUrlToBackend. destruct (isValidHttpUrl u); simpl.
  2: { destruct s; split; [done | unfold image_analyzer_calls; simpl; lia]. }
  match goal with |- context [try_catch (log ?a ;; (modify ?f ;; ?rest)) ?h] =>
    change ((try_catch (log a ;; (modify f ;; rest)) h s).2)
      with ((try_catch rest h (f (add_console a s))).2);
    assert (preserves (same_sightings url) (try_catch rest h)) as Hp
  end.
  { unfold analysis_failed, cache_set. sightings_pipeline. }
  match type of Hp with preserves _ ?m =>
    match goal with |- context [m ?s1] => destruct (Hp s1) as [-> ->] end end.
  split; [by destruct s |]. rewrite calls_add_request. simpl. by destruct s.
Qed.

Lemma postImageUrlToBackend_never_throws u w : never_throws (postImageUrlToBackend u w).
Proof.
  unfold postImageUrlToBackend, analysis_failed.
  destruct (negb (isValidHttpUrl u)); [apply never_throws_log |].
  apply never_throws_try. intros e. apply never_throws_bind; [apply never_throws_log |].
  intros _. apply insertAuditLog_never_throws.
Qed.

Lemma postTextToBackend_never_throws p w : never_throws (postTextToBackend p w).
Proof.
  unfold postTextToBackend, analysis_failed. cbv zeta.
  destruct (negb (isValidHttpUrl _)); [apply never_throws_log |].
  apply never_throws_try. intros e. apply never_throws_bind; [apply never_throws_log |].
  intros _. apply insertAuditLog_never_throws.
Qed.

Lemma handle_never_throws e s : (handle e s).1 = Normal tt.
Proof.
  assert (never_throws (handle e)) as Hn.
  { destruct e as [alive details w | u w | | p w]; simpl.
    - unfold onCompleted. repeat throws_step. apply postImageUrlToBackend_never_throws.
    - unfold image_monitor_url. repeat throws_step. apply postImageUrlToBackend_never_throws.
    - unfold webview_navigated. repeat throws_step.
    - apply postTextToBackend_never_throws. }
  destruct (Hn s) as [[] Hs]. exact Hs.
Qed.

Lemma bind_read {A B : Type} (f : process -> A) (k : A -> M B) s :
  and_then (read f) k s = k (f s) s.
Proof. reflexivity. Qed.

Lemma bind_modify {B : Type} (f : process -> process) (k : unit -> M B) s :
  and_then (modify f) k s = k tt (f s).
Proof. reflexivity. Qed.

Lemma bind_log {B : Type} line (k : unit -> M B) s :
  and_then (log line) k s = k tt (add_console line s).
Proof. reflexivity. Qed.

Lemma unsighted s :
  (url ∈ _seenImageUrls s <-> url ∈ _seenImageUrls s \/ false = true) /\
  image_analyzer_calls url s = (image_analyzer_calls url s + 0)%nat.
Proof. split; [| lia]. split; [by left | by intros [|]]. Qed.

Lemma seen_already u s :
  u ∈ _seenImageUrls s ->
  (url ∈ _seenImageUrls s <-> url ∈ _seenImageUrls s \/ (u =? url)%string = true) /\
  image_analyzer_calls url s =
  (image_analyzer_calls url s +
   (if (u =? url)%string && bool_decide (url ∉ _seenImageUrls s) then 1 else 0))%nat.
Proof.
  intros Hu. destruct (String.eqb_spec u url) as [-> | Hne]; simpl.
  - rewrite bool_decide_eq_false_2 by (intros Hn; by apply Hn). split; [tauto | lia].
  - split; [| lia]. split; [by left | by intros [|]].
Qed.

Lemma first_sighting u w s s1 :
  _seenImageUrls s1 = {[u]} ∪ _seenImageUrls s -> requests s1 = requests s ->
  u ∉ _seenImageUrls s -> isValidHttpUrl url = true ->
  (url ∈ _seenImageUrls (postImageUrlToBackend u w s1).2 <->
   url ∈ _seenImageUrls s \/ (u =? url)%string = true) /\
  image_analyzer_calls url (postImageUrlToBackend u w s1).2 =
  (image_analyzer_calls url s +
   (if (u =? url)%string && bool_decide (url ∉ _seenImageUrls s) then 1 else 0))%nat.
Proof.
  intros Hs Hr Hu Hv. destruct (postImageUrlToBackend_sightings u w s1) as [-> ->].
  rewrite Hs. unfold image_analyzer_calls at 1. rewrite Hr. fold (image_analyzer_calls url s).
  destruct (String.eqb_spec u url) as [-> | Hne]; simpl.
  - rewrite Hv, bool_decide_eq_true_2 by done. simpl. split; [| done].
    rewrite elem_of_union, elem_of_singleton. tauto.
  - rewrite andb_false_r. split; [| done].
    rewrite elem_of_union, elem_of_singleton. split; [intros [-> |]; [done | by left] |].
    intros [|]; [by right | done].
Qed.

(** One event that is not a navigation: the URL is in the seen-set
    afterwards when it was before or the event sights it, and the image
    analyzer is called for it when the event sights it and it was not in the
    seen-set. *)
Lemma handle_sighting e s :
  is_navigation e = false -> isValidHttpUrl url = true ->
  (url ∈ _seenImageUrls (handle e s).2 <-> url ∈ _seenImageUrls s \/ sights url e = true) /\
  image_analyzer_calls url (handle e s).2 =
  (image_analyzer_calls url s +
   (if sights url e && bool_decide (url ∉ _seenImageUrls s) then 1 else 0))%nat.
Proof.
  intros Hnav Hv. destruct e as [alive details w | u w | | p w]; simpl in *; [| | done |].
  - unfold onCompleted, sights. simpl.
    destruct alive; simpl; [| apply unsighted].
    destruct ((statusCode details <? 200) || (300 <=? statusCode details)); simpl;
      [apply unsighted |].
    destruct (isImage details); simpl; [| apply unsighted].
    rewrite bind_read. destruct (decide (completed_url details ∈ _seenImageUrls s)) as [Hu | Hu].
    + rewrite (bool_decide_eq_true_2 _ Hu). by apply seen_already.
    + rewrite (bool_decide_eq_false_2 _ Hu), bind_modify, bind_log.
      apply first_sighting; try done; by destruct s.
  - unfold image_monitor_url, sights. simpl.
    rewrite bind_read. destruct (decide (u ∈ _seenImageUrls s)) as [Hu | Hu].
    + rewrite (bool_decide_eq_true_2 _ Hu). by apply seen_already.
    + rewrite (bool_decide_eq_false_2 _ Hu), bind_modify.
      apply first_sighting; try done; by destruct s.
  - unfold sights. simpl. destruct (postTextToBackend_sightings p w s) as [-> ->].
    apply unsighted.
Qed.

Lemma handle_all_app l1 l2 s :
  handle_all (l1 ++ l2) s = handle_all l2 (handle_all l1 s).2.
Proof.
  revert s. induction l1 as [| e l1 IH]; intros s; simpl; [done |].
  unfold and_then. pose proof (handle_never_throws e s) as He.
  destruct (handle e s) as [c s']. simpl in He. subst c. apply IH.
Qed.

Lemma handle_all_never_throws l s : (handle_all l s).1 = Normal tt.
Proof.
  revert s. induction l as [| e l IH]; intros s; simpl; [done |].
  unfold and_then. pose proof (handle_never_throws e s) as He.
  destruct (handle e s) as [c s']. simpl in He. subst c. apply IH.
Qed.

Lemma epoch_sightings events s :
  epoch events -> isValidHttpUrl url = true ->
  (url ∈ _seenImageUrls (handle_all events s).2 <->
   url ∈ _seenImageUrls s \/ existsb (sights url) events = true) /\
  image_analyzer_calls url (handle_all events s).2 =
  (image_analyzer_calls url s +
   (if existsb (sights url) events && bool_decide (url ∉ _seenImageUrls s) then 1 else 0))%nat.
Proof.
  intros He Hv. revert s. unfold epoch in He.
  induction events as [| e events IH]; intros s; simpl in *.
  - apply unsighted.
  - apply andb_true_iff in He as [Hn Hrest]. apply negb_true_iff in Hn.
    unfold and_then. pose proof (handle_never_throws e s) as Ht.
    destruct (handle_sighting e s Hn Hv) as [Hseen Hcalls].
    destruct (handle e s) as [c s']. simpl in *. subst c.
    destruct (IH Hrest s') as [Hseen' Hcalls'].
    split.
    + rewrite orb_true_iff. tauto.
    + rewrite Hcalls', Hcalls. destruct (sights url e); simpl.
      * destruct (decide (url ∈ _seenImageUrls s)) as [Hin | Hout].
        -- rewrite !bool_decide_eq_false_2; [| tauto | tauto ]. rewrite andb_false_r. lia.
        -- rewrite (bool_decide_eq_true_2 _ Hout).
           rewrite bool_decide_eq_false_2 by tauto. rewrite andb_false_r. lia.
      * destruct (existsb (sights url) events); simpl; [| lia].
        assert (bool_decide (url ∉ _seenImageUrls s') = bool_decide (url ∉ _seenImageUrls s))
          as ->; [| lia].
        apply bool_decide_ext. rewrite Hseen. split; [tauto |]. intros Hs [|]; done.
Qed.
End Dedup.

(** C9: within a navigation epoch that starts with the URL unseen, any number
    of sightings of an image URL (at least one) makes exactly one call of the
    image analyzer for it and puts it in the seen-set, and no further event of
    the epoch makes another; a navigation empties the seen-set, and a sighting
    in the next epoch makes a second call.  The URL is an http(s) URL, as the
    analyzer is only called for those. *)
Theorem image_dedup_per_epoch `{Platform} (url : string) (first second : list event)
    (s : process) :
  isValidHttpUrl url = true ->
  epoch first -> epoch second ->
  url ∉ _seenImageUrls s ->
  existsb (sights url) first = true ->
  existsb (sights url) second = true ->
  let s1 := (handle_all first s).2 in
  let s2 := (handle_all (first ++ WebviewNavigated :: second) s).2 in
  image_analyzer_calls url s1 = S (image_analyzer_calls url s) /\
  url ∈ _seenImageUrls s1 /\
  (forall more, epoch more ->
     image_analyzer_calls url (handle_all more s1).2 = image_analyzer_calls url s1) /\
  _seenImageUrls (handle WebviewNavigated s1).2 = ∅ /\
  image_analyzer_calls url s2 = S (S (image_analyzer_calls url s)).
Proof.
  intros Hv He1 He2 Hu Hs1 Hs2 s1 s2.
  destruct (epoch_sightings url first s He1 Hv) as [Hseen Hcalls]. fold s1 in Hseen, Hcalls.
  rewrite Hs1, (bool_decide_eq_true_2 _ Hu) in Hcalls. simpl in Hcalls.
  assert (url ∈ _seenImageUrls s1) as Hin by (apply Hseen; by right).
  split; [lia |]. split; [exact Hin |]. split; [| split].
  - intros more Hm. destruct (epoch_sightings url more s1 Hm Hv) as [_ ->].
    rewrite bool_decide_eq_false_2 by tauto. rewrite andb_false_r. lia.
  - by destruct s1.
  - unfold s2. rewrite handle_all_app. fold s1.
    change (handle_all (WebviewNavigated :: second) s1)
      with (handle_all second (handle WebviewNavigated s1).2).
    destruct (epoch_sightings url second (handle WebviewNavigated s1).2 He2 Hv) as [_ ->].
    rewrite Hs2. rewrite bool_decide_eq_true_2.
    + assert (image_analyzer_calls url (handle WebviewNavigated s1).2 =
              image_analyzer_calls url s1) as -> by (by destruct s1).
      simpl. lia.
    + assert (_seenImageUrls (handle WebviewNavigated s1).2 = ∅) as -> by (by destruct s1).
      apply not_elem_of_empty.
Qed.

Lemma image_dedup_per_epoch_witness :
  image_analyzer_calls sample_image_url
    (handle_all [sample_image_loaded; sample_image_forwarded; sample_image_loaded]
       ready_process).2 = 1%nat /\
  image_analyzer_calls sample_image_url
    (handle_all ([sample_image_loaded; sample_image_forwarded; sample_image_loaded] ++
                 WebviewNavigated :: [sample_image_forwarded]) ready_process).2 = 2%nat.
Proof.
  assert (isValidHttpUrl sample_image_url = true) as Hv by (vm_compute; reflexivity).
  assert (existsb (sights sample_image_url)
            [sample_image_loaded; sample_image_forwarded; sample_image_loaded] = true) as H1
    by (vm_compute; reflexivity).
  assert (existsb (sights sample_image_url) [sample_image_forwarded] = true) as H2
    by (vm_compute; reflexivity).
  destruct (image_dedup_per_epoch sample_image_url
              [sample_image_loaded; sample_image_forwarded; sample_image_loaded]
              [sample_image_forwarded] ready_process Hv eq_refl eq_refl
              (not_elem_of_empty _) H1 H2) as (Hc1 & _ & _ & _ & Hc2).
  split; [exact Hc1 | exact Hc2].
Defined.

(** ** Manual submissions *)

Lemma to_int_not_nil z : Z.to_int z <> Decimal.Pos Decimal.Nil /\ Z.to_int z <> Decimal.Neg Decimal.Nil.
Proof.
  pose proof (to_of (Z.to_int z)) as Hn. rewrite of_to in Hn.
  split; intros E; rewrite E in Hn; discriminate Hn.
Qed.

Lemma dec_inj a b : dec a = dec b -> a = b.
Proof.
  unfold dec. intros E.
  destruct (to_int_not_nil a) as [Ha1 Ha2], (to_int_not_nil b) as [Hb1 Hb2].
  pose proof (NilZero.isi _ Ha1 Ha2) as Ia. pose proof (NilZero.isi _ Hb1 Hb2) as Ib.
  rewrite E, Ib in Ia. injection Ia as Ia.
  rewrite <- (of_to a), <- (of_to b). by rewrite Ia.
Qed.

Lemma length_append' (s t : string) :
  String.length (s +:+ t) = (String.length s + String.length t)%nat.
Proof. induction s as [| c s IH]; simpl; [done | by rewrite IH]. Qed.

Lemma append_inj_l (s1 s2 t : string) : s1 +:+ t = s2 +:+ t -> s1 = s2.
Proof.
  revert s2. induction s1 as [| a s1 IH]; intros [| b s2] E.
  - done.
  - apply (f_equal String.length) in E. rewrite !length_append' in E. simpl in E. lia.
  - apply (f_equal String.length) in E. rewrite !length_append' in E. simpl in E. lia.
  - simpl in E. injection E as -> E. f_equal. by apply IH.
Qed.

Lemma manual_text_canonical_inj t1 t2 text :
  manual_text_canonical t1 text = manual_text_canonical t2 text -> t1 = t2.
Proof.
  unfold manual_text_canonical. intros E.
  apply String.app_inj in E. apply append_inj_l in E. by apply dec_inj.
Qed.

Section Manual.
Context `{Platform}.

Lemma new_Date_num t :
  - JsDate.max_time <= t <= JsDate.max_time ->
  exists iso, iso_seconds (new_Date (num t)) = Normal iso.
Proof.
  intros Ht. unfold new_Date, num.
  assert (Qle_bool (inject_Z (- JsDate.max_time)) (inject_Z t) = true) as ->.
  { apply Qle_bool_iff. rewrite <- Zle_Qle. lia. }
  assert (Qle_bool (inject_Z t) (inject_Z JsDate.max_time) = true) as ->.
  { apply Qle_bool_iff. rewrite <- Zle_Qle. lia. }
  simpl andb. cbv iota.
  assert ((if Qle_bool 0 (inject_Z t) then Qfloor (inject_Z t) else Qceiling (inject_Z t)) = t)
    as ->.
  { destruct (Qle_bool 0 (inject_Z t)); [apply Qfloor_Z | apply Qceiling_Z]. }
  unfold iso_seconds, JsDate.toISOString.
  assert ((- JsDate.max_time <=? t) && (t <=? JsDate.max_time) = true) as ->.
  { apply andb_true_iff. split; apply Z.leb_le; lia. }
  by eexists.
Qed.
End Manual.

Section Manual2.
Context `{Platform}.

Lemma lookup_manual_text_entity id rt analysis gemini t k :
  manual_text_entity id rt analysis gemini t !! k =
  match enrichment_fields gemini !! k with
  | Some v => Some v
  | None =>
      match spread analysis !! k with
      | Some v => Some v
      | None => binding k [("entity_id", VStr id); ("entity_type", VStr "TEXT");
                           ("content_title", VStr rt); ("url", VStr "manual://input");
                           ("detected_at", num t)] None
      end
  end.
Proof. unfold manual_text_entity. by rewrite !lookup_assign, lookup_object. Qed.

Lemma manual_text_row_params id rt text o gemini risk w io :
  manual_answer o risk ->
  - JsDate.max_time <= detected_now w <= JsDate.max_time ->
  let entity := manual_text_entity (entity_digest id) rt (VObj o) gemini (detected_now w) in
  exists row,
    insertEntity_params (manual_text_row (entity_digest id) rt text entity) io
      = Normal (Some (entity_digest id), row) /\
    Entities.entity_type row = "TEXT" /\
    Entities.extracted_text row = Some text.
Proof.
  intros [Hr Hd] Ht entity.
  assert (exists r, field entity "misinformation_risk" = VStr r) as [r Er].
  { unfold field, entity. rewrite lookup_manual_text_entity.
    destruct gemini as [g |].
    - unfold enrichment_fields. rewrite lookup_object. simpl. by eexists.
    - rewrite enrichment_fields_missing_absent;
        [| unfold enrichment_only_keys; rewrite !elem_of_cons, elem_of_nil;
           intros [?|[?|[?|[]]]]; done].
      simpl spread. rewrite Hr. by eexists. }
  assert (field entity "detected_at" = num (detected_now w)) as Ed.
  { unfold field, entity. rewrite lookup_manual_text_entity.
    assert (enrichment_fields gemini !! "detected_at" = None) as ->.
    { destruct gemini; unfold enrichment_fields; by rewrite lookup_object. }
    simpl spread. by rewrite Hd. }
  unfold insertEntity_params, manual_text_row. cbv zeta. rewrite Er, Ed.
  unfold prop. rewrite !opt_prop_object, lookup_object. simpl binding. simpl default.
  destruct (new_Date_num (detected_now w) Ht) as [iso Hiso].
  assert (exists d, (if truthy (num (detected_now w))
                     then iso_seconds (new_Date (num (detected_now w)))
                     else Normal (_nowIso io)) = Normal d) as [d ->].
  { destruct (truthy _); by eexists. }
  assert (exists r', js_or (js_or (VStr r) VUndef) (VStr "LOW") = VStr r') as [r' ->].
  { unfold js_or. simpl. destruct (String.eqb r "") eqn:E; simpl; rewrite ?E; simpl; by eexists. }
  assert (js_or (VStr (entity_digest id)) (VStr "unknown") = VStr (entity_digest id)) as ->.
  { unfold js_or. by rewrite entity_digest_truthy. }
  assert (exists t', js_or (js_or (VStr rt) VUndef) (VStr "") = VStr t') as [t' ->].
  { unfold js_or. simpl. destruct (String.eqb rt "") eqn:E; simpl; rewrite ?E; simpl; by eexists. }
  rewrite js_or_text. simpl. eexists. split; [reflexivity |]. by split.
Qed.

Lemma insertAuditLog_same_handle t e i m w s :
  same_handle s (insertAuditLog t e i m w s).2.
Proof.
  unfold same_handle, insertAuditLog, _ready, and_then, try_catch, read, lift, log, modify, ret, run.
  destruct s as [[tb |] c x l o r]; simpl; [| done].
  repeat (case_match; simpl in *; simplify_eq; try done).
Qed.

Lemma wp_insertAuditLog_handle t e i m w Q s :
  (forall s', same_memory s s' -> same_handle s s' -> entities_of s' = entities_of s ->
     Q (Normal tt) s') ->
  wp (insertAuditLog t e i m w) Q s.
Proof.
  intros HQ. unfold wp. destruct (insertAuditLog_never_throws t e i m w s) as [[] ->].
  apply HQ; [apply insertAuditLog_same_memory | apply insertAuditLog_same_handle |].
  apply insertAuditLog_other_tables.
Qed.

Lemma analyze_manual_text_success text title w s status analysis :
  primary w = Response true status (Some analysis) ->
  let resolvedTitle := if String.eqb title "" then "Manual Text Input" else title in
  let id := manual_text_entity_id (id_now w) text in
  let entity := manual_text_entity id resolvedTitle analysis (enrichment_result (enrichment w))
                  (detected_now w) in
  let db1 := statement_effect (io_entity w)
               (insertEntity_statement (manual_text_row id resolvedTitle text entity)
                  (io_entity w)) (_db s) in
  wp (analyze_manual_text text title w)
    (fun c s' =>
       c = Normal (VObj (object [("success", VBool true); ("entity", VObj entity)])) /\
       ENTITY_CACHE s' = <[id := VObj entity]> (ENTITY_CACHE s) /\
       same_handle s s' /\
       entities_of s' = entities_in db1) s.
Proof.
  intros Hp rt id entity db1.
  unfold analyze_manual_text. cbv zeta. fold rt.
  apply wp_try, wp_bind, wp_modify. cbn beta iota.
  apply wp_bind, wp_callGeminiAnalysis. intros s3 Hs3 _. cbn beta iota.
  rewrite Hp. cbn [negb].
  apply wp_bind, wp_lift. cbn [res_json]. cbn beta iota.
  fold id. fold entity.
  apply wp_bind. unfold cache_set. apply wp_modify. cbn beta iota.
  apply wp_bind, wp_insertEntity. intros s5 Hm5 Hdb5. cbn beta iota.
  apply wp_bind, wp_insertTrustHistory. intros s6 Hm6 Hdb6. cbn beta iota.
  apply wp_bind, wp_insertAuditLog_handle. intros s7 Hm7 Hh7 He7. cbn beta iota.
  apply wp_ret.
  destruct Hs3 as (Hdb3 & Hc3 & Hx3 & Ho3).
  destruct Hm5 as (Hc5 & Hx5 & Ho5 & Hr5), Hm6 as (Hc6 & Hx6 & Ho6 & Hr6),
    Hm7 as (Hc7 & Hx7 & Ho7 & Hr7).
  simpl in *.
  split; [done |]. split; [by rewrite Hc7, Hc6, Hc5, Hc3 |].
  assert (entities_of s7 = entities_in db1) as Hent.
  { rewrite He7. unfold entities_of. rewrite Hdb6, Hdb5, Hdb3.
    by rewrite insertTrustHistory_effect_entities. }
  split; [| exact Hent].
  unfold same_handle in *. rewrite Hh7, Hdb6, Hdb5, Hdb3.
  destruct (_db s) as [tb |]; [| done].
  split; intros _; [by eexists |].
  match goal with |- context [statement_effect (io_entity w) ?st (Some tb)] =>
    destruct (statement_effect_is_Some (io_entity w) st tb) as [tb1 ->] end.
  apply statement_effect_is_Some.
Qed.

Lemma manual_row_stored id rt text o gemini risk w db :
  manual_answer o risk ->
  - JsDate.max_time <= detected_now w <= JsDate.max_time ->
  is_Some db -> storage_fault (io_entity w) = None ->
  let entity := manual_text_entity (entity_digest id) rt (VObj o) gemini (detected_now w) in
  exists row,
    entities_in (statement_effect (io_entity w)
                   (insertEntity_statement (manual_text_row (entity_digest id) rt text entity)
                      (io_entity w)) db)
    = <[entity_digest id := row]> (entities_in db) /\
    Entities.extracted_text row = Some text.
Proof.
  intros Ho Ht [tb ->] Hf entity.
  destruct (manual_text_row_params id rt text o gemini risk w (io_entity w) Ho Ht)
    as (row & Hrow & Hty & Htxt).
  exists row. split; [| exact Htxt].
  subst entity. cbv zeta in Hrow.
  unfold statement_effect, insertEntity_statement. rewrite Hf, Hrow. simpl.
  by rewrite Hty.
Qed.
End Manual2.

(** C10: the id of a manual submission is the digest of a text that holds the
    wall-clock time, so two submissions of the same text and title at
    different times have different canonical texts, hence (the truncated
    digest not colliding on these two texts) different ids, and each leaves a
    row and a cache entry of its own: the second does not replace the first,
    and the table grows by two rows. *)
Theorem manual_text_not_idempotent `{Platform} (text title : string) (w1 w2 : world)
    (s : process) (status1 status2 : Z) (o1 o2 : gmap string value) (risk1 risk2 : string) :
  let c1 := manual_text_canonical (id_now w1) text in
  let c2 := manual_text_canonical (id_now w2) text in
  let id1 := manual_text_entity_id (id_now w1) text in
  let id2 := manual_text_entity_id (id_now w2) text in
  let s1 := (analyze_manual_text text title w1 s).2 in
  let s2 := (analyze_manual_text text title w2 s1).2 in
  id_now w1 <> id_now w2 ->
  (entity_digest c1 = entity_digest c2 -> c1 = c2) ->
  primary w1 = Response true status1 (Some (VObj o1)) -> manual_answer o1 risk1 ->
  primary w2 = Response true status2 (Some (VObj o2)) -> manual_answer o2 risk2 ->
  - JsDate.max_time <= detected_now w1 <= JsDate.max_time ->
  - JsDate.max_time <= detected_now w2 <= JsDate.max_time ->
  is_Some (_db s) ->
  storage_fault (io_entity w1) = None -> storage_fault (io_entity w2) = None ->
  c1 <> c2 /\ id1 <> id2 /\
  (exists row1 row2,
     entities_of s2 !! id1 = Some row1 /\ entities_of s2 !! id2 = Some row2 /\
     Entities.extracted_text row1 = Some text /\ Entities.extracted_text row2 = Some text) /\
  (exists e1 e2,
     ENTITY_CACHE s2 !! id1 = Some (VObj e1) /\ ENTITY_CACHE s2 !! id2 = Some (VObj e2)) /\
  (entities_of s !! id1 = None -> entities_of s !! id2 = None ->
   size (entities_of s2) = S (S (size (entities_of s)))).
Proof.
  intros c1 c2 id1 id2 s1 s2 Ht Hcf Hp1 Ho1 Hp2 Ho2 Hd1 Hd2 Hdb Hf1 Hf2.
  assert (c1 <> c2) as Hc by (intros E; by apply Ht, (manual_text_canonical_inj _ _ text)).
  assert (id1 <> id2) as Hid by (intros E; by apply Hc, Hcf).
  pose proof (analyze_manual_text_success text title w1 s status1 (VObj o1) Hp1) as R1.
  pose proof (analyze_manual_text_success text title w2 s1 status2 (VObj o2) Hp2) as R2.
  unfold wp in R1, R2. cbv zeta in R1, R2. fold s1 in R1. fold s2 in R2.
  fold id1 in R1. fold id2 in R2.
  destruct R1 as (_ & Hc1 & Hh1 & He1), R2 as (_ & Hc2 & Hh2 & He2).
  assert (is_Some (_db s1)) as Hdb1 by (by apply Hh1).
  destruct (manual_row_stored (manual_text_canonical (id_now w1) text)
              (if String.eqb title "" then "Manual Text Input" else title) text o1
              (enrichment_result (enrichment w1)) risk1 w1 (_db s) Ho1 Hd1 Hdb Hf1)
    as (row1 & Hr1 & Hx1).
  destruct (manual_row_stored (manual_text_canonical (id_now w2) text)
              (if String.eqb title "" then "Manual Text Input" else title) text o2
              (enrichment_result (enrichment w2)) risk2 w2 (_db s1) Ho2 Hd2 Hdb1 Hf2)
    as (row2 & Hr2 & Hx2).
  fold (manual_text_entity_id (id_now w1) text) in Hr1.
  fold (manual_text_entity_id (id_now w2) text) in Hr2.
  fold id1 in Hr1. fold id2 in Hr2.
  rewrite Hr1 in He1. rewrite Hr2 in He2. fold (entities_of s1) in He2. rewrite He1 in He2.
  split; [exact Hc |]. split; [exact Hid |]. split; [| split].
  - exists row1, row2. rewrite He2.
    rewrite lookup_insert_ne by done. rewrite !lookup_insert_eq. done.
  - eexists _, _. rewrite Hc2, Hc1.
    rewrite lookup_insert_ne by done. rewrite !lookup_insert_eq. done.
  - intros Hn1 Hn2. rewrite He2. fold (entities_of s).
    rewrite !map_size_insert_None; [done | done |].
    by rewrite lookup_insert_ne.
Qed.

Lemma manual_text_not_idempotent_witness :
  manual_text_entity_id (id_now first_submission_world) sample_manual_text <>
  manual_text_entity_id (id_now second_submission_world) sample_manual_text /\
  size (entities_of
          (analyze_manual_text sample_manual_text "" second_submission_world
             (analyze_manual_text sample_manual_text "" first_submission_world
                ready_process).2).2) = 2%nat.
Proof.
  destruct (manual_text_not_idempotent sample_manual_text "" first_submission_world
              second_submission_world ready_process 200 200
              (spread sample_primary_analysis) (spread sample_primary_analysis) "LOW" "LOW")
    as (_ & Hid & _ & _ & Hsize).
  - discriminate.
  - intros E. vm_compute in E. discriminate E.
  - reflexivity.
  - split; vm_compute; reflexivity.
  - reflexivity.
  - split; vm_compute; reflexivity.
  - split; vm_compute; discriminate.
  - split; vm_compute; discriminate.
  - by eexists.
  - reflexivity.
  - reflexivity.
  - split; [exact Hid |]. apply Hsize; apply lookup_empty.
Defined.

(** * Properties of the further code *)

(** ** The read helpers and [db:query] *)

#[export] Instance only_console_preorder : PreOrder only_console.
Proof.
  split.
  - intros s. split; [done | reflexivity].
  - intros s1 s2 s3 [? ?] [? ?]. split; [by etrans | by etrans].
Qed.

Section ReadHelpers.
Context `{Platform}.

Lemma log_only_console line : preserves only_console (log line).
Proof. intros s. by destruct s. Qed.

Lemma ready_only_console : preserves only_console _ready.
Proof. unfold _ready. repeat first [apply log_only_console | frame_step]. Qed.

Ltac console_frame :=
  repeat first [ apply log_only_console | apply ready_only_console | frame_step ].

Lemma queryEntities_only_console t r l : preserves only_console (queryEntities t r l).
Proof. unfold queryEntities. console_frame. Qed.

Lemma getEntity_only_console e : preserves only_console (getEntity e).
Proof. unfold getEntity. console_frame. Qed.

Lemma queryAuditLog_only_console l : preserves only_console (queryAuditLog l).
Proof. unfold queryAuditLog. console_frame. Qed.

Lemma queryLegalSessions_only_console l : preserves only_console (queryLegalSessions l).
Proof. unfold queryLegalSessions. console_frame. Qed.

Lemma getLegalChatHistory_only_console e : preserves only_console (getLegalChatHistory e).
Proof. unfold getLegalChatHistory. console_frame. Qed.

Lemma queryTrustHistory_only_console e : preserves only_console (queryTrustHistory e).
Proof. unfold queryTrustHistory. console_frame. Qed.

Lemma db_query_only_console a o : preserves only_console (db_query a o).
Proof.
  unfold db_query. cbv zeta.
  repeat first
    [ apply queryEntities_only_console | apply getEntity_only_console
    | apply queryAuditLog_only_console | apply queryLegalSessions_only_console
    | apply queryTrustHistory_only_console | console_frame ].
Qed.

Lemma db_query_never_throws a o : never_throws (db_query a o).
Proof.
  unfold db_query. apply never_throws_try. intros e.
  apply never_throws_bind; [apply never_throws_log | intros _; apply never_throws_ret].
Qed.

Lemma queryEntities_never_throws t r l : never_throws (queryEntities t r l).
Proof. unfold queryEntities. repeat throws_step. Qed.

Lemma getEntity_never_throws e : never_throws (getEntity e).
Proof. unfold getEntity. repeat throws_step. Qed.

Lemma queryAuditLog_never_throws l : never_throws (queryAuditLog l).
Proof. unfold queryAuditLog. repeat throws_step. Qed.

Lemma queryLegalSessions_never_throws l : never_throws (queryLegalSessions l).
Proof. unfold queryLegalSessions. repeat throws_step. Qed.

Lemma getLegalChatHistory_never_throws e : never_throws (getLegalChatHistory e).
Proof. unfold getLegalChatHistory. repeat throws_step. Qed.

Lemma queryTrustHistory_never_throws e : never_throws (queryTrustHistory e).
Proof. unfold queryTrustHistory. repeat throws_step. Qed.

(** A step of a handler whose callee does not throw. *)
Lemma bind_never_throws {A B : Type} (m : M A) (k : A -> M B) s :
  never_throws m ->
  exists a, (m s).1 = Normal a /\ and_then m k s = k a (m s).2.
Proof.
  intros Hm. destruct (Hm s) as [a Ha]. exists a. split; [done |].
  unfold and_then. destruct (m s) as [c s']. simpl in Ha. by subst c.
Qed.

Lemma ready_closed s : _db s = None -> exists s', _ready s = (Normal false, s').
Proof. intros E. unfold _ready, and_then, read, log, modify, ret. rewrite E. by eexists. Qed.

End ReadHelpers.

(** X1. [db:query], and with it every read helper of [db.js], never throws
    and changes nothing but the console; it answers with an error exactly
    when the action is not one of the five it knows, and without a database
    every known action gets the empty answer. *)
Theorem db_query_read_only `{Platform} (action : option string) (opts : query_opts)
    (s : process) :
  exists answer,
    (db_query action opts s).1 = Normal answer /\
    only_console s (db_query action opts s).2 /\
    (known_action (default "entities" action) = false <-> exists e, answer = ErrorAnswer e) /\
    (_db s = None -> known_action (default "entities" action) = true -> empty_answer answer).
Proof.
  destruct (db_query_never_throws action opts s) as [answer Ha].
  exists answer. split; [exact Ha |]. split; [apply db_query_only_console |].
  revert Ha. unfold db_query, try_catch. cbv zeta.
  set (a := default "entities" action).
  destruct (String.eqb_spec a "entities") as [-> | N1].
  { destruct (bind_never_throws (queryEntities (opts_type opts) (opts_risk_level opts)
                (default 500 (opts_limit opts))) (fun r => ret (EntitiesAnswer r.1 r.2)) s
                (queryEntities_never_throws _ _ _)) as (r & Hr & ->).
    simpl. intros [= <-]. split; [split; [done | by intros [? ?]] |].
    intros Hdb _. revert Hr. unfold queryEntities, and_then.
    destruct (ready_closed s Hdb) as [s' ->]. simpl. by intros [= <-]. }
  destruct (String.eqb_spec a "entity") as [-> | N2].
  { destruct (bind_never_throws (getEntity (opts_entity_id opts)) (fun r => ret (EntityAnswer r)) s
                (getEntity_never_throws _)) as (r & Hr & ->).
    simpl. intros [= <-]. split; [split; [done | by intros [? ?]] |].
    intros Hdb _. revert Hr. unfold getEntity, and_then.
    destruct (ready_closed s Hdb) as [s' ->]. simpl. by intros [= <-]. }
  destruct (String.eqb_spec a "audit_log") as [-> | N3].
  { destruct (bind_never_throws (queryAuditLog (opts_limit opts)) (fun r => ret (AuditLogAnswer r)) s
                (queryAuditLog_never_throws _)) as (r & Hr & ->).
    simpl. intros [= <-]. split; [split; [done | by intros [? ?]] |].
    intros Hdb _. revert Hr. unfold queryAuditLog, and_then.
    destruct (ready_closed s Hdb) as [s' ->]. simpl. by intros [= <-]. }
  destruct (String.eqb_spec a "legal_sessions") as [-> | N4].
  { destruct (bind_never_throws (queryLegalSessions (opts_limit opts))
                (fun r => ret (LegalSessionsAnswer r)) s
                (queryLegalSessions_never_throws _)) as (r & Hr & ->).
    simpl. intros [= <-]. split; [split; [done | by intros [? ?]] |].
    intros Hdb _. revert Hr. unfold queryLegalSessions, and_then.
    destruct (ready_closed s Hdb) as [s' ->]. simpl. by intros [= <-]. }
  destruct (String.eqb_spec a "trust_history") as [-> | N5].
  { destruct (bind_never_throws (queryTrustHistory (opts_entity_id opts))
                (fun r => ret (TrustHistoryAnswer r)) s
                (queryTrustHistory_never_throws _)) as (r & Hr & ->).
    simpl. intros [= <-]. split; [split; [done | by intros [? ?]] |].
    intros Hdb _. revert Hr. unfold queryTrustHistory, and_then.
    destruct (ready_closed s Hdb) as [s' ->]. simpl. by intros [= <-]. }
  simpl. intros [= <-].
  assert (known_action a = false) as Hk.
  { unfold known_action. apply bool_decide_eq_false_2.
    rewrite !elem_of_cons, elem_of_nil. tauto. }
  split; [split; [by eexists | done] |]. intros _. by rewrite Hk.
Qed.

(** ** Ordering and limits *)

Lemma string_leb_trans a b c :
  String.leb a b = true -> String.leb b c = true -> String.leb a c = true.
Proof.
  unfold String.leb. intros Hab Hbc.
  destruct (String.compare a b) eqn:Eab; [| | done].
  - apply String.compare_eq_iff in Eab. by subst.
  - destruct (String.compare b c) eqn:Ebc; [| | done].
    + apply String.compare_eq_iff in Ebc. subst. by rewrite Eab.
    + apply String_as_OT.cmp_lt in Eab, Ebc.
      pose proof (String_as_OT.lt_trans _ _ _ Eab Ebc) as Hac.
      apply String_as_OT.cmp_lt in Hac. unfold String_as_OT.cmp in Hac. by rewrite Hac.
Qed.

Lemma sql_text_leb_total a b : sql_text_leb a b = true \/ sql_text_leb b a = true.
Proof. destruct a, b; simpl; auto. apply String.leb_total. Qed.

Lemma sql_text_leb_trans a b c :
  sql_text_leb a b = true -> sql_text_leb b c = true -> sql_text_leb a c = true.
Proof. destruct a, b, c; simpl; try done. apply string_leb_trans. Qed.

Lemma sql_text_leb_refl a : sql_text_leb a a = true.
Proof. by destruct (sql_text_leb_total a a). Qed.

Section Ordering.
Context {A : Type} (key : A -> option string).

Lemma insert_asc_perm x l : Permutation (insert_asc key x l) (x :: l).
Proof.
  induction l as [| y l IH]; simpl; [done |].
  destruct (sql_text_leb (key x) (key y)); [done |].
  rewrite IH. apply perm_swap.
Qed.

Lemma order_by_asc_perm l : Permutation (order_by_asc key l) l.
Proof.
  induction l as [| x l IH]; simpl; [done |].
  rewrite insert_asc_perm. by constructor.
Qed.

Lemma insert_newest_perm x l : Permutation (insert_newest key x l) (x :: l).
Proof.
  induction l as [| y l IH]; simpl; [done |].
  destruct (sql_text_leb (key y) (key x)); [done |].
  rewrite IH. apply perm_swap.
Qed.

Lemma order_by_desc_perm l : Permutation (order_by_desc key l) l.
Proof.
  induction l as [| x l IH]; simpl; [done |].
  rewrite insert_newest_perm. by constructor.
Qed.

Lemma insert_asc_sorted x l :
  StronglySorted (ascending key) l -> StronglySorted (ascending key) (insert_asc key x l).
Proof.
  induction 1 as [| y l Hl IH Hy]; simpl.
  - repeat constructor.
  - destruct (sql_text_leb (key x) (key y)) eqn:E.
    + constructor; [by constructor |]. constructor; [done |].
      eapply Forall_impl; [exact Hy |]. intros z Hz. unfold ascending in *.
      by eapply sql_text_leb_trans.
    + constructor; [done |].
      assert (ascending key y x) as Hyx.
      { unfold ascending. destruct (sql_text_leb_total (key x) (key y)); congruence. }
      rewrite insert_asc_perm. by constructor.
Qed.

Lemma order_by_asc_sorted l : StronglySorted (ascending key) (order_by_asc key l).
Proof. induction l; simpl; [constructor | by apply insert_asc_sorted]. Qed.

Lemma insert_newest_sorted x l :
  StronglySorted (descending key) l -> StronglySorted (descending key) (insert_newest key x l).
Proof.
  induction 1 as [| y l Hl IH Hy]; simpl.
  - repeat constructor.
  - destruct (sql_text_leb (key y) (key x)) eqn:E.
    + constructor; [by constructor |]. constructor; [done |].
      eapply Forall_impl; [exact Hy |]. intros z Hz. unfold descending in *.
      by eapply sql_text_leb_trans.
    + constructor; [done |].
      assert (descending key y x) as Hyx.
      { unfold descending. destruct (sql_text_leb_total (key x) (key y)); congruence. }
      rewrite insert_newest_perm. by constructor.
Qed.

Lemma order_by_desc_sorted l : StronglySorted (descending key) (order_by_desc key l).
Proof. induction l; simpl; [constructor | by apply insert_newest_sorted]. Qed.

End Ordering.

Lemma order_by_detected_desc_newest l :
  order_by_detected_desc l = order_by_desc (fun kr => Entities.detected_at kr.2) l.
Proof.
  unfold order_by_detected_desc, order_by_desc. induction l as [| x l IH]; simpl; [done |].
  rewrite IH. generalize (fold_right (insert_newest (fun kr => Entities.detected_at kr.2)) [] l).
  intros l'. induction l' as [| y l' IH']; simpl; [done |].
  change (detected_leb (Entities.detected_at y.2) (Entities.detected_at x.2))
    with (sql_text_leb (Entities.detected_at y.2) (Entities.detected_at x.2)).
  by rewrite IH'.
Qed.

Lemma sql_limit_length {A : Type} (n : Z) (l : list A) :
  0 <= n -> length (sql_limit n l) = Nat.min (Z.to_nat n) (length l).
Proof.
  intros Hn. unfold sql_limit. destruct (Z.ltb_spec n 0); [lia |]. apply length_firstn.
Qed.

Lemma strongly_sorted_take {A : Type} (R : A -> A -> Prop) n (l : list A) :
  StronglySorted R l -> StronglySorted R (take n l).
Proof.
  intros Hl. revert n. induction Hl as [| x l Hl IH Hx]; intros [| n]; simpl; try constructor.
  - apply IH.
  - apply Forall_take, Hx.
Qed.


Section QueryEntities.
Context `{Platform}.

Lemma queryEntities_open type risk_level limit s tb :
  _db s = Some tb ->
  (queryEntities type risk_level limit s).1 =
  match upper_or_null type, upper_or_null risk_level with
  | Normal t, Normal r =>
      Normal (map read_row (take (Z.to_nat (Z.max 1 (Z.min limit 2000)))
                              (order_by_detected_desc (select_entities t r tb))),
              length (select_entities t r tb))
  | _, _ => Normal ([], O)
  end.
Proof.
  intros Hdb. unfold queryEntities, _ready, and_then, try_catch, read, lift, log, modify, ret.
  rewrite Hdb. simpl.
  destruct (upper_or_null type) as [t | e]; simpl; [| done].
  destruct (upper_or_null risk_level) as [r | e]; simpl; [| done].
  by rewrite Hdb.
Qed.



Lemma select_entities_length t r tb :
  (length (select_entities t r tb) <= size (entities tb))%nat.
Proof.
  unfold select_entities. rewrite <- length_map_to_list. apply length_filter.
Qed.


End QueryEntities.



(** ** Writing an entity and reading it back *)

Section EntityRoundTrip.
Context `{Platform}.

Lemma insertEntity_stored p w s tb id row :
  _db s = Some tb -> storage_fault w = None ->
  insertEntity_params p w = Normal (Some id, row) ->
  Entities.entity_type row ∈ entity_types ->
  _db (insertEntity p w s).2 =
  Some (Tables (<[id := row]> (entities tb)) (trust_history tb) (audit_log tb)
          (legal_sessions tb)).
Proof.
  intros Hdb Hf Hp Hty. rewrite insertEntity_db, Hdb.
  unfold statement_effect, insertEntity_statement. rewrite Hf, Hp. simpl.
  by rewrite bool_decide_eq_true_2.
Qed.

Lemma insertEntity_params_analysis p w k row :
  insertEntity_params p w = Normal (k, row) ->
  Entities.analysis_json row = JSON_stringify (js_or (opt_prop p "analysis") (VObj ∅)).
Proof.
  unfold insertEntity_params. intros Hp.
  repeat (case_match; simplify_eq; try done).
Qed.

Lemma insertEntity_params_upper p w k row :
  insertEntity_params p w = Normal (k, row) ->
  toUpperCase (js_or (opt_prop p "entity_type") (VStr "UNKNOWN")) =
  Normal (Entities.entity_type row).
Proof.
  unfold insertEntity_params. intros Hp.
  repeat (case_match; simplify_eq; try done).
Qed.

Lemma getEntity_open id s tb :
  _db s = Some tb -> id <> "" ->
  (getEntity (VStr id) s).1 = Normal ((fun r => read_row (id, r)) <$> entities tb !! id).
Proof.
  intros Hdb Hid. unfold getEntity, _ready, and_then, try_catch, read, lift, log, modify, ret.
  rewrite Hdb. simpl. apply String.eqb_neq in Hid. rewrite Hid. simpl. by rewrite Hdb.
Qed.

End EntityRoundTrip.

(** X3. An entity written by [insertEntity] is read back by [getEntity]
    under its id with the columns that were bound; its [analysis] is the
    JSON round trip of [p.analysis || {}], which for a JSON-safe value is that
    value itself. *)
Theorem insertEntity_getEntity `{Platform} (p : value) (w : io) (s : process) (id : string)
    (row : Entities.row) :
  is_Some (_db s) -> storage_fault w = None ->
  insertEntity_params p w = Normal (Some id, row) ->
  Entities.entity_type row ∈ entity_types ->
  id <> "" ->
  exists rec,
    (getEntity (VStr id) (insertEntity p w s).2).1 = Normal (Some rec) /\
    record_id rec = id /\ columns rec = row /\
    JSON_value (js_or (opt_prop p "analysis") (VObj ∅)) = Some (analysis rec) /\
    (json_safe (js_or (opt_prop p "analysis") (VObj ∅)) = true ->
     analysis rec = js_or (opt_prop p "analysis") (VObj ∅)).
Proof.
  intros [tb Hdb] Hf Hp Hty Hid.
  pose proof (insertEntity_stored p w s tb id row Hdb Hf Hp Hty) as Hs.
  rewrite (getEntity_open id _ _ Hs Hid). simpl. rewrite lookup_insert_eq. simpl.
  eexists. split; [reflexivity |]. split; [done |]. split; [done |].
  unfold read_row. simpl. rewrite (insertEntity_params_analysis _ _ _ _ Hp).
  assert (exists v, JSON_value (js_or (opt_prop p "analysis") (VObj ∅)) = Some v) as [v Hv].
  { unfold js_or. destruct (opt_prop p "analysis") as [| | [] | q | x | l | o]; simpl;
      try (by eexists).
    - destruct (negb (Qeq_bool q 0)); by eexists.
    - destruct (negb (String.eqb x "")); by eexists. }
  unfold JSON_stringify. rewrite Hv. simpl. split; [done |].
  intros Hsafe. apply json_round_trip in Hsafe. congruence.
Qed.

Lemma insertEntity_getEntity_witness :
  exists rec,
    (getEntity (VStr "6b1f0c5e8a9b3d4c")
       (insertEntity sample_entity_params (sample_io 1700000000123 "aaaaaaa")
          ready_process).2).1 = Normal (Some rec) /\
    Entities.risk_level (columns rec) = Some "HIGH" /\
    analysis rec = VObj (object [("fake_probability", VNum (9 # 10)); ("trust_score", num 10)]).
Proof.
  assert (exists row, insertEntity_params sample_entity_params
                        (sample_io 1700000000123 "aaaaaaa")
                      = Normal (Some "6b1f0c5e8a9b3d4c", row) /\
                      Entities.entity_type row = "IMAGE" /\
                      Entities.risk_level row = Some "HIGH") as (row & Hp & Hty & Hrisk).
  { vm_compute. eexists. repeat split; reflexivity. }
  destruct (insertEntity_getEntity sample_entity_params (sample_io 1700000000123 "aaaaaaa")
              ready_process "6b1f0c5e8a9b3d4c" row) as (rec & Hg & _ & Hc & _ & Ha).
  - by eexists.
  - reflexivity.
  - exact Hp.
  - rewrite Hty. unfold entity_types. rewrite !elem_of_cons. tauto.
  - discriminate.
  - exists rec. split; [exact Hg |]. split; [by rewrite Hc |].
    apply Ha. vm_compute. reflexivity.
Defined.

(** X4. The type filter of [queryEntities] does not depend on letter case:
    an entity written by [insertEntity] is stored with its type in upper
    case, and a query whose type is that type in any case counts it, and
    lists it when the table holds no more rows than the limit. *)
Theorem stored_entity_is_listed `{Platform} (p : value) (w : io) (s : process) (id : string)
    (row : Entities.row) (q : string) :
  is_Some (_db s) -> storage_fault w = None ->
  insertEntity_params p w = Normal (Some id, row) ->
  Entities.entity_type row ∈ entity_types ->
  q <> "" -> upper q = Entities.entity_type row ->
  (forall t, opt_prop p "entity_type" = VStr t -> t <> "" -> Entities.entity_type row = upper t) /\
  exists records total,
    (queryEntities (VStr q) VNull 2000 (insertEntity p w s).2).1 = Normal (records, total) /\
    (1 <= total)%nat /\
    ((size (entities_of (insertEntity p w s).2) <= 2000)%nat ->
     EntityRecord id row (parse_analysis (Entities.analysis_json row)) ∈ records).
Proof.
  intros [tb Hdb] Hf Hp Hty Hq Hup. split.
  { intros t Ht Hne. pose proof (insertEntity_params_upper _ _ _ _ Hp) as Hu.
    rewrite Ht in Hu. unfold js_or in Hu. simpl in Hu.
    apply String.eqb_neq in Hne. rewrite Hne in Hu. simpl in Hu. congruence. }
  pose proof (insertEntity_stored p w s tb id row Hdb Hf Hp Hty) as Hs.
  rewrite (queryEntities_open _ _ _ _ _ Hs).
  assert (upper_or_null (VStr q) = Normal (Some (upper q))) as ->.
  { unfold upper_or_null. simpl. apply String.eqb_neq in Hq. by rewrite Hq. }
  change (upper_or_null VNull) with (@Normal (option string) None).
  eexists _, _. split; [reflexivity |].
  set (tb' := Tables _ _ _ _) in *.
  assert ((id, row) ∈ select_entities (Some (upper q)) None tb') as Hin.
  { unfold select_entities. apply list_elem_of_filter. split.
    - simpl. rewrite Hup. by rewrite bool_decide_eq_true_2.
    - apply elem_of_map_to_list. simpl. apply lookup_insert_eq. }
  split.
  - destruct (select_entities (Some (upper q)) None tb'); [by apply elem_of_nil in Hin | simpl; lia].
  - intros Hsize. unfold entities_of in Hsize. rewrite Hs in Hsize. simpl in Hsize.
    rewrite take_ge.
    + apply (list_elem_of_fmap_2 read_row _ (id, row)).
      rewrite order_by_detected_desc_newest, order_by_desc_perm. exact Hin.
    + rewrite order_by_detected_desc_newest, order_by_desc_perm.
      pose proof (select_entities_length (Some (upper q)) None tb'). simpl in *. lia.
Qed.

Lemma stored_entity_is_listed_witness :
  exists records total,
    (queryEntities (VStr "Image") VNull 2000
       (insertEntity sample_entity_params (sample_io 1700000000123 "aaaaaaa")
          ready_process).2).1 = Normal (records, total) /\
    (1 <= total)%nat.
Proof.
  assert (exists row, insertEntity_params sample_entity_params
                        (sample_io 1700000000123 "aaaaaaa")
                      = Normal (Some "6b1f0c5e8a9b3d4c", row) /\
                      Entities.entity_type row = "IMAGE") as (row & Hp & Hty).
  { vm_compute. eexists. split; reflexivity. }
  destruct (stored_entity_is_listed sample_entity_params (sample_io 1700000000123 "aaaaaaa")
              ready_process "6b1f0c5e8a9b3d4c" row "Image") as (_ & records & total & Hq & Ht & _).
  - by eexists.
  - reflexivity.
  - exact Hp.
  - rewrite Hty. unfold entity_types. rewrite !elem_of_cons. tauto.
  - discriminate.
  - rewrite Hty. vm_compute. reflexivity.
  - exists records, total. split; [exact Hq | exact Ht].
Defined.

(** ** What the [entities] table can hold *)

Section EntityRows.
Context `{Platform}.

Lemma bind_text_or_text a d x :
  bind_text (js_or a (VStr d)) = Normal x -> is_Some x.
Proof.
  unfold js_or, bind_text. destruct a as [| | [] | q | t | l | o]; simpl; try done;
    try (intros [= <-]; by eexists).
  - destruct (negb (Qeq_bool q 0)); simpl; intros [= <-]; by eexists.
  - destruct (negb (String.eqb t "")); simpl; intros [= <-]; by eexists.
Qed.

Lemma stringify_or_object a : is_Some (JSON_stringify (js_or a (VObj ∅))).
Proof.
  unfold js_or, JSON_stringify. destruct a as [| | [] | q | t | l | o]; simpl; try by eexists.
  - destruct (negb (Qeq_bool q 0)); by eexists.
  - destruct (negb (String.eqb t "")); by eexists.
Qed.

Lemma insertEntity_params_complete p w k row :
  insertEntity_params p w = Normal (k, row) -> is_Some k /\ complete_row row.
Proof.
  unfold insertEntity_params, complete_row. intros Hp.
  destruct (prop p "detected_at") as [d |]; [| done].
  destruct (if truthy d then _ else _) as [iso |]; [| done].
  destruct (toUpperCase (js_or (opt_prop p "entity_type") _)) as [ty |]; [| done].
  destruct (toUpperCase (js_or (js_or (opt_prop p "risk_level") _) _)) as [rk |]; [| done].
  destruct (bind_text (js_or (opt_prop p "entity_id") _)) as [id |] eqn:Eid; [| done].
  destruct (bind_text (js_or (js_or (js_or (opt_prop p "source_url") _) _) _)) as [src |] eqn:Es;
    [| done].
  destruct (bind_text (js_or (js_or (opt_prop p "title") _) _)) as [ttl |] eqn:Et; [| done].
  destruct (bind_text (js_or (opt_prop p "text") _)) as [txt |] eqn:Ex; [| done].
  injection Hp as <- <-. simpl.
  apply bind_text_or_text in Eid, Es, Et, Ex.
  repeat split; try done; try by eexists. apply stringify_or_object.
Qed.

End EntityRows.

#[export] Instance keeps_well_formed_preorder : PreOrder keeps_well_formed.
Proof.
  split.
  - intros s Hs. exact Hs.
  - intros s1 s2 s3 H12 H23 Hs. apply H23, H12, Hs.
Qed.

Section WellFormed.
Context `{Platform}.

Lemma keeps_same_entities s s' : entities_of s' = entities_of s -> keeps_well_formed s s'.
Proof. intros E. unfold keeps_well_formed, entities_well_formed. by rewrite E. Qed.

Lemma modify_keeps_well_formed f :
  (forall s, _db (f s) = _db s) -> preserves keeps_well_formed (modify f).
Proof. intros Hf s. apply keeps_same_entities. unfold entities_of, modify. simpl. by rewrite Hf. Qed.

Lemma insertTrustHistory_entities e t d w s :
  entities_of (insertTrustHistory e t d w s).2 = entities_of s.
Proof.
  unfold entities_of. rewrite insertTrustHistory_db. apply insertTrustHistory_effect_entities.
Qed.

Lemma insertLegalSession_other_tables e q a t w s :
  entities_of (insertLegalSession e q a t w s).2 = entities_of s /\
  trust_of (insertLegalSession e q a t w s).2 = trust_of s /\
  audit_of (insertLegalSession e q a t w s).2 = audit_of s.
Proof.
  unfold insertLegalSession, _ready, and_then, try_catch, read, lift, log, modify, ret, run,
    entities_of, trust_of, audit_of.
  destruct s as [[tb |] c x l o r]; simpl; [| done].
  repeat (case_match; simpl in *; simplify_eq; try done).
Qed.

Lemma insertEntity_keeps_well_formed p w : preserves keeps_well_formed (insertEntity p w).
Proof.
  intros s Hs. unfold entities_well_formed, entities_of in *. rewrite insertEntity_db.
  unfold statement_effect, insertEntity_statement.
  destruct (_db s) as [tb |]; [| done]. destruct (storage_fault w); [done |].
  destruct (insertEntity_params p w) as [[k row] |] eqn:Hp; [| done]. simpl.
  unfold stmt_insertEntity, constraint_failed. destruct k as [id |]; [| done].
  case_bool_decide as Hty; [| done]. simpl.
  apply map_Forall_insert_2; [| done].
  split; [done |]. by apply (insertEntity_params_complete _ _ _ _ Hp).
Qed.

Lemma perform_keeps_well_formed c w : preserves keeps_well_formed (perform c w).
Proof.
  destruct c; simpl.
  - apply insertEntity_keeps_well_formed.
  - intros s. apply keeps_same_entities, insertTrustHistory_entities.
  - intros s. apply keeps_same_entities, insertAuditLog_other_tables.
  - intros s. apply keeps_same_entities, insertLegalSession_other_tables.
Qed.

Ltac well_formed_pipeline :=
  repeat first
    [ progress cbv zeta
    | apply insertEntity_keeps_well_formed
    | apply (perform_keeps_well_formed (InsertTrustHistory _ _ _))
    | apply (perform_keeps_well_formed (InsertAuditLog _ _ _ _))
    | apply (perform_keeps_well_formed (InsertLegalSession _ _ _ _))
    | apply modify_keeps_well_formed; intros []; reflexivity
    | frame_step ].

Lemma log_keeps_well_formed line : preserves keeps_well_formed (log line).
Proof. unfold log. well_formed_pipeline. Qed.

Lemma callGeminiAnalysis_keeps_well_formed t u x r :
  preserves keeps_well_formed (callGeminiAnalysis t u x r).
Proof. unfold callGeminiAnalysis, log. well_formed_pipeline. Qed.

Lemma postImageUrlToBackend_keeps_well_formed u w :
  preserves keeps_well_formed (postImageUrlToBackend u w).
Proof. unfold postImageUrlToBackend, analysis_failed, cache_set, log. well_formed_pipeline. Qed.

Lemma postTextToBackend_keeps_well_formed p w :
  preserves keeps_well_formed (postTextToBackend p w).
Proof.
  unfold postTextToBackend, analysis_failed, cache_set, log.
  pose proof callGeminiAnalysis_keeps_well_formed.
  repeat first [ progress cbv zeta | done | well_formed_pipeline ].
Qed.

Lemma analyze_manual_text_keeps_well_formed text title w :
  preserves keeps_well_formed (analyze_manual_text text title w).
Proof.
  unfold analyze_manual_text, cache_set, log.
  pose proof callGeminiAnalysis_keeps_well_formed.
  repeat first [ progress cbv zeta | done | well_formed_pipeline ].
Qed.

Lemma getEntity_keeps_well_formed e : preserves keeps_well_formed (getEntity e).
Proof. intros s. apply keeps_same_entities. unfold entities_of. by rewrite (proj1 (getEntity_only_console e s)). Qed.

Lemma entity_details_keeps_well_formed id w :
  preserves keeps_well_formed (entity_details id w).
Proof.
  unfold entity_details, cache_set, log.
  pose proof getEntity_keeps_well_formed.
  repeat first [ progress cbv zeta | done | well_formed_pipeline ].
Qed.

Lemma handle_keeps_well_formed e : preserves keeps_well_formed (handle e).
Proof.
  destruct e; simpl.
  - unfold onCompleted, log.
    pose proof postImageUrlToBackend_keeps_well_formed.
    repeat first [ progress cbv zeta | done | well_formed_pipeline ].
  - unfold image_monitor_url.
    pose proof postImageUrlToBackend_keeps_well_formed.
    repeat first [ progress cbv zeta | done | well_formed_pipeline ].
  - unfold webview_navigated, log. well_formed_pipeline.
  - apply postTextToBackend_keeps_well_formed.
Qed.

Lemma handle_all_keeps_well_formed events : preserves keeps_well_formed (handle_all events).
Proof.
  induction events as [| e events IH]; simpl.
  - by intros s.
  - apply preserves_bind; [typeclasses eauto | apply handle_keeps_well_formed | done].
Qed.

End WellFormed.

(** X5. The [entities] table stays well formed: if every row has one of the
    four types of the CHECK constraint and no NULL column, this is still so
    after any write helper, any sequence of capture events, a manual text
    submission and an entity lookup. *)
Theorem entities_stay_well_formed `{Platform} (s : process) :
  entities_well_formed s ->
  (forall c w, entities_well_formed (perform c w s).2) /\
  (forall events, entities_well_formed (handle_all events s).2) /\
  (forall text title w, entities_well_formed (analyze_manual_text text title w s).2) /\
  (forall id w, entities_well_formed (entity_details id w s).2).
Proof.
  intros Hs. split; [| split; [| split]]; intros.
  - by apply perform_keeps_well_formed.
  - by apply handle_all_keeps_well_formed.
  - by apply analyze_manual_text_keeps_well_formed.
  - by apply entity_details_keeps_well_formed.
Qed.

Lemma entities_stay_well_formed_witness :
  entities_well_formed
    (handle_all [sample_image_loaded; WebviewNavigated; sample_image_forwarded] ready_process).2.
Proof.
  assert (entities_well_formed ready_process) as Hs by apply map_Forall_empty.
  destruct (entities_stay_well_formed ready_process Hs) as (_ & He & _).
  apply He.
Defined.



(** X7. An entity without an id is stored under the id 'unknown': a second
    one replaces the first, whatever the two entities are. *)
Theorem insertEntity_without_id `{Platform} (p1 p2 : value) (w1 w2 : io) (s : process)
    (k1 k2 : option string) (row1 row2 : Entities.row) :
  truthy (opt_prop p1 "entity_id") = false ->
  truthy (opt_prop p2 "entity_id") = false ->
  insertEntity_params p1 w1 = Normal (k1, row1) ->
  insertEntity_params p2 w2 = Normal (k2, row2) ->
  Entities.entity_type row1 ∈ entity_types ->
  Entities.entity_type row2 ∈ entity_types ->
  is_Some (_db s) -> storage_fault w1 = None -> storage_fault w2 = None ->
  k1 = Some "unknown" /\ k2 = Some "unknown" /\
  entities_of (insertEntity p1 w1 s).2 = <["unknown" := row1]> (entities_of s) /\
  entities_of (insertEntity p2 w2 (insertEntity p1 w1 s).2).2 =
    <["unknown" := row2]> (entities_of s).
Proof.
  intros H1 H2 Hp1 Hp2 Ht1 Ht2 [tb Hdb] Hf1 Hf2.
  assert (forall p w k row, truthy (opt_prop p "entity_id") = false ->
            insertEntity_params p w = Normal (k, row) -> k = Some "unknown") as Hk.
  { intros p w k row Hp Hpar. apply insertEntity_params_id in Hpar.
    unfold js_or in Hpar. rewrite Hp in Hpar. by injection Hpar as <-. }
  pose proof (Hk _ _ _ _ H1 Hp1) as ->. pose proof (Hk _ _ _ _ H2 Hp2) as ->.
  pose proof (insertEntity_stored p1 w1 s tb _ row1 Hdb Hf1 Hp1 Ht1) as Hs1.
  pose proof (insertEntity_stored p2 w2 _ _ _ row2 Hs1 Hf2 Hp2 Ht2) as Hs2.
  split; [done |]. split; [done |]. unfold entities_of. rewrite Hs2, Hs1, Hdb. simpl.
  split; [done |]. apply insert_insert_eq.
Qed.

Lemma insertEntity_without_id_witness :
  exists row,
    entities_of
      (insertEntity (VObj (object [("entity_type", VStr "TEXT"); ("title", VStr "second")]))
         (sample_io 1700000000456 "bbbbbbb")
         (insertEntity (VObj (object [("entity_type", VStr "IMAGE"); ("title", VStr "first")]))
            (sample_io 1700000000123 "aaaaaaa") ready_process).2).2
    = <["unknown" := row]> (entities_of ready_process) /\
    Entities.title row = Some "second".
Proof.
  assert (exists r1, insertEntity_params
            (VObj (object [("entity_type", VStr "IMAGE"); ("title", VStr "first")]))
            (sample_io 1700000000123 "aaaaaaa") = Normal (Some "unknown", r1) /\
            Entities.entity_type r1 = "IMAGE") as (r1 & Hp1 & Ht1).
  { vm_compute. eexists. split; reflexivity. }
  assert (exists r2, insertEntity_params
            (VObj (object [("entity_type", VStr "TEXT"); ("title", VStr "second")]))
            (sample_io 1700000000456 "bbbbbbb") = Normal (Some "unknown", r2) /\
            Entities.entity_type r2 = "TEXT" /\ Entities.title r2 = Some "second")
    as (r2 & Hp2 & Ht2 & Htitle).
  { vm_compute. eexists. repeat split; reflexivity. }
  destruct (insertEntity_without_id
              (VObj (object [("entity_type", VStr "IMAGE"); ("title", VStr "first")]))
              (VObj (object [("entity_type", VStr "TEXT"); ("title", VStr "second")]))
              _ _ ready_process _ _ r1 r2 eq_refl eq_refl Hp1 Hp2)
    as (_ & _ & _ & Hs).
  - rewrite Ht1. unfold entity_types. rewrite !elem_of_cons. tauto.
  - rewrite Ht2. unfold entity_types. rewrite !elem_of_cons. tauto.
  - by eexists.
  - reflexivity.
  - reflexivity.
  - exists r2. split; [exact Hs | exact Htitle].
Defined.


(** ** Each write helper writes its own table *)

Section OwnTable.
Context `{Platform}.

Lemma insertEntity_other_tables p w s :
  trust_of (insertEntity p w s).2 = trust_of s /\
  audit_of (insertEntity p w s).2 = audit_of s /\
  legal_of (insertEntity p w s).2 = legal_of s.
Proof.
  unfold trust_of, trust_in, audit_of, legal_of. rewrite insertEntity_db.
  unfold statement_effect, insertEntity_statement.
  destruct (_db s) as [tb |]; [| done]. destruct (storage_fault w); [done |].
  destruct (insertEntity_params p w) as [[k row] |]; [| done]. simpl.
  unfold stmt_insertEntity, constraint_failed. destruct k; [| done].
  by case_bool_decide.
Qed.

Lemma insertTrustHistory_appends e t d w s :
  entities_of (insertTrustHistory e t d w s).2 = entities_of s /\
  audit_of (insertTrustHistory e t d w s).2 = audit_of s /\
  legal_of (insertTrustHistory e t d w s).2 = legal_of s /\
  (trust_of (insertTrustHistory e t d w s).2 = trust_of s \/
   exists row, trust_of (insertTrustHistory e t d w s).2 = (trust_of s ++ [row])%list).
Proof.
  unfold entities_of, entities_in, trust_of, trust_in, audit_of, legal_of.
  rewrite insertTrustHistory_db.
  unfold statement_effect, insertTrustHistory_statement.
  destruct (_db s) as [tb |]; [| by repeat split; auto].
  destruct (storage_fault w); [by repeat split; auto |].
  destruct (bind_text e) as [id |]; [| by repeat split; auto].
  destruct (sqlite_bind t) as [t' |]; [| by repeat split; auto].
  destruct (sqlite_bind (default_param (num 0) d)) as [d' |]; [| by repeat split; auto].
  unfold stmt_insertTrust, constraint_failed.
  destruct id as [id |]; [| by repeat split; auto].
  destruct t'; simpl; repeat split; eauto.
Qed.

Lemma insertLegalSession_appends e q a t w s :
  legal_of (insertLegalSession e q a t w s).2 = legal_of s \/
  exists row, legal_of (insertLegalSession e q a t w s).2 = (legal_of s ++ [row])%list.
Proof.
  unfold insertLegalSession, _ready, and_then, try_catch, read, lift, log, modify, ret, run,
    legal_of.
  destruct s as [[tb |] c x l o r]; simpl; [| by left].
  destruct (bind_text (js_or e (VStr ""))); simpl; [| by left].
  destruct (bind_text (js_or q (VStr ""))); simpl; [| by left].
  destruct (bind_text (js_or a (VStr ""))); simpl; [| by left].
  destruct (bind_text (default_param (VStr "LEGAL_CHAT") t)); simpl; [| by left].
  destruct (storage_fault w); simpl; [by left |]. right. by eexists.
Qed.

Lemma insertAuditLog_legal t e i m w s :
  legal_of (insertAuditLog t e i m w s).2 = legal_of s.
Proof.
  unfold insertAuditLog, _ready, and_then, try_catch, read, lift, log, modify, ret, run, legal_of.
  destruct s as [[tb |] c x l o r]; simpl; [| done].
  destruct (bind_text t) as [ty |]; simpl; [| done].
  destruct (bind_text (js_or (default_param (VStr "") e) (VStr ""))); simpl; [| done].
  destruct (bind_text (js_or (default_param (VStr "") i) (VStr ""))); simpl; [| done].
  destruct (storage_fault w); simpl; [done |].
  unfold stmt_insertAudit. destruct ty; [| done].
  by destruct (audit_log tb !! _uuid w).
Qed.

End OwnTable.

(** X8. Each write helper writes its own table only, and the two history
    tables are append-only: a call leaves [trust_history] and
    [legal_sessions] as they were or with one row added at the end. *)
Theorem write_helpers_own_table `{Platform} (c : db_write) (w : io) (s : process) :
  let s' := (perform c w s).2 in
  match c with
  | InsertEntity _ =>
      trust_of s' = trust_of s /\ audit_of s' = audit_of s /\ legal_of s' = legal_of s
  | InsertTrustHistory _ _ _ =>
      entities_of s' = entities_of s /\ audit_of s' = audit_of s /\ legal_of s' = legal_of s /\
      (trust_of s' = trust_of s \/ exists row, trust_of s' = (trust_of s ++ [row])%list)
  | InsertAuditLog _ _ _ _ =>
      entities_of s' = entities_of s /\ trust_of s' = trust_of s /\ legal_of s' = legal_of s
  | InsertLegalSession _ _ _ _ =>
      entities_of s' = entities_of s /\ trust_of s' = trust_of s /\ audit_of s' = audit_of s /\
      (legal_of s' = legal_of s \/ exists row, legal_of s' = (legal_of s ++ [row])%list)
  end.
Proof.
  destruct c; simpl.
  - apply insertEntity_other_tables.
  - apply insertTrustHistory_appends.
  - destruct (insertAuditLog_other_tables eventType entityId sessionId metadata w s) as [? ?].
    repeat split; try done. apply insertAuditLog_legal.
  - destruct (insertLegalSession_other_tables entityId userQuery aiResponse sessionType w s)
      as (? & ? & ?).
    repeat split; try done. apply insertLegalSession_appends.
Qed.

(** ** The history tables read back *)

Lemma numbered_from_snoc {A : Type} i (l : list A) (x : A) :
  numbered_from i (l ++ [x]) = (numbered_from i l ++ [((i + length l)%nat, x)])%list.
Proof.
  revert i. induction l as [| y l IH]; intros i; simpl.
  - by rewrite Nat.add_0_r.
  - rewrite IH. simpl. by rewrite Nat.add_succ_r.
Qed.

Lemma numbered_snoc {A : Type} (l : list A) (x : A) :
  numbered (l ++ [x]) = (numbered l ++ [(S (length l), x)])%list.
Proof. unfold numbered. by rewrite numbered_from_snoc. Qed.

Lemma numbered_from_ids {A : Type} i (l : list A) ir :
  ir ∈ numbered_from i l -> (i <= ir.1)%nat.
Proof.
  revert i. induction l as [| y l IH]; intros i; simpl.
  - by intros ?%elem_of_nil.
  - intros [-> | Hin]%elem_of_cons; [simpl; lia |]. apply IH in Hin. lia.
Qed.

Lemma numbered_from_NoDup {A : Type} i (l : list A) : NoDup (numbered_from i l).
Proof.
  revert i. induction l as [| y l IH]; intros i; simpl; constructor; [| apply IH].
  intros Hin. apply numbered_from_ids in Hin. simpl in Hin. lia.
Qed.

Lemma numbered_NoDup {A : Type} (l : list A) : NoDup (numbered l).
Proof. apply numbered_from_NoDup. Qed.

Section TrustHistoryReads.
Context `{Platform}.



End TrustHistoryReads.



Lemma strongly_sorted_after {A : Type} (R : A -> A -> Prop) (l1 l2 : list A) (x : A) :
  StronglySorted R (l1 ++ x :: l2) -> Forall (R x) l2.
Proof.
  induction l1 as [| y l1 IH]; simpl; intros Hs.
  - by apply StronglySorted_inv in Hs as [_ Hx].
  - apply StronglySorted_inv in Hs as [Hs _]. by apply IH.
Qed.

Lemma filter_none {A : Type} (P : A -> Prop) `{!forall x, Decision (P x)} (l : list A) :
  Forall (fun x => ~ P x) l -> filter P l = [].
Proof. induction 1 as [| x l Hx _ IH]; [done |]. by rewrite filter_cons_False. Qed.

(** In a list sorted oldest first, an element among the first [n] has fewer
    than [n] elements strictly before it. *)
Lemma sorted_window {A : Type} (key : A -> option string) (l : list A) (x : A) (n : nat) :
  StronglySorted (ascending key) l -> x ∈ take n l ->
  (length (filter (fun y => sql_text_leb (key x) (key y) = false) l) < n)%nat.
Proof.
  intros Hs Hin. apply elem_of_take in Hin as (i & Hi & Hlt).
  rewrite <- (take_drop_middle l i x Hi) in Hs |- *.
  pose proof (strongly_sorted_after _ _ _ _ Hs) as Hafter.
  rewrite filter_app, length_app.
  assert (filter (fun y => sql_text_leb (key x) (key y) = false) (x :: drop (S i) l) = []) as ->.
  { apply filter_none. constructor.
    - by rewrite sql_text_leb_refl.
    - eapply Forall_impl; [exact Hafter |]. intros y Hy. unfold ascending in Hy. by rewrite Hy. }
  simpl. pose proof (length_filter (fun y => sql_text_leb (key x) (key y) = false) (take i l)).
  rewrite length_take in *. lia.
Qed.

Section LegalHistory.
Context `{Platform}.

Lemma getLegalChatHistory_open id s tb :
  _db s = Some tb -> id <> "" ->
  (getLegalChatHistory (VStr id) s).1 =
  Normal (take 200 (order_by_asc (fun ir => LegalSessions.timestamp ir.2)
                      (legal_rows_of id (legal_sessions tb)))).
Proof.
  intros Hdb Hid.
  unfold getLegalChatHistory, _ready, and_then, try_catch, read, lift, log, modify, ret.
  rewrite Hdb. simpl negb. apply String.eqb_neq in Hid.
  unfold truthy. rewrite Hid. simpl. by rewrite Hdb.
Qed.

Lemma insertLegalSession_stored id q a kind w s tb :
  _db s = Some tb -> storage_fault w = None ->
  _db (insertLegalSession (VStr id) (VStr q) (VStr a) (VStr kind) w s).2 =
  Some (Tables (entities tb) (trust_history tb) (audit_log tb)
          (legal_sessions tb ++
             [LegalSessions.Row (Some id) (Some q) (Some a) (Some kind) (Some (_nowIso w))])).
Proof.
  intros Hdb Hf.
  unfold insertLegalSession, _ready, and_then, try_catch, read, lift, log, modify, ret, run.
  rewrite Hdb. simpl. rewrite !js_or_text. simpl. rewrite Hdb, Hf. by destruct s.
Qed.

End LegalHistory.

(** X10. The chat history of an entity is a window of its 200 oldest
    exchanges: [getLegalChatHistory] answers with at most 200 exchanges of
    that entity, oldest first.  An exchange just written by
    [insertLegalSession] is in the answer when the entity had fewer than 200
    exchanges, and is not when it already had 200 with earlier timestamps. *)
Theorem legal_chat_history_window `{Platform} (id q a : string) (w : io) (s : process)
    (tb : tables) :
  _db s = Some tb -> storage_fault w = None -> id <> "" ->
  let x := (S (length (legal_sessions tb)),
            LegalSessions.Row (Some id) (Some q) (Some a) (Some "LEGAL_CHAT")
              (Some (_nowIso w))) in
  let before := legal_rows_of id (legal_sessions tb) in
  exists rows,
    (getLegalChatHistory (VStr id)
       (insertLegalSession (VStr id) (VStr q) (VStr a) (VStr "LEGAL_CHAT") w s).2).1
      = Normal rows /\
    (length rows <= 200)%nat /\
    Forall (fun ir => LegalSessions.entity_id ir.2 = Some id) rows /\
    StronglySorted (ascending (fun ir : nat * LegalSessions.row => LegalSessions.timestamp ir.2))
      rows /\
    ((length before < 200)%nat -> x ∈ rows) /\
    ((200 <= length (filter (strictly_earlier x) before))%nat -> x ∉ rows).
Proof.
  intros Hdb Hf Hid x before.
  pose proof (insertLegalSession_stored id q a "LEGAL_CHAT" w s tb Hdb Hf) as Hs.
  rewrite (getLegalChatHistory_open id _ _ Hs Hid). simpl legal_sessions.
  eexists. split; [reflexivity |].
  set (key := fun ir : nat * LegalSessions.row => LegalSessions.timestamp ir.2).
  assert (legal_rows_of id (legal_sessions tb ++
            [LegalSessions.Row (Some id) (Some q) (Some a) (Some "LEGAL_CHAT")
               (Some (_nowIso w))]) = (before ++ [x])%list) as ->.
  { unfold legal_rows_of. rewrite numbered_snoc, filter_app.
    rewrite filter_cons_True; [done |]. simpl. by rewrite String.eqb_refl. }
  pose proof (order_by_asc_perm key (before ++ [x])) as Hperm.
  pose proof (order_by_asc_sorted key (before ++ [x])) as Hsorted.
  split; [rewrite length_take; lia |]. split; [| split; [| split]].
  - apply Forall_take. rewrite Hperm. apply Forall_app. split.
    + unfold before, legal_rows_of. apply Forall_forall. intros ir Hin.
      apply list_elem_of_filter in Hin as [Hm _].
      unfold sql_eq in Hm. destruct (LegalSessions.entity_id ir.2) as [e |]; [| done].
      apply String.eqb_eq in Hm. by subst.
    + by repeat constructor.
  - by apply strongly_sorted_take.
  - intros Hlen. rewrite take_ge.
    + rewrite Hperm. apply elem_of_app. right. apply elem_of_cons. by left.
    + rewrite Hperm, length_app. simpl. lia.
  - intros Hmany Hin. apply (sorted_window key _ _ _ Hsorted) in Hin.
    rewrite (filter_Permutation _ _ _ Hperm), filter_app, length_app in Hin.
    apply (Nat.lt_irrefl 200). eapply Nat.le_lt_trans; [exact Hmany |].
    eapply Nat.le_lt_trans; [| exact Hin]. apply Nat.le_add_r.
Qed.

Lemma legal_chat_history_window_witness :
  exists rows,
    (getLegalChatHistory (VStr "6b1f0c5e8a9b3d4c")
       (insertLegalSession (VStr "6b1f0c5e8a9b3d4c") (VStr "And now?") (VStr "A later answer.")
          (VStr "LEGAL_CHAT") (sample_io 1700000900000 "ddddddd") crowded_store).2).1
      = Normal rows /\
    (201%nat, LegalSessions.Row (Some "6b1f0c5e8a9b3d4c") (Some "And now?")
                (Some "A later answer.") (Some "LEGAL_CHAT")
                (Some (_nowIso (sample_io 1700000900000 "ddddddd")))) ∉ rows.
Proof.
  destruct (legal_chat_history_window "6b1f0c5e8a9b3d4c" "And now?" "A later answer."
              (sample_io 1700000900000 "ddddddd") crowded_store
              (Tables ∅ [] ∅ (replicate 200 old_exchange)) eq_refl eq_refl)
    as (rows & Hr & _ & _ & _ & _ & Hout).
  - discriminate.
  - exists rows. split; [exact Hr |]. apply Hout. vm_compute. apply le_n.
Defined.

(** X11. [queryAuditLog] answers with stored events, each once, newest
    first.  A limit that is not negative is capped at 5000 (200 when left
    out); a negative limit is no limit at all, so that the whole table is
    returned, beyond the cap. *)
Theorem queryAuditLog_answer `{Platform} (limit : option Z) (s : process) (tb : tables) :
  _db s = Some tb ->
  exists rows,
    (queryAuditLog limit s).1 = Normal rows /\
    Forall (fun kr => audit_log tb !! kr.1 = Some kr.2) rows /\
    NoDup rows.*1 /\
    StronglySorted (descending (fun kr : string * AuditLog.row => AuditLog.timestamp kr.2)) rows /\
    (0 <= default 200 limit ->
     length rows = Nat.min (Z.to_nat (Z.min (default 200 limit) 5000)) (size (audit_log tb))) /\
    (default 200 limit < 0 -> length rows = size (audit_log tb)).
Proof.
  intros Hdb.
  unfold queryAuditLog, _ready, and_then, try_catch, read, lift, log, modify, ret.
  rewrite Hdb. simpl. rewrite Hdb. simpl. eexists. split; [reflexivity |].
  set (key := fun kr : string * AuditLog.row => AuditLog.timestamp kr.2).
  set (n := Z.min (default 200 limit) 5000).
  pose proof (order_by_desc_perm key (map_to_list (audit_log tb))) as Hperm.
  pose proof (order_by_desc_sorted key (map_to_list (audit_log tb))) as Hsorted.
  unfold sql_limit. destruct (Z.ltb_spec n 0) as [Hneg | Hpos].
  - split; [| split; [| split; [done | split]]].
    + rewrite Hperm. apply Forall_forall. intros [k r] Hin. by apply elem_of_map_to_list.
    + rewrite Hperm. apply NoDup_fst_map_to_list.
    + intros H0. unfold n in Hneg. lia.
    + intros _. by rewrite Hperm, length_map_to_list.
  - split; [| split; [| split; [by apply strongly_sorted_take | split]]].
    + apply Forall_take. rewrite Hperm. apply Forall_forall. intros [k r] Hin.
      by apply elem_of_map_to_list.
    + eapply sublist_NoDup; [| apply fmap_sublist, sublist_take].
      rewrite Hperm. apply NoDup_fst_map_to_list.
    + intros _. by rewrite length_take, Hperm, length_map_to_list.
    + intros H0. unfold n in Hpos. lia.
Qed.

Lemma queryAuditLog_answer_witness :
  exists rows, (queryAuditLog (Some (-1)) audited_store).1 = Normal rows /\ length rows = 1%nat.
Proof.
  destruct (queryAuditLog_answer (Some (-1)) audited_store _ eq_refl)
    as (rows & Hr & _ & _ & _ & _ & Hall).
  exists rows. split; [exact Hr |]. rewrite Hall; [| simpl; lia]. vm_compute. reflexivity.
Defined.


(** ** The enrichment gateway *)

Lemma clamp01_bounds x : (0 <= clamp01 x <= 1)%Q.
Proof.
  unfold clamp01. destruct (Qle_bool x 0) eqn:E0; [split; [apply Qle_refl | discriminate] |].
  destruct (Qle_bool 1 x) eqn:E1; [split; [discriminate | apply Qle_refl] |].
  split.
  - apply Qnot_lt_le. intros Hlt. apply Qlt_le_weak, Qle_bool_iff in Hlt. congruence.
  - apply Qnot_lt_le. intros Hlt. apply Qlt_le_weak, Qle_bool_iff in Hlt. congruence.
Qed.

(** X12. Whatever the model answers, an enrichment result that
    [callGeminiAnalysis] accepts is within bounds: both scores lie between 0
    and 1, the risk is LOW, MEDIUM or HIGH, there are at most six forensic
    findings and five key claims, and the topic is never empty. *)
Theorem gemini_normalise_bounds `{Platform} (data : value) (g : Gemini.result) :
  gemini_normalise data = Normal g ->
  (0 <= Gemini.ai_generated_probability g <= 1)%Q /\
  (0 <= Gemini.credibility_score g <= 1)%Q /\
  Gemini.misinformation_risk g ∈ ["LOW"; "MEDIUM"; "HIGH"] /\
  (length (Gemini.forensic_explanation g) <= 6)%nat /\
  (length (Gemini.key_claims g) <= 5)%nat /\
  truthy (Gemini.topic g) = true.
Proof.
  unfold gemini_normalise. intros Hg.
  destruct (gemini_raw data) as [| | | | raw | |]; try done.
  destruct (JSON_parse (strip_fences raw)) as [parsed |]; [| done].
  destruct (prop parsed "summary") as [[| | | | summary | |] |]; try done.
  injection Hg as <-. simpl.
  split; [apply clamp01_bounds |]. split; [apply clamp01_bounds |].
  split; [| split; [| split]].
  - destruct (opt_prop parsed "misinformation_risk"); try (rewrite !elem_of_cons; tauto).
    case_bool_decide; [done | rewrite !elem_of_cons; tauto].
  - unfold array_prefix. destruct (opt_prop parsed "forensic_explanation"); simpl; try lia.
    rewrite length_take. lia.
  - unfold array_prefix. destruct (opt_prop parsed "key_claims"); simpl; try lia.
    rewrite length_take. lia.
  - unfold js_or. by destruct (truthy (opt_prop parsed "topic")) eqn:E.
Qed.

Lemma gemini_normalise_bounds_witness :
  exists g,
    enrichment_result (gemini_response sample_enrichment_text) = Some g /\
    (0 <= Gemini.credibility_score g <= 1)%Q /\
    (length (Gemini.key_claims g) <= 5)%nat.
Proof.
  assert (exists data g, gemini_response sample_enrichment_text = Response true 200 (Some data) /\
                         gemini_normalise data = Normal g) as (data & g & Hr & Hg).
  { eexists _, _. split; [reflexivity |]. vm_compute. reflexivity. }
  destruct (gemini_normalise_bounds data g Hg) as (_ & Hc & _ & _ & Hk & _).
  exists g. split; [| split; [exact Hc | exact Hk]].
  rewrite Hr. simpl. by rewrite Hg.
Defined.

(** X13. A credibility score that the model reports as 0 (or that does not
    parse) comes out as 0.5: [parseFloat(x) || 0.5] takes 0 for a missing
    score.  Under an accepted result the summary is the text the model gave. *)
Theorem credibility_zero_becomes_half `{Platform} (data : value) (raw : string)
    (parsed : value) (g : Gemini.result) :
  gemini_raw data = VStr raw ->
  JSON_parse (strip_fences raw) = Some parsed ->
  gemini_normalise data = Normal g ->
  opt_prop parsed "summary" = VStr (Gemini.ai_summary g) /\
  (forall q, parseFloat (opt_prop parsed "credibility_score") = Some q -> (q == 0)%Q ->
             Gemini.credibility_score g = (1 # 2)%Q) /\
  (parseFloat (opt_prop parsed "credibility_score") = None ->
   Gemini.credibility_score g = (1 # 2)%Q) /\
  (parseFloat (opt_prop parsed "ai_generated_probability") = None ->
   Gemini.ai_generated_probability g = 0%Q).
Proof.
  intros Hraw Hparse. unfold gemini_normalise. rewrite Hraw, Hparse.
  destruct (prop parsed "summary") as [[| | | | summary | |] |] eqn:Hs; try done.
  intros [= <-]. simpl. split; [| split; [| split]].
  - destruct parsed; simpl in *; try done. by injection Hs.
  - intros q Hq H0. unfold parseFloat_or. rewrite Hq.
    apply Qeq_bool_iff in H0. by rewrite H0.
  - intros Hq. unfold parseFloat_or. by rewrite Hq.
  - intros Hq. unfold parseFloat_or. by rewrite Hq.
Qed.

Lemma credibility_zero_becomes_half_witness :
  exists g,
    @gemini_normalise zero_credibility_platform (gemini_answer "{}") = Normal g /\
    Gemini.credibility_score g = (1 # 2)%Q.
Proof.
  assert (exists g, @gemini_normalise zero_credibility_platform (gemini_answer "{}") = Normal g)
    as [g Hg].
  { vm_compute. by eexists. }
  exists g. split; [exact Hg |].
  destruct (@credibility_zero_becomes_half zero_credibility_platform (gemini_answer "{}") "{}"
              (VObj (object [("summary", VStr "No source is cited.");
                             ("credibility_score", VNum 0)])) g) as (_ & Hq & _).
  - vm_compute. reflexivity.
  - vm_compute. reflexivity.
  - exact Hg.
  - apply (Hq 0%Q); [vm_compute; reflexivity | reflexivity].
Defined.


(** ** The capture pipelines off the success path *)

#[export] Instance nothing_kept_preorder : PreOrder nothing_kept.
Proof.
  split.
  - by intros s.
  - intros s1 s2 s3 (? & ? & ? & ?) (? & ? & ? & ?). unfold nothing_kept.
    repeat split; by etrans.
Qed.

Section OffTheSuccessPath.
Context `{Platform}.

Lemma insertAuditLog_nothing_kept t e i m w : preserves nothing_kept (insertAuditLog t e i m w).
Proof.
  intros s. destruct (insertAuditLog_same_memory t e i m w s) as (Hc & _ & Ho & _).
  destruct (insertAuditLog_other_tables t e i m w s) as [He Ht]. by repeat split.
Qed.

Lemma modify_nothing_kept (f : process -> process) :
  (forall s, _db (f s) = _db s) -> (forall s, ENTITY_CACHE (f s) = ENTITY_CACHE s) ->
  (forall s, sent (f s) = sent s) -> preserves nothing_kept (modify f).
Proof.
  intros Hd Hc Ho s. unfold modify, nothing_kept, entities_of, trust_of. simpl.
  by rewrite Hd, Hc, Ho.
Qed.

Ltac nothing_kept_pipeline :=
  repeat first
    [ progress cbv zeta
    | apply insertAuditLog_nothing_kept
    | apply modify_nothing_kept; intros []; reflexivity
    | frame_step ].

Lemma log_nothing_kept line : preserves nothing_kept (log line).
Proof. unfold log. nothing_kept_pipeline. Qed.

Lemma callGeminiAnalysis_nothing_kept t u x r :
  preserves nothing_kept (callGeminiAnalysis t u x r).
Proof. unfold callGeminiAnalysis, log. nothing_kept_pipeline. Qed.

Lemma postImageUrlToBackend_destroyed url w :
  destroyed w = true -> preserves nothing_kept (postImageUrlToBackend url w).
Proof.
  intros Hd. unfold postImageUrlToBackend, analysis_failed, log. rewrite Hd.
  nothing_kept_pipeline.
Qed.

Lemma postTextToBackend_destroyed p w :
  destroyed w = true -> preserves nothing_kept (postTextToBackend p w).
Proof.
  intros Hd. unfold postTextToBackend, analysis_failed, log. rewrite Hd.
  pose proof callGeminiAnalysis_nothing_kept.
  repeat first [ progress cbv zeta | done | nothing_kept_pipeline ].
Qed.

End OffTheSuccessPath.

(** X14. When the window that asked for the analysis is destroyed by the
    time the analyzers have answered, the result is thrown away: whatever
    they answered, no entity is cached, stored or sent and no trust point is
    written, although the image analyzer was called for a valid URL. *)
Theorem destroyed_sender_drops_result `{Platform} (w : world) (s : process) :
  destroyed w = true ->
  (forall url, nothing_kept s (postImageUrlToBackend url w s).2) /\
  (forall p, nothing_kept s (postTextToBackend p w s).2) /\
  (forall url, isValidHttpUrl url = true ->
     image_analyzer_calls url (postImageUrlToBackend url w s).2
     = S (image_analyzer_calls url s)).
Proof.
  intros Hd. split; [| split].
  - intros url. by apply postImageUrlToBackend_destroyed.
  - intros p. by apply postTextToBackend_destroyed.
  - intros url Hv. destruct (postImageUrlToBackend_sightings url url w s) as [_ ->].
    rewrite Hv, String.eqb_refl. simpl. lia.
Qed.

Lemma destroyed_sender_drops_result_witness :
  nothing_kept ready_process (postTextToBackend sample_payload closed_window_world ready_process).2 /\
  image_analyzer_calls sample_image_url
    (postImageUrlToBackend sample_image_url closed_window_world ready_process).2 = 1%nat.
Proof.
  destruct (destroyed_sender_drops_result closed_window_world ready_process eq_refl)
    as (_ & Ht & Hc).
  split; [apply Ht |]. apply Hc. vm_compute. reflexivity.
Defined.

Section AnalysisFailed.
Context `{Platform}.

Lemma analysis_failed_row_written kind url err w s :
  is_Some (_db s) -> storage_fault w = None -> audit_of s !! _uuid w = None ->
  audit_of (analysis_failed kind url err w s).2
  = <[_uuid w := analysis_failed_row kind url err w]> (audit_of s).
Proof.
  intros [tb Hdb] Hf Hfresh.
  unfold analysis_failed, analysis_failed_row, insertAuditLog, _ready, and_then, try_catch,
    read, lift, log, modify, ret, run, audit_of in *.
  destruct s as [db c x l o r]; simpl in *. subst db. simpl. rewrite Hf. simpl.
  rewrite js_or_text. simpl. by rewrite Hfresh.
Qed.

Lemma analysis_failed_never_throws kind url err w s :
  (analysis_failed kind url err w s).1 = Normal tt.
Proof.
  destruct (insertAuditLog_never_throws (VStr "ANALYSIS_FAILED") (VStr "")
              (VStr IMAGE_MONITOR_SESSION_ID)
              (VObj (object [("type", VStr kind); ("url", VStr url);
                             ("error", VStr (substring 0 120 err))])) w s) as [[] Hn].
  exact Hn.
Qed.

Lemma wp_failure_handler kind url e w s s1 line :
  same_store s s1 ->
  wp (log line ;; analysis_failed kind url e (io_audit w)) (handled kind url e w s) s1.
Proof.
  intros (Hd & Hc & _ & Ho). apply wp_bind, wp_log. cbn beta iota.
  set (s2 := add_console _ s1).
  assert (_db s2 = _db s) as Hd2 by (destruct s1; exact Hd).
  assert (ENTITY_CACHE s2 = ENTITY_CACHE s) as Hc2 by (destruct s1; exact Hc).
  assert (sent s2 = sent s) as Ho2 by (destruct s1; exact Ho).
  destruct (analysis_failed_recorded kind url e (io_audit w) s2) as ((Hc' & _ & Ho' & _) & He & _).
  destruct (insertAuditLog_other_tables (VStr "ANALYSIS_FAILED") (VStr "")
              (VStr IMAGE_MONITOR_SESSION_ID)
              (VObj (object [("type", VStr kind); ("url", VStr url);
                             ("error", VStr (substring 0 120 e))])) (io_audit w) s2) as [_ Ht].
  fold (analysis_failed kind url e (io_audit w)) in Ht.
  unfold wp, handled. split; [apply analysis_failed_never_throws |]. split.
  - unfold nothing_kept. rewrite Hc', Ho', He, Ht. unfold entities_of, trust_of.
    by rewrite Hd2, Hc2, Ho2.
  - intros Hdb Hf Hfresh.
    rewrite analysis_failed_row_written; [| by rewrite Hd2 | done |].
    + unfold audit_of. by rewrite Hd2.
    + unfold audit_of in *. by rewrite Hd2.
Qed.

Lemma postImageUrlToBackend_exception url w s e :
  isValidHttpUrl url = true -> primary_error (primary w) "risk_level" = Some e ->
  wp (postImageUrlToBackend url w) (handled "IMAGE" url e w s) s.
Proof.
  intros Hv He. unfold postImageUrlToBackend. rewrite Hv. cbn [negb].
  apply wp_try, wp_bind, wp_log. cbn beta iota.
  apply wp_bind, wp_modify. cbn beta iota.
  unfold primary_error in He.
  destruct (primary w) as [e' | [] status body]; [| | done].
  - injection He as ->. apply wp_throw, wp_failure_handler. by destruct s.
  - cbn [negb]. apply wp_bind, wp_lift.
    destruct (res_json body) as [analysis | e'].
    + cbn beta iota. apply wp_bind, wp_lift.
      destruct (prop analysis "risk_level") as [v | e']; [done |].
      injection He as ->. apply wp_failure_handler. by destruct s.
    + injection He as ->. apply wp_failure_handler. by destruct s.
Qed.

Lemma postTextToBackend_exception p w s e :
  isValidHttpUrl (TextPayload.url p) = true ->
  primary_error (primary w) "misinformation_risk" = Some e ->
  wp (postTextToBackend p w) (handled "TEXT" (TextPayload.url p) e w s) s.
Proof.
  intros Hv He. unfold postTextToBackend. rewrite Hv. cbn [negb].
  apply wp_try, wp_bind, wp_log. cbn beta iota.
  apply wp_bind, wp_modify. cbn beta iota.
  apply wp_bind, wp_callGeminiAnalysis. intros s3 Hs3 _. cbn beta iota.
  assert (same_store s s3) as Hs.
  { destruct Hs3 as (? & ? & ? & ?). by destruct s. }
  unfold primary_error in He.
  destruct (primary w) as [e' | [] status body]; [| | done].
  - injection He as ->. by apply wp_throw, wp_failure_handler.
  - cbn [negb]. apply wp_bind, wp_lift.
    destruct (res_json body) as [analysis | e'].
    + cbn beta iota. apply wp_bind, wp_lift.
      destruct (prop analysis "misinformation_risk") as [v | e']; [done |].
      injection He as ->. by apply wp_failure_handler.
    + injection He as ->. by apply wp_failure_handler.
Qed.

Lemma postTextToBackend_http_error p w s status body :
  isValidHttpUrl (TextPayload.url p) = true ->
  primary w = Response false status body ->
  wp (postTextToBackend p w)
    (fun c s' =>
       c = Normal tt /\ same_store s s' /\
       requests s' = (requests s ++
         [TextMonitorRequest (<["session_id" := VStr IMAGE_MONITOR_SESSION_ID]>
                                (TextPayload.to_object p));
          GeminiRequest (TextPayload.title p) (TextPayload.url p) (TextPayload.text p)])%list) s.
Proof.
  intros Hv Hp. unfold postTextToBackend. rewrite Hv. cbn [negb].
  apply wp_try, wp_bind, wp_log. cbn beta iota.
  apply wp_bind, wp_modify. cbn beta iota.
  apply wp_bind, wp_callGeminiAnalysis. intros s3 (Hd & Hc & Hx & Ho) Hr. cbn beta iota.
  rewrite Hp. cbn [negb]. apply wp_log.
  split; [done |]. destruct s, s3; simpl in *. subst.
  split; [done |]. by rewrite <- app_assoc.
Qed.

End AnalysisFailed.

(** X15. A failed analysis is contained and audited.  When the request to
    the primary analyzer is rejected, or its 2xx answer has a body that is
    not JSON or is [null], either capture pipeline returns normally, keeps
    no entity, trust point or message, and writes exactly one audit event:
    ANALYSIS_FAILED with the kind of capture, its URL, the first 120
    characters of the error message, the monitor session and the time of
    the write.  For a rejected request the message is the rejection's. *)
Theorem analysis_exception_audited `{Platform} (w : world) (s : process) :
  is_Some (_db s) -> storage_fault (io_audit w) = None ->
  audit_of s !! _uuid (io_audit w) = None ->
  (forall url, isValidHttpUrl url = true ->
     is_Some (primary_error (primary w) "risk_level") ->
     (postImageUrlToBackend url w s).1 = Normal tt /\
     nothing_kept s (postImageUrlToBackend url w s).2 /\
     exists err,
       audit_of (postImageUrlToBackend url w s).2
       = <[_uuid (io_audit w) := analysis_failed_row "IMAGE" url err (io_audit w)]> (audit_of s) /\
       forall e, primary w = NetworkError e -> err = e) /\
  (forall p, isValidHttpUrl (TextPayload.url p) = true ->
     is_Some (primary_error (primary w) "misinformation_risk") ->
     (postTextToBackend p w s).1 = Normal tt /\
     nothing_kept s (postTextToBackend p w s).2 /\
     exists err,
       audit_of (postTextToBackend p w s).2
       = <[_uuid (io_audit w) := analysis_failed_row "TEXT" (TextPayload.url p) err (io_audit w)]>
           (audit_of s) /\
       forall e, primary w = NetworkError e -> err = e).
Proof.
  intros Hdb Hf Hfresh. split.
  - intros url Hv [err He].
    destruct (postImageUrlToBackend_exception url w s err Hv He) as (Hn & Hk & Ha).
    split; [exact Hn |]. split; [exact Hk |]. exists err. split; [by apply Ha |].
    intros e Hp. rewrite Hp in He. simpl in He. congruence.
  - intros p Hv [err He].
    destruct (postTextToBackend_exception p w s err Hv He) as (Hn & Hk & Ha).
    split; [exact Hn |]. split; [exact Hk |]. exists err. split; [by apply Ha |].
    intros e Hp. rewrite Hp in He. simpl in He. congruence.
Qed.

Lemma analysis_exception_audited_witness :
  (exists err,
     audit_of (postTextToBackend sample_payload null_answer_world ready_process).2
     = {[ _uuid (io_audit null_answer_world) :=
            analysis_failed_row "TEXT" (TextPayload.url sample_payload) err
              (io_audit null_answer_world) ]}) /\
  exists err,
    audit_of (postImageUrlToBackend sample_image_url unreachable_world ready_process).2
    = {[ _uuid (io_audit unreachable_world) :=
           analysis_failed_row "IMAGE" sample_image_url err (io_audit unreachable_world) ]}.
Proof.
  split.
  - destruct (analysis_exception_audited null_answer_world ready_process)
      as [_ Ht]; [by eexists | reflexivity | reflexivity |].
    destruct (Ht sample_payload) as (_ & _ & err & Ha & _);
      [vm_compute; reflexivity | by eexists |].
    exists err. exact Ha.
  - destruct (analysis_exception_audited unreachable_world ready_process)
      as [Hi _]; [by eexists | reflexivity | reflexivity |].
    destruct (Hi sample_image_url) as (_ & _ & err & Ha & _);
      [vm_compute; reflexivity | by eexists |].
    exists err. exact Ha.
Defined.

(** X16. A status of the text monitor that is not 2xx is dropped without a
    trace in the store: the text pipeline returns normally and the database
    (so the audit log too), the cache and the sent messages are as before,
    although both the text monitor and the enrichment service were asked. *)
Theorem text_http_error_not_audited `{Platform} (p : TextPayload.t) (w : world) (s : process)
    (status : Z) (body : option value) :
  isValidHttpUrl (TextPayload.url p) = true ->
  primary w = Response false status body ->
  (postTextToBackend p w s).1 = Normal tt /\
  same_store s (postTextToBackend p w s).2 /\
  audit_of (postTextToBackend p w s).2 = audit_of s /\
  requests (postTextToBackend p w s).2
  = (requests s ++
       [TextMonitorRequest (<["session_id" := VStr IMAGE_MONITOR_SESSION_ID]>
                              (TextPayload.to_object p));
        GeminiRequest (TextPayload.title p) (TextPayload.url p) (TextPayload.text p)])%list.
Proof.
  intros Hv Hp.
  destruct (postTextToBackend_http_error p w s status body Hv Hp) as (Hn & Hs & Hr).
  split; [exact Hn |]. split; [exact Hs |]. split; [| exact Hr].
  unfold audit_of. by destruct Hs as [-> _].
Qed.

Lemma text_http_error_not_audited_witness :
  audit_of (postTextToBackend sample_payload http_error_world ready_process).2 = ∅ /\
  length (requests (postTextToBackend sample_payload http_error_world ready_process).2) = 2%nat.
Proof.
  destruct (text_http_error_not_audited sample_payload http_error_world ready_process 500 None)
    as (_ & _ & Ha & Hr); [vm_compute; reflexivity | reflexivity |].
  split; [exact Ha |]. rewrite Hr. reflexivity.
Defined.

Section ManualFailure.
Context `{Platform}.

Lemma analyze_manual_text_failure text title w s :
  (forall status data, primary w <> Response true status (Some data)) ->
  wp (analyze_manual_text text title w)
    (fun c s' =>
       match primary w with
       | NetworkError e => c = Normal (failure e) /\ same_store s s'
       | Response false status _ =>
           c = Normal (failure ("HTTP " +:+ dec status)) /\ same_store s s'
       | Response true _ None => (exists e, c = Normal (failure e)) /\ same_store s s'
       | Response true _ (Some _) => True
       end) s.
Proof.
  intros Hfail. unfold analyze_manual_text.
  apply wp_try, wp_bind, wp_modify. cbn beta iota.
  apply wp_bind, wp_callGeminiAnalysis. intros s3 Hs3 _. cbn beta iota.
  assert (same_store s s3) as Hs.
  { destruct Hs3 as (? & ? & ? & ?). by destruct s. }
  assert (forall line, same_store s (add_console line s3)) as Hlog.
  { intros line. destruct Hs as (? & ? & ? & ?). by destruct s3. }
  destruct (primary w) as [e | [] status [data |]].
  - apply wp_throw, wp_bind, wp_log, wp_ret. by split.
  - exfalso. by apply (Hfail status data).
  - apply wp_bind, wp_lift. simpl. apply wp_bind, wp_log, wp_ret. split; [by eexists | done].
  - simpl. by apply wp_ret.
  - simpl. by apply wp_ret.
Qed.

End ManualFailure.

(** X29. A manual text analysis that fails is reported to the caller and
    leaves no trace: on a status that is not 2xx, a rejected request or a
    2xx body that is not JSON the handler returns [{ success: false, error }]
    and the database, the cache and the sent messages are as before; unlike
    the capture pipelines it writes no ANALYSIS_FAILED event. *)
Theorem manual_text_failure_silent `{Platform} (text title : string) (w : world) (s : process) :
  (forall status data, primary w <> Response true status (Some data)) ->
  (exists error, (analyze_manual_text text title w s).1 = Normal (failure error) /\
     (forall e, primary w = NetworkError e -> error = e) /\
     (forall status body, primary w = Response false status body ->
        error = "HTTP " +:+ dec status)) /\
  same_store s (analyze_manual_text text title w s).2 /\
  audit_of (analyze_manual_text text title w s).2 = audit_of s.
Proof.
  intros Hfail. pose proof (analyze_manual_text_failure text title w s Hfail) as Hwp.
  unfold wp in Hwp.
  assert ((exists error, (analyze_manual_text text title w s).1 = Normal (failure error) /\
             (forall e, primary w = NetworkError e -> error = e) /\
             (forall status body, primary w = Response false status body ->
                error = "HTTP " +:+ dec status)) /\
          same_store s (analyze_manual_text text title w s).2) as [Hr Hs].
  { destruct (primary w) as [e | [] status [data |]].
    - destruct Hwp as [Hr Hs]. split; [| exact Hs]. exists e. split; [exact Hr |].
      split; [by intros ? [= ->] | done].
    - exfalso. by apply (Hfail status data).
    - destruct Hwp as [[e Hr] Hs]. split; [| exact Hs]. exists e. split; [exact Hr |].
      split; done.
    - destruct Hwp as [Hr Hs]. split; [| exact Hs]. eexists. split; [exact Hr |].
      split; [done | by intros ? ? [= <-]].
    - destruct Hwp as [Hr Hs]. split; [| exact Hs]. eexists. split; [exact Hr |].
      split; [done | by intros ? ? [= <-]]. }
  split; [exact Hr |]. split; [exact Hs |]. unfold audit_of. by destruct Hs as [-> _].
Qed.

Lemma manual_text_failure_silent_witness :
  (analyze_manual_text "The council voted on the budget." "" unreachable_world ready_process).1
  = Normal (failure "TypeError: fetch failed") /\
  audit_of (analyze_manual_text "The council voted on the budget." "" unreachable_world
              ready_process).2 = ∅.
Proof.
  destruct (manual_text_failure_silent "The council voted on the budget." "" unreachable_world
              ready_process) as ((error & Hr & He & _) & _ & Ha).
  - discriminate.
  - split; [| exact Ha]. rewrite Hr. by rewrite (He "TypeError: fetch failed" eq_refl).
Defined.


(** ** Looking an entity up *)

Section EntityDetails.
Context `{Platform}.

Lemma insertAuditLog_row_written t id sess meta w s :
  is_Some (_db s) -> storage_fault w = None -> audit_of s !! _uuid w = None ->
  audit_of (insertAuditLog (VStr t) (VStr id) (VStr sess) (VObj meta) w s).2
  = <[_uuid w := AuditLog.Row t (Some id) (Some sess) (Some (_nowIso w))
                   (JSON_stringify (VObj meta))]> (audit_of s).
Proof.
  intros [tb Hdb] Hf Hfresh.
  unfold insertAuditLog, _ready, and_then, try_catch, read, lift, log, modify, ret, run,
    audit_of in *.
  destruct s as [db c x l o r]; simpl in *. subst db. simpl. rewrite Hf. simpl.
  rewrite !js_or_text. simpl. by rewrite Hfresh.
Qed.

(** The three ways [entity:details] ends. *)
Lemma entity_details_cases id w s :
  let v := default VUndef (ENTITY_CACHE s !! id) in
  let found := (fun r => read_row (id, r)) <$> entities_of s !! id in
  let r := entity_details id w s in
  (id = "" /\ r = (Normal VNull, s)) \/
  (id <> "" /\ truthy v = true /\
   r = (Normal v, (insertAuditLog (VStr "ENTITY_VIEWED") (VStr id) (VStr "")
                     (VObj (object [("source", VStr "cache")])) w s).2)) \/
  (id <> "" /\ truthy v = false /\ found = None /\ r.1 = Normal VNull /\ same_store s r.2) \/
  (exists row, id <> "" /\ truthy v = false /\ found = Some row /\
     r = (Normal (VObj (restore_entity row)),
          (insertAuditLog (VStr "ENTITY_VIEWED") (VStr id) (VStr "")
             (VObj (object [("source", VStr "db_restore")])) w
             (set_cache (<[id := VObj (restore_entity row)]> (ENTITY_CACHE s)) s)).2)).
Proof.
  intros v found r. assert (r = entity_details id w s) as Hr by reflexivity.
  clearbody r. subst v found. unfold entity_details in Hr.
  destruct (String.eqb_spec id "") as [-> | Hid]; [by left |]. right.
  unfold and_then at 1 in Hr. unfold read at 1 in Hr.
  change ((Normal (ENTITY_CACHE s), s).1) with (Normal (ENTITY_CACHE s)) in Hr.
  cbv beta iota in Hr.
  destruct (truthy (default VUndef (ENTITY_CACHE s !! id))) eqn:Hv.
  - left. split; [done |]. split; [done |]. unfold and_then, ret in Hr.
    match type of Hr with context [insertAuditLog ?a ?b ?c ?d ?e ?f] =>
      destruct (insertAuditLog_never_throws a b c d e f) as [[] Hn];
      destruct (insertAuditLog a b c d e f) as [c' s'] end.
    simpl in Hn. by subst c'.
  - right. pose proof Hid as Hne. apply String.eqb_neq in Hid.
    unfold getEntity, _ready, try_catch, and_then, read, lift, ret, cache_set, modify, log in Hr.
    unfold entities_of, entities_in.
    destruct s as [[tb |] c x l o rq]; simpl in *; rewrite ?Hid in Hr; simpl in Hr.
    + destruct (entities tb !! id) as [row |] eqn:Hrow; simpl in *.
      * right. exists (read_row (id, row)).
        split; [done |]. split; [done |]. split; [done |].
        match type of Hr with context [insertAuditLog ?a ?b ?c ?d ?e ?f] =>
          destruct (insertAuditLog_never_throws a b c d e f) as [[] Hn];
          destruct (insertAuditLog a b c d e f) as [c' s'] end.
        simpl in Hn. by subst c'.
      * left. subst r. by repeat split.
    + left. subst r. by repeat split.
Qed.

End EntityDetails.

(** X17. A lookup of an entity that is neither in the cache nor in the
    table [entities], or of the empty id, answers [null] and changes
    nothing: no cache entry, no row and no audit event. *)
Theorem entity_details_unknown `{Platform} (id : string) (w : io) (s : process) :
  id = "" \/ (ENTITY_CACHE s !! id = None /\ entities_of s !! id = None) ->
  (entity_details id w s).1 = Normal VNull /\
  same_store s (entity_details id w s).2 /\
  audit_of (entity_details id w s).2 = audit_of s.
Proof.
  intros Hu.
  assert ((entity_details id w s).1 = Normal VNull /\ same_store s (entity_details id w s).2)
    as [Hr Hs].
  { destruct (entity_details_cases id w s)
      as [[_ ->] | [(Hid & Hv & _) | [(_ & _ & _ & Hr & Hs) | (row & Hid & _ & Hf & _)]]].
    - done.
    - destruct Hu as [-> | [Hc _]]; [done |]. by rewrite Hc in Hv.
    - done.
    - destruct Hu as [-> | [_ He]]; [done |]. by rewrite He in Hf. }
  split; [exact Hr |]. split; [exact Hs |]. unfold audit_of. by destruct Hs as [-> _].
Qed.

Lemma entity_details_unknown_witness :
  (entity_details "0000000000000000" viewer sample_store).1 = Normal VNull /\
  audit_of (entity_details "0000000000000000" viewer sample_store).2 = ∅.
Proof.
  destruct (entity_details_unknown "0000000000000000" viewer sample_store) as (Hr & _ & Ha).
  - right. split; vm_compute; reflexivity.
  - split; [exact Hr | exact Ha].
Defined.

(** X18. A lookup that found an entity can be repeated: the object it
    returned is in the cache under the id, and any later lookup of the id in
    that state returns the same object and leaves the cache as it is. *)
Theorem entity_details_repeatable `{Platform} (id : string) (w w' : io) (s : process)
    (v : value) :
  (entity_details id w s).1 = Normal v -> v <> VNull ->
  ENTITY_CACHE (entity_details id w s).2 !! id = Some v /\
  (entity_details id w' (entity_details id w s).2).1 = Normal v /\
  ENTITY_CACHE (entity_details id w' (entity_details id w s).2).2
  = ENTITY_CACHE (entity_details id w s).2.
Proof.
  intros Hr Hv.
  assert (id <> "" /\ truthy v = true /\ ENTITY_CACHE (entity_details id w s).2 !! id = Some v)
    as (Hid & Ht & Hc).
  { destruct (entity_details_cases id w s)
      as [[_ E] | [(Hid & Ht & E) | [(_ & _ & _ & E & _) | (row & Hid & _ & _ & E)]]].
    - rewrite E in Hr. simpl in Hr. congruence.
    - rewrite E in *. simpl in Hr. injection Hr as <-. split; [done |]. split; [done |].
      cbn [snd]. destruct (insertAuditLog_same_memory (VStr "ENTITY_VIEWED") (VStr id) (VStr "")
              (VObj (object [("source", VStr "cache")])) w s) as (-> & _).
      destruct (ENTITY_CACHE s !! id); [done | by simpl in Ht].
    - rewrite E in Hr. congruence.
    - rewrite E in *. simpl in Hr. injection Hr as <-. split; [done |]. split; [done |].
      cbn [snd]. match goal with |- context [insertAuditLog ?a ?b ?c ?d ?e ?f] =>
        destruct (insertAuditLog_same_memory a b c d e f) as (-> & _) end.
      destruct s. simpl. by rewrite lookup_insert_eq. }
  split; [exact Hc |].
  destruct (entity_details_cases id w' (entity_details id w s).2)
    as [[E _] | [(_ & _ & E) | [(_ & Hf & _) | (row & _ & Hf & _)]]].
  - done.
  - rewrite E. cbn [fst snd]. rewrite Hc. split; [done |].
    match goal with |- context [insertAuditLog ?a ?b ?c ?d ?e ?f] =>
      by destruct (insertAuditLog_same_memory a b c d e f) as (-> & _) end.
  - rewrite Hc in Hf. simpl in Hf. congruence.
  - rewrite Hc in Hf. simpl in Hf. congruence.
Qed.

Lemma entity_details_repeatable_witness :
  (entity_details "6b1f0c5e8a9b3d4c" second_viewer
     (entity_details "6b1f0c5e8a9b3d4c" viewer sample_store).2).1
  = Normal (VObj (restore_entity (read_row ("6b1f0c5e8a9b3d4c", sample_stored_row)))).
Proof.
  apply (entity_details_repeatable "6b1f0c5e8a9b3d4c" viewer second_viewer sample_store).
  - vm_compute. reflexivity.
  - discriminate.
Defined.

(** X19. Every lookup that finds an entity is audited: with the database
    open, no storage fault and a fresh event id, it adds exactly one event
    ENTITY_VIEWED for the id, whose metadata name the cache or the database
    as the place the entity came from, and leaves the tables [entities] and
    [trust_history] as they are. *)
Theorem entity_view_audited `{Platform} (id : string) (w : io) (s : process) (v : value) :
  (entity_details id w s).1 = Normal v -> v <> VNull ->
  is_Some (_db s) -> storage_fault w = None -> audit_of s !! _uuid w = None ->
  audit_of (entity_details id w s).2
  = <[_uuid w := entity_viewed_row id (found_in id s) w]> (audit_of s) /\
  entities_of (entity_details id w s).2 = entities_of s /\
  trust_of (entity_details id w s).2 = trust_of s.
Proof.
  intros Hr Hv Hdb Hf Hfresh. unfold entity_viewed_row, found_in.
  destruct (entity_details_cases id w s)
    as [[_ E] | [(Hid & Ht & E) | [(_ & _ & _ & E & _) | (row & Hid & Ht & _ & E)]]].
  - rewrite E in Hr. simpl in Hr. congruence.
  - rewrite E, Ht. cbn [snd]. split; [by apply insertAuditLog_row_written |].
    apply insertAuditLog_other_tables.
  - rewrite E in Hr. congruence.
  - rewrite E, Ht. cbn [snd].
    set (s1 := set_cache _ s).
    assert (_db s1 = _db s) as Hd1 by by destruct s.
    split.
    + rewrite insertAuditLog_row_written; unfold audit_of in *; rewrite ?Hd1; done.
    + destruct (insertAuditLog_other_tables (VStr "ENTITY_VIEWED") (VStr id) (VStr "")
                  (VObj (object [("source", VStr "db_restore")])) w s1) as [-> ->].
      unfold entities_of, trust_of. by rewrite Hd1.
Qed.

Lemma entity_view_audited_witness :
  audit_of (entity_details "6b1f0c5e8a9b3d4c" viewer sample_store).2
  = <[_uuid viewer := entity_viewed_row "6b1f0c5e8a9b3d4c"
                        (found_in "6b1f0c5e8a9b3d4c" sample_store) viewer]>
      (audit_of sample_store) /\
  found_in "6b1f0c5e8a9b3d4c" sample_store = "db_restore".
Proof.
  split; [| reflexivity].
  eapply (entity_view_audited "6b1f0c5e8a9b3d4c" viewer sample_store).
  - vm_compute. reflexivity.
  - discriminate.
  - by eexists.
  - reflexivity.
  - reflexivity.
Defined.


(** ** What a text capture persists *)

Section TextPersistence.
Context `{Platform}.

Lemma text_row_entity_id c entity w kid row :
  insertEntity_params (text_row (entity_digest c) entity) w = Normal (kid, row) ->
  kid = Some (entity_digest c) /\ Entities.entity_type row = "TEXT".
Proof.
  intros Hp. split.
  - apply insertEntity_params_id in Hp. unfold text_row in Hp.
    rewrite opt_prop_object in Hp. simpl in Hp. unfold js_or in Hp.
    rewrite entity_digest_truthy in Hp. by injection Hp as <-.
  - apply insertEntity_params_upper in Hp. unfold text_row in Hp.
    rewrite opt_prop_object in Hp. simpl in Hp. unfold js_or in Hp. simpl in Hp.
    change (negb (String.eqb "TEXT" "")) with true in Hp. cbv iota in Hp.
    change (toUpperCase (VStr "TEXT")) with (Normal "TEXT") in Hp. by injection Hp as <-.
Qed.

Lemma text_capture_row p w s status analysis kid row :
  isValidHttpUrl (TextPayload.url p) = true ->
  primary w = Response true status (Some analysis) ->
  is_nullish analysis = false -> destroyed w = false ->
  is_Some (_db s) -> storage_fault (io_entity w) = None ->
  let id := text_entity_id (TextPayload.url p) (TextPayload.title p) in
  let entity := text_entity id p analysis (enrichment_result (enrichment w)) (detected_now w) in
  insertEntity_params (text_row id entity) (io_entity w) = Normal (kid, row) ->
  ENTITY_CACHE (postTextToBackend p w s).2 !! id = Some (VObj entity) /\
  entities_of (postTextToBackend p w s).2 !! id = Some row.
Proof.
  intros Hv Hp Ha Hd [tb Hdb] Hf id entity Hrow.
  destruct (text_row_entity_id _ _ _ _ _ Hrow) as [-> Hty].
  change (entity_digest _) with id in *.
  destruct (postTextToBackend_success p w s status analysis Hv Hp Ha Hd)
    as (_ & Hc & _ & _ & He & _).
  fold id in Hc, He. fold entity in Hc, He. rewrite Hc, He, lookup_insert_eq.
  split; [done |].
  unfold statement_effect, insertEntity_statement. rewrite Hdb, Hf, Hrow. simpl.
  rewrite bool_decide_eq_true_2.
  - simpl. by rewrite lookup_insert_eq.
  - rewrite Hty. unfold entity_types. rewrite !elem_of_cons. tauto.
Qed.

Lemma text_row_title id entity w kid row :
  entity !! "content_title" = None ->
  insertEntity_params (text_row id entity) w = Normal (kid, row) ->
  Entities.title row = Some "".
Proof.
  intros Hc. unfold insertEntity_params, text_row. rewrite !opt_prop_object.
  unfold field. rewrite Hc. simpl. intros Hp.
  repeat (case_match; simplify_eq; try done).
Qed.

Lemma text_row_blob id entity w kid row k :
  insertEntity_params (text_row id entity) w = Normal (kid, row) ->
  k ∉ text_blob_keys ->
  spread (parse_analysis (Entities.analysis_json row)) !! k = None.
Proof.
  intros Hp Hk. rewrite (insertEntity_params_analysis _ _ _ _ Hp).
  unfold text_row. rewrite opt_prop_object. simpl. unfold js_or. simpl.
  unfold JSON_stringify. simpl. rewrite lookup_omap, lookup_object.
  rewrite binding_absent; [done |]. exact Hk.
Qed.

End TextPersistence.

(** X20. The title column of a text capture is not the captured title: the
    row takes its title from the key [content_title] of the reconciled
    entity, which the captured payload does not have.  Unless the analyzer
    answers with a [content_title], the row is stored with an empty title,
    while the cached entity keeps the captured title. *)
Theorem text_title_not_persisted `{Platform} (p : TextPayload.t) (w : world) (s : process)
    (status : Z) (answer : gmap string value) (kid : option string) (row : Entities.row) :
  isValidHttpUrl (TextPayload.url p) = true ->
  primary w = Response true status (Some (VObj answer)) ->
  destroyed w = false ->
  is_Some (_db s) -> storage_fault (io_entity w) = None ->
  answer !! "content_title" = None -> answer !! "title" = None ->
  let id := text_entity_id (TextPayload.url p) (TextPayload.title p) in
  let entity := text_entity id p (VObj answer) (enrichment_result (enrichment w))
                  (detected_now w) in
  insertEntity_params (text_row id entity) (io_entity w) = Normal (kid, row) ->
  entities_of (postTextToBackend p w s).2 !! id = Some row /\
  Entities.title row = Some "" /\
  ENTITY_CACHE (postTextToBackend p w s).2 !! id = Some (VObj entity) /\
  entity !! "title" = Some (VStr (TextPayload.title p)).
Proof.
  intros Hv Hp Hd Hdb Hf Hct Ht id entity Hrow.
  destruct (text_capture_row p w s status (VObj answer) kid row Hv Hp eq_refl Hd Hdb Hf Hrow)
    as [Hc He].
  assert (forall g k, k ∈ ["content_title"; "title"] -> enrichment_fields g !! k = None) as Hg.
  { intros g k Hk. unfold enrichment_fields. destruct g; rewrite lookup_object;
      rewrite !elem_of_cons in Hk; destruct Hk as [-> | [-> | Hk]]; try reflexivity;
      by apply elem_of_nil in Hk. }
  split; [exact He |]. split; [| split; [exact Hc |]].
  - apply (text_row_title id entity (io_entity w) kid); [| exact Hrow].
    unfold entity. rewrite lookup_text_entity; [| done].
    rewrite Hg; [| rewrite !elem_of_cons; tauto].
    rewrite lookup_primary_entity. simpl. rewrite Hct. reflexivity.
  - unfold entity. rewrite lookup_text_entity; [| done].
    rewrite Hg; [| rewrite !elem_of_cons; tauto].
    rewrite lookup_primary_entity. simpl. rewrite Ht. reflexivity.
Qed.

Lemma text_title_not_persisted_witness :
  exists row,
    entities_of (postTextToBackend sample_payload offline_enrichment_world ready_process).2
      !! text_entity_id (TextPayload.url sample_payload) (TextPayload.title sample_payload)
    = Some row /\
    Entities.title row = Some "".
Proof.
  assert (exists row,
            insertEntity_params
              (text_row (text_entity_id (TextPayload.url sample_payload)
                           (TextPayload.title sample_payload))
                 (text_entity (text_entity_id (TextPayload.url sample_payload)
                                 (TextPayload.title sample_payload))
                    sample_payload (VObj (spread sample_primary_analysis))
                    (enrichment_result (enrichment offline_enrichment_world))
                    (detected_now offline_enrichment_world)))
              (io_entity offline_enrichment_world)
            = Normal (Some (text_entity_id (TextPayload.url sample_payload)
                              (TextPayload.title sample_payload)), row)) as [row Hrow].
  { vm_compute. eexists. reflexivity. }
  exists row.
  destruct (text_title_not_persisted sample_payload offline_enrichment_world ready_process 200
              (spread sample_primary_analysis)
              (Some (text_entity_id (TextPayload.url sample_payload)
                 (TextPayload.title sample_payload))) row) as (He & Ht & _).
  - vm_compute. reflexivity.
  - reflexivity.
  - reflexivity.
  - by eexists.
  - reflexivity.
  - vm_compute. reflexivity.
  - vm_compute. reflexivity.
  - exact Hrow.
  - split; [exact He | exact Ht].
Defined.

Section Forgetting.
Context `{Platform}.

Lemma restored_keys r k :
  k ∉ restored_columns -> spread (analysis r) !! k = None -> restore_entity r !! k = None.
Proof.
  intros Hk Hb. rewrite lookup_restore_entity, Hb. cbv zeta.
  rewrite binding_absent; [done |]. exact Hk.
Qed.

Lemma text_entity_always id p analysis gemini t k :
  k ∈ ["ai_summary"; "topic"; "key_claims"; "word_count"; "timestamp"] ->
  is_Some (text_entity id p analysis gemini t !! k).
Proof.
  intros Hk. rewrite lookup_text_entity.
  - rewrite lookup_primary_entity. unfold enrichment_fields.
    rewrite !elem_of_cons in Hk.
    destruct Hk as [-> | [-> | [-> | [-> | [-> | Hk]]]]]; [| | | | | by apply elem_of_nil in Hk];
      destruct gemini; rewrite lookup_object; simpl; try (by eexists);
      destruct (spread analysis !! _); by eexists.
  - intros ->. rewrite !elem_of_cons in Hk.
    destruct Hk as [Hk | [Hk | [Hk | [Hk | [Hk | Hk]]]]]; try discriminate.
    by apply elem_of_nil in Hk.
Qed.

End Forgetting.

(** X21. A restart forgets what the enrichment added to a text capture.
    The stored row keeps the columns and an analysis blob of three scores
    only, so the lookup of the entity after a restart returns an object
    whose keys are among the restored columns and those three: the summary,
    the topic, the key claims, the word count and the timestamp, all present
    in the entity cached before the restart, are gone. *)
Theorem restart_forgets_enrichment `{Platform} (p : TextPayload.t) (w : world) (s : process)
    (status : Z) (answer : value) (kid : option string) (row : Entities.row) (w' : io) :
  isValidHttpUrl (TextPayload.url p) = true ->
  primary w = Response true status (Some answer) ->
  is_nullish answer = false -> destroyed w = false ->
  is_Some (_db s) -> storage_fault (io_entity w) = None ->
  let id := text_entity_id (TextPayload.url p) (TextPayload.title p) in
  let entity := text_entity id p answer (enrichment_result (enrichment w)) (detected_now w) in
  insertEntity_params (text_row id entity) (io_entity w) = Normal (kid, row) ->
  let found := restore_entity (read_row (id, row)) in
  ENTITY_CACHE (postTextToBackend p w s).2 !! id = Some (VObj entity) /\
  (entity_details id w' (restart (postTextToBackend p w s).2).2).1 = Normal (VObj found) /\
  (forall k, k ∉ (restored_columns ++ text_blob_keys)%list -> found !! k = None) /\
  (forall k, k ∈ ["ai_summary"; "topic"; "key_claims"; "word_count"; "timestamp"] ->
             is_Some (entity !! k) /\ found !! k = None).
Proof.
  intros Hv Hp Ha Hd Hdb Hf id entity Hrow found.
  destruct (text_capture_row p w s status answer kid row Hv Hp Ha Hd Hdb Hf Hrow) as [Hc He].
  fold id in Hc, He. fold entity in Hc.
  assert (forall k, k ∉ (restored_columns ++ text_blob_keys)%list -> found !! k = None) as Hgone.
  { intros k Hk. apply not_elem_of_app in Hk as [Hcol Hblob].
    apply restored_keys; [exact Hcol |]. simpl. by apply (text_row_blob id entity (io_entity w) kid). }
  split; [exact Hc |]. split; [| split; [exact Hgone |]].
  - unfold entities_of in He.
    destruct (_db (postTextToBackend p w s).2) as [tb' |] eqn:Hdb'; [| done].
    destruct (restart_restored _ tb' Hdb') as [_ Hr].
    apply (entity_details_restored tb'); [exact Hr | exact He |].
    intros E. pose proof (length_entity_digest
      ("text-" +:+ TextPayload.url p +:+ "-" +:+ TextPayload.title p)) as Hl.
    fold (text_entity_id (TextPayload.url p) (TextPayload.title p)) in Hl. fold id in Hl.
    by rewrite E in Hl.
  - intros k Hk. split; [by apply text_entity_always |]. apply Hgone.
    unfold restored_columns, text_blob_keys. simpl. rewrite !elem_of_cons in *.
    intros Hin. 
    destruct Hk as [-> | [-> | [-> | [-> | [-> | Hk]]]]]; [| | | | | by apply elem_of_nil in Hk];
      repeat (destruct Hin as [Hin | Hin]; [discriminate |]); by apply elem_of_nil in Hin.
Qed.

Lemma restart_forgets_enrichment_witness :
  (exists entity,
     ENTITY_CACHE (postTextToBackend sample_payload engine_world ready_process).2
       !! text_entity_id (TextPayload.url sample_payload) (TextPayload.title sample_payload)
     = Some (VObj entity) /\
     is_Some (entity !! "ai_summary")) /\
  exists found,
    (entity_details
       (text_entity_id (TextPayload.url sample_payload) (TextPayload.title sample_payload))
       viewer (restart (postTextToBackend sample_payload engine_world ready_process).2).2).1
    = Normal (VObj found) /\
    found !! "ai_summary" = None.
Proof.
  assert (exists row,
            insertEntity_params
              (text_row (text_entity_id (TextPayload.url sample_payload)
                           (TextPayload.title sample_payload))
                 (text_entity (text_entity_id (TextPayload.url sample_payload)
                                 (TextPayload.title sample_payload))
                    sample_payload (text_monitor_answer 100 (2 # 10) "LOW")
                    (enrichment_result (enrichment engine_world))
                    (detected_now engine_world)))
              (io_entity engine_world)
            = Normal (Some (text_entity_id (TextPayload.url sample_payload)
                              (TextPayload.title sample_payload)), row)) as [row Hrow].
  { vm_compute. eexists. reflexivity. }
  destruct (restart_forgets_enrichment sample_payload engine_world ready_process 200
              (text_monitor_answer 100 (2 # 10) "LOW")
              (Some (text_entity_id (TextPayload.url sample_payload)
                 (TextPayload.title sample_payload))) row viewer)
    as (Hc & Hd & _ & Hk).
  - vm_compute. reflexivity.
  - reflexivity.
  - reflexivity.
  - reflexivity.
  - by eexists.
  - reflexivity.
  - exact Hrow.
  - destruct (Hk "ai_summary") as [Hs Hn]; [rewrite !elem_of_cons; tauto |].
    split; eexists; split; eassumption.
Defined.


(** ** The advisory chat *)

Lemma OPENROUTER_API_KEY_set a b : String.eqb (OPENROUTER_API_KEY a b) "" = false.
Proof.
  unfold OPENROUTER_API_KEY.
  destruct a as [a |]; [destruct (String.eqb a "") eqn:Ea |]; simpl; try done;
    (destruct b as [b |]; [destruct (String.eqb b "") eqn:Eb |]; simpl; done).
Qed.

Section ChatRounds.
Context `{Platform}.

Lemma attempt_result model r s :
  (attempt model r s).1 = Normal (chat_result model r) /\
  only_console s (attempt model r s).2.
Proof.
  unfold attempt, chat_result, try_catch, and_then, log, modify, lift, ret, only_console,
    same_memory.
  destruct (chat_reply model r) as [[text | err] | e]; simpl; by destruct s.
Qed.

Lemma try_models_only_console models messages answer lastError :
  preserves only_console (try_models models messages answer lastError).
Proof.
  revert lastError. induction models as [| model rest IH]; intros lastError s; simpl.
  - reflexivity.
  - unfold and_then.
    destruct (attempt_result model (answer (request_for model messages)) s) as [Hr Hs].
    destruct (attempt _ _ s) as [c s1]. simpl in Hr, Hs. subst c.
    destruct (chat_result _ _); simpl; [done |].
    etrans; [exact Hs | apply IH].
Qed.


Lemma try_models_exhausted models messages answer lastError s :
  Forall (fun m => exists e, chat_result m (answer (request_for m messages)) = inr e) models ->
  (try_models models messages answer lastError s).1 =
  Throw (match last models with
         | Some m => match chat_result m (answer (request_for m messages)) with
                     | inr e => e
                     | inl text => text
                     end
         | None => default "All free models exhausted." lastError
         end).
Proof.
  intros Hb. revert lastError s.
  induction Hb as [| m rest [e He] Hrest IH]; intros lastError s; simpl; [done |].
  unfold and_then.
  destruct (attempt_result m (answer (request_for m messages)) s) as [Hr _].
  destruct (attempt _ _ s) as [c s1]. simpl in Hr. subst c. rewrite He.
  rewrite IH. destruct rest as [| m' rest']; [simpl; by rewrite He |].
  rewrite last_cons_cons. destruct (last (m' :: rest')) eqn:El; [done |].
  by apply last_None in El.
Qed.


End ChatRounds.










(** X23. When the round of every model fails, [callOpenRouterAI] throws
    the error of the last model of the chain, whatever the earlier ones
    failed with, and nothing but the console changes.  A rate-limited model
    fails with its id and the first 80 characters of the provider's
    message. *)
Theorem openrouter_exhausted `{Platform} (messages : list ChatMessage.t) (w : chat_world)
    (s : process) :
  Forall (round_fails messages w) FREE_MODELS ->
  (exists e,
     round messages w (ChatModel "meta-llama/llama-3.3-70b-instruct:free" false) = inr e /\
     (callOpenRouterAI messages w s).1 = Throw e) /\
  only_console s (callOpenRouterAI messages w s).2 /\
  (forall model status statusText data err message,
     chat_answer w (request_for model messages)
     = ChatAnswered false status statusText (Some (VObj data)) ->
     data !! "error" = Some (VObj err) -> err !! "message" = Some (VStr message) ->
     message <> "" ->
     round messages w model = inr (model_id model +:+ ": " +:+ substring 0 80 message)).
Proof.
  intros Hall. split; [| split].
  - pose proof Hall as Hlast. rewrite Forall_forall in Hlast.
    destruct (Hlast (ChatModel "meta-llama/llama-3.3-70b-instruct:free" false)) as [e He].
    { unfold FREE_MODELS. rewrite !elem_of_cons. tauto. }
    exists e. split; [exact He |].
    unfold callOpenRouterAI. rewrite OPENROUTER_API_KEY_set.
    rewrite try_models_exhausted; [| exact Hall].
    change (last FREE_MODELS)
      with (Some (ChatModel "meta-llama/llama-3.3-70b-instruct:free" false)).
    cbv iota beta. unfold round in He. by rewrite He.
  - unfold callOpenRouterAI. rewrite OPENROUTER_API_KEY_set. apply try_models_only_console.
  - intros model status statusText data err message Hr Hd He Hne.
    unfold round, chat_result. rewrite Hr.
    unfold chat_reply, res_json. simpl. unfold opt_prop. simpl. rewrite Hd. simpl.
    rewrite He. simpl. unfold js_or. simpl. apply String.eqb_neq in Hne. by rewrite Hne.
Qed.

Lemma openrouter_exhausted_witness :
  (callOpenRouterAI [ChatMessage.Make "user" "What is the DMCA?"] busy_world ready_process).1
  = Throw "meta-llama/llama-3.3-70b-instruct:free: Rate limit exceeded".
Proof.
  destruct (openrouter_exhausted [ChatMessage.Make "user" "What is the DMCA?"] busy_world
              ready_process) as ((e & He & Hr) & _).
  - repeat constructor; eexists; vm_compute; reflexivity.
  - rewrite Hr. f_equal. vm_compute in He. congruence.
Defined.

Lemma append_assoc' (a b c : string) : (a +:+ b) +:+ c = a +:+ b +:+ c.
Proof.
  induction a as [| x a IH]; [done |].
  change (String x ((a +:+ b) +:+ c) = String x (a +:+ b +:+ c)). by rewrite IH.
Qed.

Lemma is_system_role m : is_system m = false <-> ChatMessage.role m <> "system".
Proof. unfold is_system. apply String.eqb_neq. Qed.

Lemma filter_not_system messages :
  Forall (fun m => ChatMessage.role m <> "system")
    (List.filter (fun m => negb (is_system m)) messages).
Proof.
  apply Forall_forall. intros m Hin. apply list_elem_of_In, filter_In in Hin as [_ Hm].
  apply is_system_role. by destruct (is_system m).
Qed.

Lemma filter_all_not_system messages :
  Forall (fun m => ChatMessage.role m <> "system") messages ->
  List.filter (fun m => negb (is_system m)) messages = messages /\
  List.filter is_system messages = [].
Proof.
  induction 1 as [| m l Hm _ [IH1 IH2]]; simpl; [done |].
  apply is_system_role in Hm. rewrite Hm. simpl. by rewrite IH1, IH2.
Qed.

(** X24. A model that does not accept the system role is never sent a
    message of that role.  Every other message reaches it with its role and
    with its content at the end of the content sent (the instructions, if
    any, come before it), and a conversation without system messages is sent
    as it is.  The other models get the messages unchanged. *)
Theorem system_role_merged (model : chat_model) (messages : list ChatMessage.t) :
  (noSystem model = false -> request_messages (request_for model messages) = messages) /\
  (noSystem model = true ->
     Forall (fun m => ChatMessage.role m <> "system")
       (request_messages (request_for model messages)) /\
     (forall m, m ∈ messages -> ChatMessage.role m <> "system" ->
        exists m' pre,
          m' ∈ request_messages (request_for model messages) /\
          ChatMessage.role m' = ChatMessage.role m /\
          ChatMessage.content m' = pre +:+ ChatMessage.content m) /\
     (Forall (fun m => ChatMessage.role m <> "system") messages ->
      request_messages (request_for model messages) = messages)).
Proof.
  unfold request_for. split; [by intros -> |]. intros ->. simpl.
  unfold without_system.
  set (sys := join (nl +:+ nl) (map ChatMessage.content (List.filter is_system messages))).
  pose proof (filter_not_system messages) as Hrest.
  assert (forall m, m ∈ messages -> ChatMessage.role m <> "system" ->
            m ∈ List.filter (fun m => negb (is_system m)) messages) as Hkept.
  { intros m Hin Hm. apply list_elem_of_In, filter_In. split; [by apply list_elem_of_In |].
    apply is_system_role in Hm. by rewrite Hm. }
  split; [| split].
  - destruct (List.filter (fun m => negb (is_system m)) messages) as [| first more];
      destruct (negb (String.eqb sys "")); simpl; try done.
    + by repeat constructor.
    + apply Forall_cons in Hrest as [Hf Hm].
      destruct (String.eqb (ChatMessage.role first) "user"); by repeat constructor.
  - intros m Hin Hm. specialize (Hkept m Hin Hm).
    destruct (List.filter (fun m => negb (is_system m)) messages) as [| first more].
    { by apply elem_of_nil in Hkept. }
    destruct (negb (String.eqb sys "")); simpl.
    + destruct (String.eqb_spec (ChatMessage.role first) "user") as [Hu | Hu].
      * apply elem_of_cons in Hkept as [-> | Hkept].
        -- eexists _, ("[Instructions: " +:+ sys +:+ "]" +:+ nl +:+ nl).
           split; [apply elem_of_cons; by left |]. split; [by simpl |]. simpl.
           by rewrite !append_assoc'.
        -- exists m, "". split; [apply elem_of_cons; by right | done].
      * exists m, "". split; [apply elem_of_cons; by right | done].
    + exists m, "". split; [exact Hkept | done].
  - intros Hnone. destruct (filter_all_not_system messages Hnone) as [E1 E2].
    unfold sys. rewrite E1, E2. simpl. by destruct messages.
Qed.

Section LegalChat.
Context `{Platform}.








End LegalChat.






(** ** The evidence report *)

Lemma replace_all_app c r a b :
  replace_all c r (a +:+ b) = replace_all c r a +:+ replace_all c r b.
Proof.
  induction a as [| x a IH]; [done |].
  change (String x a +:+ b) with (String x (a +:+ b)). simpl. rewrite IH.
  destruct (Ascii.eqb x c); [by rewrite append_assoc' | done].
Qed.

Lemma replace_all_absent c r s : ¬ occurs c s -> replace_all c r s = s.
Proof.
  unfold occurs. induction s as [| x s IH]; simpl; [done |]. intros Hn.
  destruct (Ascii.eqb_spec x c) as [-> | Hne].
  - exfalso. apply Hn. apply elem_of_cons. by left.
  - rewrite IH; [done |]. intros Hin. apply Hn. apply elem_of_cons. by right.
Qed.

Lemma occurs_app c a b : occurs c (a +:+ b) <-> occurs c a \/ occurs c b.
Proof.
  unfold occurs. induction a as [| x a IH].
  - simpl. split; [by right | intros [H | H]; [by apply elem_of_nil in H | done]].
  - change (String x a +:+ b) with (String x (a +:+ b)). simpl.
    rewrite !elem_of_cons, IH. tauto.
Qed.

Lemma esc_is_esc_each s : esc (Some s) = esc_each s.
Proof.
  unfold esc. simpl. induction s as [| c s IH]; [done |].
  simpl. unfold esc_char.
  destruct (Ascii.eqb_spec c ampersand) as [-> | Ha].
  { rewrite !replace_all_app, IH. reflexivity. }
  simpl. destruct (Ascii.eqb_spec c lt_sign) as [-> | Hl].
  { rewrite !replace_all_app, IH. reflexivity. }
  simpl. destruct (Ascii.eqb_spec c gt_sign) as [-> | Hg].
  { rewrite !replace_all_app, IH. reflexivity. }
  simpl. destruct (Ascii.eqb_spec c double_quote) as [-> | Hq].
  { by rewrite IH. }
  by rewrite IH.
Qed.

Lemma esc_char_safe c x :
  x ∈ [lt_sign; gt_sign; double_quote] -> ¬ occurs x (esc_char c).
Proof.
  intros Hx. unfold esc_char, occurs.
  repeat (match goal with |- context [Ascii.eqb c ?y] =>
            destruct (Ascii.eqb_spec c y) as [-> | ?] end).
  1-4: rewrite !elem_of_cons in Hx;
       destruct Hx as [-> | [-> | [-> | Hx]]]; try (by apply elem_of_nil in Hx);
       intros H; apply list_elem_of_In in H; vm_compute in H;
       repeat destruct H as [H | H]; try discriminate; exact H.
  simpl. rewrite elem_of_cons. intros [-> | H]; [| by apply elem_of_nil in H].
  rewrite !elem_of_cons in Hx. destruct Hx as [Hx | [Hx | [Hx | Hx]]]; try done.
  by apply elem_of_nil in Hx.
Qed.

(** X27. The escaping of the evidence report neutralises markup: the
    escaped text contains no [<], no [>] and no double quote; the four
    replacements in sequence amount to replacing every character once by its
    entity, so that an ampersand written by a replacement is never escaped
    again; a text without these four characters is left as it is, and
    [null] or [undefined] becomes the empty text. *)
Theorem esc_neutralises_markup (s : string) :
  (forall x, x ∈ [lt_sign; gt_sign; double_quote] -> ¬ occurs x (esc (Some s))) /\
  esc (Some s) = esc_each s /\
  (forall a b, esc (Some (a +:+ b)) = esc (Some a) +:+ esc (Some b)) /\
  ((forall x, x ∈ [ampersand; lt_sign; gt_sign; double_quote] -> ¬ occurs x s) ->
   esc (Some s) = s) /\
  esc None = "".
Proof.
  split; [| split; [apply esc_is_esc_each | split; [| split; [| done]]]].
  - intros x Hx. rewrite esc_is_esc_each. induction s as [| c s IH]; simpl.
    + unfold occurs. simpl. apply not_elem_of_nil.
    + rewrite occurs_app. intros [Hc | Hs]; [by apply (esc_char_safe c x) | by apply IH].
  - intros a b. rewrite !esc_is_esc_each. induction a as [| c a IH]; [done |].
    change (String c a +:+ b) with (String c (a +:+ b)). simpl.
    by rewrite IH, append_assoc'.
  - intros Hnone. unfold esc. simpl.
    rewrite (replace_all_absent ampersand); [| apply Hnone; rewrite !elem_of_cons; tauto].
    rewrite (replace_all_absent lt_sign); [| apply Hnone; rewrite !elem_of_cons; tauto].
    rewrite (replace_all_absent gt_sign); [| apply Hnone; rewrite !elem_of_cons; tauto].
    apply replace_all_absent. apply Hnone. rewrite !elem_of_cons. tauto.
Qed.


(** ** The history of detections *)

Section HistoryGet.
Context `{Platform}.



End HistoryGet.


